(** * procrunner: running and supervising an external process

    A shallow embedding of [util/procrunner.py]: the two background
    stream helpers ([_NonBlockingStreamReader], [_NonBlockingStreamWriter])
    and the supervisor [run_process].

    Conventions of the embedding.
    - A Python 2 [str] is a list of bytes; Python integers are [Z].
    - Clock readings ([timeit.default_timer()], a float number of
      seconds) are exact integers counting milliseconds, so
      [time.sleep(0.5)] is a sleep of 500.
    - A background thread is a state machine; one step of it is one
      iteration of the loop of its thread function.  How many steps each
      thread gets, and when, is chosen by a schedule that belongs to the
      environment.
    - The operating system (the child process, Ctrl+C, the pipes) is an
      environment record of oracles; every theorem about [run_process]
      quantifies over all of them.
    - Ctrl+C can arrive at any operation of the main thread:
      [KeyboardInterrupt] is then raised in place of the operation, or,
      when it arrives during [time.sleep], out of the sleep.
    - [subprocess.Popen] can fail: it raises what the environment says
      for the command, and then there is no child. *)

From Stdlib Require Import ZArith Lia.
From stdpp Require Import base list strings gmap.

Open Scope Z_scope.

Definition bytes := list Byte.byte.

(** Exceptions that the module raises or lets through. *)
Inductive exn : Set :=
| KeyboardInterrupt
| Exception (msg : string)
| IOError (errno : Z)
| UnboundLocalError (name : string)
| OtherError (name : string).

(** Life of a background thread: still inside its function, returned
    from it, or killed by an exception that left the function. *)
Inductive thread : Set :=
| Running
| Returned
| Died (e : exn).

(** ** _NonBlockingStreamReader *)
Module Reader.

(** What one call of [readline()] on the pipe gives: a line, or an
    exception.  An exhausted pipe gives the empty string (end of file). *)
Inductive item : Set :=
| Line (l : bytes)
| Fails (e : exn).

Record t : Set := mk {
  _stream : list item;
  _buffer : bytes;          (* StringIO contents *)
  _buffer_closed : bool;    (* StringIO.close() was called *)
  _terminated : bool;
  _closed : bool;
  output : bool;
  printed : list bytes;     (* lines echoed by [print line,] *)
  _thread : thread
}.

(** [__init__]: fields set, thread started (it has run no step yet). *)
Definition init (stream : list item) (output : bool) : t :=
  mk stream [] false false false output [] Running.

Definition readline (s : list item) : (exn + bytes) * list item :=
  match s with
  | [] => (inr [], [])
  | Line l :: s' => (inr l, s')
  | Fails e :: s' => (inl e, s')
  end.

(** One iteration of [while line:] in [_thread_write_stream_to_buffer];
    the iteration that reads the empty string also runs the statement
    after the loop, [self._terminated = True], and the thread returns. *)
Definition step (r : t) : t :=
  match _thread r with
  | Running =>
      match readline (_stream r) with
      | (inl e, s') =>
          mk s' (_buffer r) (_buffer_closed r) (_terminated r) (_closed r)
             (output r) (printed r) (Died e)
      | (inr [], s') =>
          mk s' (_buffer r) (_buffer_closed r) true (_closed r)
             (output r) (printed r) Returned
      | (inr line, s') =>
          mk s' (_buffer r ++ line) (_buffer_closed r) (_terminated r) (_closed r)
             (output r)
             (if output r then printed r ++ [line] else printed r)
             Running
      end
  | _ => r
  end.

Definition steps (n : nat) (r : t) : t := Nat.iter n step r.

Definition has_finished (r : t) : bool := _terminated r.

Definition get_output (r : t) : (exn + bytes) * t :=
  if negb (has_finished r) then
    (inl (Exception "thread did not terminate"), r)
  else if _closed r then
    (inl (Exception "streamreader double-closed"), r)
  else
    (inr (_buffer r),
     mk (_stream r) (_buffer r) true (_terminated r) true
        (output r) (printed r) (_thread r)).

(** A session with a reader, seen from its owner: between two calls
    of [get_output] the thread may run some iterations of its loop. *)
Inductive op : Set :=
| Turn (n : nat)          (* the thread runs [n] iterations *)
| Get.                    (* the owner calls [get_output] *)

(** The session played from reader [r]: what the calls of
    [get_output] gave, in order, and the reader at the end. *)
Fixpoint session (ops : list op) (r : t) : list (exn + bytes) * t :=
  match ops with
  | [] => ([], r)
  | Turn n :: ops' => session ops' (steps n r)
  | Get :: ops' =>
      let '(x, r') := get_output r in
      let '(xs, r'') := session ops' r' in
      (x :: xs, r'')
  end.

(** The calls that gave data. *)
Definition data_of (xs : list (exn + bytes)) : list bytes :=
  omap (fun x => match x with inr d => Some d | inl _ => None end) xs.

(** A line the loop takes for data: not the empty string. *)
Definition is_data (i : item) : Prop :=
  match i with Line (_ :: _) => True | _ => False end.

Definition payload (i : item) : bytes :=
  match i with Line l => l | Fails _ => [] end.

End Reader.

(** ** _NonBlockingStreamWriter *)
Module Writer.

(** The child's stdin pipe, seen from the writing end.  [accept k] is
    what the [k]-th [write] call (counting from 0) does: it succeeds,
    or raises. *)
Record pipe : Set := mk_pipe {
  accept : nat -> option exn;
  written : list bytes;
  pipe_closed : bool
}.

Record t : Set := mk {
  _buffer : bytes;
  _buffer_len : Z;
  _buffer_pos : Z;
  _debug : bool;
  _max_block_len : Z;
  _stream : pipe;
  _terminated : bool;
  printed : list Z;         (* "wrote %d bytes to stream" *)
  _thread : thread
}.

Definition len (b : bytes) : Z := Z.of_nat (length b).

(** [b[lo:hi]] and [b[lo:]] for indices that are not negative. *)
Definition slice (b : bytes) (lo hi : Z) : bytes :=
  take (Z.to_nat (hi - lo)) (drop (Z.to_nat lo) b).
Definition slice_from (b : bytes) (lo : Z) : bytes :=
  drop (Z.to_nat lo) b.

Definition init (stream : pipe) (data : bytes) (debug : bool) : t :=
  mk data (len data) 0 debug 4096 stream false [] Running.

Definition write (p : pipe) (block : bytes) : option exn * pipe :=
  match accept p (length (written p)) with
  | None => (None, mk_pipe (accept p) (written p ++ [block]) (pipe_closed p))
  | Some e => (Some e, p)
  end.

Definition close (p : pipe) : pipe :=
  mk_pipe (accept p) (written p) true.

(** The block chosen at the top of the loop body. *)
Definition next_block (w : t) : bytes :=
  if _buffer_len w - _buffer_pos w >? _max_block_len w
  then slice (_buffer w) (_buffer_pos w) (_buffer_pos w + _max_block_len w)
  else slice_from (_buffer w) (_buffer_pos w).

(** One iteration of [while self._buffer_pos < self._buffer_len:] in
    [_thread_write_buffer_to_stream]; when the test fails the step runs
    the two statements after the loop and the thread returns. *)
Definition step (w : t) : t :=
  match _thread w with
  | Running =>
      if _buffer_pos w <? _buffer_len w then
        let block := next_block w in
        match write (_stream w) block with
        | (Some (IOError errno), s') =>
            if errno =? 32 then
              mk (_buffer w) (_buffer_len w) (_buffer_pos w) (_debug w)
                 (_max_block_len w) (close s') true (printed w) Returned
            else
              mk (_buffer w) (_buffer_len w) (_buffer_pos w) (_debug w)
                 (_max_block_len w) s' (_terminated w) (printed w)
                 (Died (IOError errno))
        | (Some e, s') =>
            mk (_buffer w) (_buffer_len w) (_buffer_pos w) (_debug w)
               (_max_block_len w) s' (_terminated w) (printed w) (Died e)
        | (None, s') =>
            mk (_buffer w) (_buffer_len w) (_buffer_pos w + len block) (_debug w)
               (_max_block_len w) s' (_terminated w)
               (if _debug w then printed w ++ [len block] else printed w)
               Running
        end
      else
        mk (_buffer w) (_buffer_len w) (_buffer_pos w) (_debug w)
           (_max_block_len w) (close (_stream w)) true (printed w) Returned
  | _ => w
  end.

Definition steps (n : nat) (w : t) : t := Nat.iter n step w.

Definition has_finished (w : t) : bool := _terminated w.
Definition bytes_sent (w : t) : Z := _buffer_pos w.
Definition bytes_remaining (w : t) : Z := _buffer_len w - _buffer_pos w.

(** A pipe whose reader takes everything. *)
Definition fresh_pipe (accept : nat -> option exn) : pipe :=
  mk_pipe accept [] false.
Definition always_ok : nat -> option exn := fun _ => None.

End Writer.

(** ** The environment of a run *)

Inductive signal : Set := SIGTERM | SIGKILL.

#[global] Instance signal_eq_dec : EqDecision signal.
Proof. solve_decision. Defined.

(** Debug messages of [run_process], with the numbers they format. *)
Inductive message : Set :=
| Starting (command : list string)
| StillRunning (t : Z)
| TimeoutAt (t : Z)
| Ended (runtime code t : Z).

(** What the supervisor does to the outside, in order. *)
Inductive event : Set :=
| Popen (command : list string) (stdin_pipe : bool)
| Sleep (d : Z)
| Poll (status : option Z)
| Terminate
| Kill
| Print (m : message).

(** The oracles.
    - [status sent t]: the exit status the operating system reports for
      the child at instant [t] when the signals [sent] (each with the
      instant it was sent at) have been delivered; [None] while the
      child is running.  [status [] t] is what the child does on its own.
    - [interrupted k]: Ctrl+C arrives during the [k]-th [time.sleep].
    - [lag k]: by how much the [k]-th sleep oversleeps.
    - [schedule k]: the loop iterations the stdout reader, the stderr
      reader and the stdin writer get at the [k]-th scheduling point.
    - the contents of the child's two output pipes and the behaviour of
      its input pipe.
    - [launch command]: what [subprocess.Popen] does with the command:
      [None] when it starts the child, [Some e] when it raises [e]
      ([OSError] for a program that cannot be executed, [IndexError]
      for an empty command).
    - [ctrl_c k]: Ctrl+C arrives while the main thread, not sleeping,
      is at point [k] of its progress (see [progress]). *)
Record env : Type := mk_env {
  status : list (Z * signal) -> Z -> option Z;
  interrupted : nat -> bool;
  lag : nat -> N;
  schedule : nat -> nat * nat * nat;
  out_pipe : list Reader.item;
  err_pipe : list Reader.item;
  in_pipe : nat -> option exn;
  launch : list string -> option exn;
  ctrl_c : nat -> bool
}.

(** State outside the child's objects.  [dummy] is the module-level
    variable of that name. *)
Record world : Type := mk_world {
  dummy : bool;
  os : env;
  clock : Z;
  naps : nat;                     (* calls of time.sleep so far *)
  turns : nat;                    (* scheduling points so far *)
  sent : list (Z * signal);
  trace : list event
}.

(** The objects [run_process] creates: the Popen handle (its
    [returncode] attribute), the two readers and, when input was given,
    the writer. *)
Record child : Set := mk_child {
  returncode : option Z;
  stdout : Reader.t;
  stderr : Reader.t;
  stdin : option Writer.t
}.

(** Values stored in the result dictionary.  [VSeconds] is a float
    duration, [VStamp] the string [time.strftime] makes of an instant. *)
Inductive value : Set :=
| VNone
| VBool (b : bool)
| VInt (z : Z)
| VSeconds (ms : Z)
| VStr (s : bytes)
| VArgv (l : list string)
| VStamp (t : Z).

Definition of_returncode (rc : option Z) : value :=
  match rc with Some c => VInt c | None => VNone end.

(** ** A state and exception monad with fuel *)

Inductive res (S A : Type) : Type :=
| Ok (a : A) (s : S)
| Raise (e : exn) (s : S)
| OutOfFuel.
Arguments Ok {S A} a s.
Arguments Raise {S A} e s.
Arguments OutOfFuel {S A}.

Definition M (A : Type) : Type := world * child -> res (world * child) A.

Definition ret {A} (a : A) : M A := fun s => Ok a s.
Definition bind {A B} (m : M A) (k : A -> M B) : M B :=
  fun s => match m s with
           | Ok a s' => k a s'
           | Raise e s' => Raise e s'
           | OutOfFuel => OutOfFuel
           end.
Definition raise {A} (e : exn) : M A := fun s => Raise e s.
Definition diverge {A} : M A := fun _ => OutOfFuel.

Notation "x <- m ;; k" := (bind m (fun x => k))
  (at level 100, m at next level, right associativity).
Notation "m ;; k" := (bind m (fun _ => k))
  (at level 100, right associativity).

(** [try: m except KeyboardInterrupt: h] *)
Definition except_KeyboardInterrupt {A} (m : M A) (h : M A) : M A :=
  fun s => match m s with
           | Raise KeyboardInterrupt s' => h s'
           | r => r
           end.

Definition when (b : bool) (m : M unit) : M unit :=
  if b then m else ret tt.

(** ** Primitive operations of the supervisor *)

Definition log (e : event) (w : world) : world :=
  mk_world (dummy w) (os w) (clock w) (naps w) (turns w) (sent w) (trace w ++ [e]).

Definition advance (d : Z) (w : world) : world :=
  mk_world (dummy w) (os w) (clock w + d) (S (naps w)) (turns w) (sent w) (trace w).

Definition deliver (sg : signal) (w : world) : world :=
  mk_world (dummy w) (os w) (clock w) (naps w) (turns w)
           (sent w ++ [(clock w, sg)]) (trace w).

(** How far the main thread has got: the events it has logged and the
    scheduling points it has passed.  Every operation that changes the
    state moves it on. *)
Definition progress (w : world) : nat := (length (trace w) + turns w)%nat.

(** An operation of the main thread that Ctrl+C can interrupt: when
    Ctrl+C arrives at this point, [KeyboardInterrupt] is raised in its
    place.  (Between two such operations nothing happens that could be
    observed, so an interrupt that arrives there is one that arrives at
    the next operation.) *)
Definition interruptible {A} (m : M A) : M A :=
  fun s => if ctrl_c (os s.1) (progress s.1) then Raise KeyboardInterrupt s else m s.

(** [timeit.default_timer()] *)
Definition default_timer : M Z := interruptible (fun s => Ok (clock (fst s)) s).

(** [time.strftime(..., time.gmtime())] *)
Definition strftime (w : world) : value := VStamp (clock w).

Definition print (m : message) : M unit :=
  interruptible (fun '(w, c) => Ok tt (log (Print m) w, c)).

(** [time.sleep(d)]: interrupted by Ctrl+C, or over after [d] and the lag. *)
Definition sleep (d : Z) : M unit :=
  fun '(w, c) =>
    let k := naps w in
    if interrupted (os w) k
    then Raise KeyboardInterrupt
           (advance (Z.min d (Z.of_N (lag (os w) k))) (log (Sleep d) w), c)
    else Ok tt (advance (d + Z.of_N (lag (os w) k)) (log (Sleep d) w), c).

(** [p.poll()]: asks the operating system unless the exit status is
    already known, and stores the answer in [p.returncode]. *)
Definition poll : M unit :=
  interruptible
    (fun '(w, c) =>
       let rc := match returncode c with
                 | Some x => Some x
                 | None => status (os w) (sent w) (clock w)
                 end in
       Ok tt (log (Poll rc) w, mk_child rc (stdout c) (stderr c) (stdin c))).

Definition terminate : M unit :=
  interruptible (fun '(w, c) => Ok tt (log Terminate (deliver SIGTERM w), c)).

Definition kill : M unit :=
  interruptible (fun '(w, c) => Ok tt (log Kill (deliver SIGKILL w), c)).

(** [p.returncode] *)
Definition get_returncode : M (option Z) :=
  interruptible (fun s => Ok (returncode (snd s)) s).

(** A scheduling point: the background threads run as the schedule says. *)
Definition yield : M unit :=
  fun '(w, c) =>
    let '(a, b, n) := schedule (os w) (turns w) in
    Ok tt (mk_world (dummy w) (os w) (clock w) (naps w) (S (turns w)) (sent w) (trace w),
           mk_child (returncode c)
                    (Reader.steps a (stdout c))
                    (Reader.steps b (stderr c))
                    (option_map (Writer.steps n) (stdin c))).

(** Calls of the methods of the objects shared with the threads; each
    is preceded by a scheduling point. *)
Definition stdout_has_finished : M bool :=
  interruptible
    (yield ;; (fun s => Ok (Reader.has_finished (stdout (snd s))) s)).
Definition stderr_has_finished : M bool :=
  interruptible
    (yield ;; (fun s => Ok (Reader.has_finished (stderr (snd s))) s)).

Definition stdout_get_output : M bytes :=
  interruptible
    (yield ;;
     (fun '(w, c) =>
        match Reader.get_output (stdout c) with
        | (inl e, r) => Raise e (w, mk_child (returncode c) r (stderr c) (stdin c))
        | (inr d, r) => Ok d (w, mk_child (returncode c) r (stderr c) (stdin c))
        end)).
Definition stderr_get_output : M bytes :=
  interruptible
    (yield ;;
     (fun '(w, c) =>
        match Reader.get_output (stderr c) with
        | (inl e, r) => Raise e (w, mk_child (returncode c) (stdout c) r (stdin c))
        | (inr d, r) => Ok d (w, mk_child (returncode c) (stdout c) r (stdin c))
        end)).

(** The local variable [stdin]. *)
Definition get_stdin : M (option Writer.t) := fun s => Ok (stdin (snd s)) s.
Definition stdin_bytes_sent : M Z :=
  interruptible
    (yield ;;
     (fun s =>
        Ok (match stdin (snd s) with Some f => Writer.bytes_sent f | None => 0 end) s)).
Definition stdin_bytes_remaining : M Z :=
  interruptible
    (yield ;;
     (fun s =>
        Ok (match stdin (snd s) with Some f => Writer.bytes_remaining f | None => 0 end)
           s)).

(** Reading the local variable [max_time], which is bound only when a
    timeout was given. *)
Definition read_max_time (max_time : option Z) : M Z :=
  match max_time with
  | Some t => ret t
  | None => raise (UnboundLocalError "max_time")
  end.

(** The state after a [subprocess.Popen(command, ...)] that has started
    the child, and the three constructors. *)
Definition launched (command : list string) (stdin : option bytes)
    (print_stdout print_stderr : bool) (w : world) : world * child :=
  (log (Popen command (match stdin with None => false | Some _ => true end)) w,
   mk_child None
            (Reader.init (out_pipe (os w)) print_stdout)
            (Reader.init (err_pipe (os w)) print_stderr)
            (match stdin with
             | None => None
             | Some data =>
                 Some (Writer.init (Writer.fresh_pipe (in_pipe (os w))) data false)
             end)).

(** [start_time = timeit.default_timer()], [subprocess.Popen(command, ...)]
    and the three constructors: Ctrl+C raises [KeyboardInterrupt] before
    anything is done; [Popen] is called and raises what [launch] says,
    and then there is no child; or the child is started. *)
Definition spawn (command : list string) (stdin : option bytes)
    (print_stdout print_stderr : bool) (w : world) : exn * world + world * child :=
  if ctrl_c (os w) (progress w) then inl (KeyboardInterrupt, w)
  else
    match launch (os w) command with
    | Some e =>
        inl (e, log (Popen command (match stdin with None => false | Some _ => true end)) w)
    | None => inr (launched command stdin print_stdout print_stderr w)
    end.

(** ** run_process *)

(** [not stdout.has_finished() or not stderr.has_finished()] *)
Definition drains_unfinished : M bool :=
  a <- stdout_has_finished ;;
  if negb a then ret true
  else b <- stderr_has_finished ;; ret (negb b).

(** The test of the polling loop:
    [(p.returncode is None) and ((timeout is None) or (timeit.default_timer() < max_time))] *)
Definition still_waiting (timeout max_time : option Z) : M bool :=
  rc <- get_returncode ;;
  match rc with
  | Some _ => ret false
  | None =>
      match timeout with
      | None => ret true
      | Some _ =>
          t <- default_timer ;;
          m <- read_max_time max_time ;;
          ret (t <? m)
      end
  end.

(** The body of the polling loop. *)
Definition poll_once (timeout max_time : option Z) (debug : bool) : M unit :=
  when (debug && bool_decide (timeout <> None))
       (t <- default_timer ;;
        m <- read_max_time max_time ;;
        print (StillRunning (t - m))) ;;
  except_KeyboardInterrupt (sleep 500) (kill ;; raise KeyboardInterrupt) ;;
  poll.

(** The polling loop; [fuel] bounds the number of iterations. *)
Fixpoint poll_loop (fuel : nat) (timeout max_time : option Z) (debug : bool) : M unit :=
  go <- still_waiting timeout max_time ;;
  if go then
    match fuel with
    | O => diverge
    | S fuel' =>
        poll_once timeout max_time debug ;;
        poll_loop fuel' timeout max_time debug
    end
  else ret tt.

(** First stage of the shutdown; gives the value of [timeout_encountered]. *)
Definition terminate_stage (max_time : option Z) (debug : bool) : M bool :=
  rc <- get_returncode ;;
  match rc with
  | None =>
      when debug
           (t <- default_timer ;;
            m <- read_max_time max_time ;;
            print (TimeoutAt (t - m))) ;;
      terminate ;;
      sleep 500 ;;
      u <- drains_unfinished ;;
      when u (sleep 2000) ;;
      poll ;;
      ret true
  | Some _ => ret false
  end.

(** Second stage of the shutdown. *)
Definition kill_stage : M unit :=
  rc <- get_returncode ;;
  match rc with
  | None =>
      kill ;;
      sleep 500 ;;
      u <- drains_unfinished ;;
      when u (sleep 5000) ;;
      poll
  | Some _ => ret tt
  end.

Definition dict := gmap string value.

(** The dictionary [result] as first built. *)
Definition result_dict (exitcode : value) (command : list string) (out err : bytes)
    (timeout_encountered : bool) (runtime : Z) (time_start time_end : value) : dict :=
  <["exitcode" := exitcode]>
  (<["command" := VArgv command]>
  (<["stdout" := VStr out]>
  (<["stderr" := VStr err]>
  (<["timeout" := VBool timeout_encountered]>
  (<["runtime" := VSeconds runtime]>
  (<["time_start" := time_start]>
  (<["time_end" := time_end]> ∅))))))).

(** [result.update({ 'stdin_bytes_sent': ..., 'stdin_bytes_remain': ... })] *)
Definition update_stdin (n r : Z) (result : dict) : dict :=
  <["stdin_bytes_sent" := VInt n]> (<["stdin_bytes_remain" := VInt r]> result).

(** From [stdout = stdout.get_output()] to [return result]. *)
Definition collect (command : list string) (time_start : value) (runtime : Z)
    (timeout_encountered : bool) : M dict :=
  out <- stdout_get_output ;;
  err <- stderr_get_output ;;
  time_end <- (fun s => Ok (strftime (fst s)) s) ;;
  rc <- get_returncode ;;
  let result :=
    result_dict (of_returncode rc) command out err timeout_encountered
                runtime time_start time_end in
  feed <- get_stdin ;;
  match feed with
  | Some _ =>
      n <- stdin_bytes_sent ;;
      r <- stdin_bytes_remaining ;;
      ret (update_stdin n r result)
  | None => ret result
  end.

(** From the last test of [p.returncode] to the end. *)
Definition report (command : list string) (max_time : option Z) (debug : bool)
    (time_start : value) (start_time : Z) (timeout_encountered : bool) : M dict :=
  rc <- get_returncode ;;
  match rc with
  | None => raise (Exception "Process won't terminate")
  | Some code =>
      t <- default_timer ;;
      let runtime := t - start_time in
      when debug
           (t' <- default_timer ;;
            m <- read_max_time max_time ;;
            print (Ended runtime code (t' - m))) ;;
      collect command time_start runtime timeout_encountered
  end.

(** Everything after the three constructors. *)
Definition supervise (fuel : nat) (command : list string) (timeout : option Z)
    (debug : bool) (time_start : value) (start_time : Z) (max_time : option Z) : M dict :=
  poll_loop fuel timeout max_time debug ;;
  timeout_encountered <- terminate_stage max_time debug ;;
  kill_stage ;;
  report command max_time debug time_start start_time timeout_encountered.

(** What the dummy mode returns. *)
Definition dummy_result (command : list string) (time_start : value) : dict :=
  <["exitcode" := VInt 0]>
  (<["command" := VArgv command]>
  (<["stdout" := VStr []]>
  (<["stderr" := VStr []]>
  (<["timeout" := VBool false]>
  (<["runtime" := VInt 0]>
  (<["time_start" := time_start]>
  (<["time_end" := time_start]> ∅))))))).

(** The state a run ends in: the world, and the child's objects when a
    child was made. *)
Definition final : Type := world * option child.

Definition with_child {A} (r : res (world * child) A) : res final A :=
  match r with
  | Ok a (w, c) => Ok a (w, Some c)
  | Raise e (w, c) => Raise e (w, Some c)
  | OutOfFuel => OutOfFuel
  end.

(** [run_process].  [time.strftime] is the first operation of the call
    and the first point at which Ctrl+C can arrive; the debug message
    that follows is at the same point of the progress.  In dummy mode
    the call returns at once.  Otherwise [Popen] starts the child or
    raises, and with a child the supervisor runs. *)
Definition run_process (fuel : nat) (command : list string) (timeout : option Z)
    (debug : bool) (stdin : option bytes) (print_stdout print_stderr : bool)
    (w : world) : res final dict :=
  if ctrl_c (os w) (progress w) then Raise KeyboardInterrupt (w, None)
  else
    let time_start := strftime w in
    let w := if debug then log (Print (Starting command)) w else w in
    if dummy w then Ok (dummy_result command time_start) (w, None)
    else
      let start_time := clock w in
      let max_time := match timeout with
                      | Some t => Some (start_time + t)
                      | None => None
                      end in
      match spawn command stdin print_stdout print_stderr w with
      | inl (e, w') => Raise e (w', None)
      | inr s0 =>
          with_child
            (supervise fuel command timeout debug time_start start_time max_time s0)
      end.

(** ** Sample environments *)

(** A child that ends on its own at instant [t] with status [code], and
    that no signal stops before. *)
Definition exits_at (t code : Z) : list (Z * signal) -> Z -> option Z :=
  fun _ now => if t <=? now then Some code else None.

(** A child that never ends on its own, ignores SIGTERM and dies of
    SIGKILL (status -9). *)
Definition dies_of_kill : list (Z * signal) -> Z -> option Z :=
  fun sent _ => if bool_decide (SIGKILL ∈ sent.*2) then Some (-9) else None.

(** A child that nothing stops. *)
Definition immortal : list (Z * signal) -> Z -> option Z :=
  fun _ _ => None.

(** Threads that are given [n] loop iterations at every scheduling point. *)
Definition eager (n : nat) : nat -> nat * nat * nat := fun _ => (n, n, n).

(** A command that [Popen] starts, and no Ctrl+C outside the sleeps. *)
Definition starts : list string -> option exn := fun _ => None.
Definition no_ctrl_c : nat -> bool := fun _ => false.

Definition quiet_env (st : list (Z * signal) -> Z -> option Z)
    (out err : list Reader.item) : env :=
  mk_env st (fun _ => false) (fun _ => 0%N) (eager 8) out err Writer.always_ok
         starts no_ctrl_c.

(** The world before a call: module variable [dummy] is [d], the clock
    shows [t0], nothing has happened yet. *)
Definition boot (d : bool) (e : env) (t0 : Z) : world :=
  mk_world d e t0 0 0 [] [].

(** A schedule that gives the writer thread its [m] iterations at the
    [k]-th scheduling point only, and lets the readers run. *)
Definition writer_turn (k m : nat) : nat -> nat * nat * nat :=
  fun i => (8%nat, 8%nat, if (i =? k)%nat then m else 0%nat).

(** A schedule under which the stdout reader never gets to run, as when
    the pipe stays open and silent after the child has ended. *)
Definition stalled_stdout : nat -> nat * nat * nat := fun _ => (0%nat, 8%nat, 8%nat).

(** Ctrl+C during the [k]-th sleep, on a child that nothing stops. *)
Definition interrupt_at (k : nat) : nat -> bool := fun i => (i =? k)%nat.
Definition ctrl_c_env (k : nat) : env :=
  mk_env immortal (interrupt_at k) (fun _ => 0%N) (eager 8) [] [] Writer.always_ok
         starts no_ctrl_c.

(** Ctrl+C outside a sleep, at point [k] of the progress of the main
    thread, on a child that nothing stops. *)
Definition ctrl_c_at (k : nat) : env :=
  mk_env immortal (fun _ => false) (fun _ => 0%N) (eager 8) [] [] Writer.always_ok
         starts (fun i => (i =? k)%nat).

(** A command that [Popen] cannot start, as when there is no such file. *)
Definition no_such_command : env :=
  mk_env immortal (fun _ => false) (fun _ => 0%N) (eager 8) [] [] Writer.always_ok
         (fun _ => Some (OtherError "OSError")) no_ctrl_c.

(** ** Looking at the outcome of a call *)

Definition is_ok (r : res final dict) : bool :=
  match r with Ok _ _ => true | _ => false end.

(** The value a returned dictionary has under [key]. *)
Definition returned (r : res final dict) (key : string) : option value :=
  match r with Ok d _ => d !! key | _ => None end.

Definition raised (r : res final dict) : option exn :=
  match r with Raise e _ => Some e | _ => None end.

Definition trace_after (r : res final dict) : list event :=
  match r with
  | Ok _ (w, _) | Raise _ (w, _) => trace w
  | OutOfFuel => []
  end.

Definition sent_after (r : res final dict) : list (Z * signal) :=
  match r with
  | Ok _ (w, _) | Raise _ (w, _) => sent w
  | OutOfFuel => []
  end.

(** [p.returncode] at the end of the call. *)
Definition returncode_after (r : res final dict) : option Z :=
  match r with
  | Ok _ (_, Some c) | Raise _ (_, Some c) => returncode c
  | _ => None
  end.

(** ** Invariants used in the proofs *)

(** The thread never touches [_closed], and the flag [_terminated] is
    set exactly when the thread function has returned. *)
Definition tidy (r : Reader.t) : Prop :=
  (Reader._terminated r = true <-> Reader._thread r = Returned).

(** The position stays inside the payload. *)
Definition in_range (w : Writer.t) : Prop :=
  Writer._buffer_len w = Writer.len (Writer._buffer w) /\
  0 <= Writer._buffer_pos w <= Writer._buffer_len w /\
  0 < Writer._max_block_len w.

(** State of a writer whose pipe takes every block: what has been
    written is the payload up to the position, block by block. *)
Definition fed (data : bytes) (w : Writer.t) : Prop :=
  Writer._buffer w = data /\ in_range w /\
  (forall k, Writer.accept (Writer._stream w) k = None) /\
  concat (Writer.written (Writer._stream w))
    = take (Z.to_nat (Writer._buffer_pos w)) data /\
  Forall (fun b => 0 < Writer.len b <= Writer._max_block_len w)
         (Writer.written (Writer._stream w)).

(** A pipe whose reader goes away after taking [k] blocks. *)
Definition breaks_after (k : nat) : nat -> option exn :=
  fun i => if (i <? k)%nat then None else Some (IOError 32).

(** ** Reasoning about the supervisor *)

Definition state : Type := world * child.

(** Weakest precondition of a computation of the supervisor: [Q] for
    the states it returns in, [E] for those it raises in. *)
Definition wp {A} (m : M A) (Q : A -> state -> Prop) (E : exn -> state -> Prop)
    (s : state) : Prop :=
  match m s with
  | Ok a s' => Q a s'
  | Raise e s' => E e s'
  | OutOfFuel => True
  end.

Definition writer_evolves (a b : option Writer.t) : Prop :=
  match a, b with
  | None, None => True
  | Some f, Some f' => exists n, f' = Writer.steps n f
  | _, _ => False
  end.

(** How the state can change while the supervisor waits and signals:
    time passes, events and signals are added, a known exit status
    stays, the threads run. *)
Record evolves (s s' : state) : Prop := mk_evolves {
  ev_os : os s'.1 = os s.1;
  ev_dummy : dummy s'.1 = dummy s.1;
  ev_clock : clock s.1 <= clock s'.1;
  ev_trace : exists evs, trace s'.1 = trace s.1 ++ evs;
  ev_sent : exists sg, sent s'.1 = sent s.1 ++ sg;
  ev_rc : forall x, returncode s.2 = Some x -> returncode s'.2 = Some x;
  ev_stdout : exists n, stdout s'.2 = Reader.steps n (stdout s.2);
  ev_stderr : exists n, stderr s'.2 = Reader.steps n (stderr s.2);
  ev_stdin : writer_evolves (stdin s.2) (stdin s'.2)
}.

(** The state after a scheduling point. *)
Definition yielded (w : world) (c : child) : state :=
  (mk_world (dummy w) (os w) (clock w) (naps w) (S (turns w)) (sent w) (trace w),
   mk_child (returncode c)
            (Reader.steps (schedule (os w) (turns w)).1.1 (stdout c))
            (Reader.steps (schedule (os w) (turns w)).1.2 (stderr c))
            (option_map (Writer.steps (schedule (os w) (turns w)).2) (stdin c))).

(** A computation that only does that. *)
Definition framed {A} (m : M A) : Prop :=
  forall s, wp m (fun _ s' => evolves s s') (fun _ s' => evolves s s') s.

(** Events among which the supervisor sends no signal. *)
Definition quiet (evs : list event) : Prop := (Terminate ∉ evs) /\ (Kill ∉ evs).

(** Ctrl+C is arriving at the point the main thread has reached. *)
Definition pending (s : state) : Prop := ctrl_c (os s.1) (progress s.1) = true.

(** The supervisor has been left in [s'] by a Ctrl+C that arrived
    outside a sleep, where nothing catches it, and has sent nothing since
    [s]. *)
Definition aborted (s s' : state) (e : exn) : Prop :=
  e = KeyboardInterrupt /\ pending s' /\
  sent s'.1 = sent s.1 /\ os s'.1 = os s.1 /\
  exists evs, trace s'.1 = trace s.1 ++ evs /\ quiet evs.

(** The polling loop has ended normally; [s] is the state it started
    in.  Either no exit status is known, and then the deadline [m] has
    been reached and the last poll, if there was one, found the child
    running; or the status is known: it was known before, or a poll made
    one sleep after an instant [T0] at which the deadline had not been
    reached has found it. *)
Definition loop_over (mt : option Z) (s s' : state) : Prop :=
  sent s'.1 = sent s.1 /\ os s'.1 = os s.1 /\ clock s.1 <= clock s'.1 /\
  (exists evs, trace s'.1 = trace s.1 ++ evs /\ quiet evs) /\
  (forall x, returncode s.2 = Some x -> s' = s) /\
  match returncode s'.2 with
  | None =>
      exists m, mt = Some m /\ m <= clock s'.1 /\
        (clock s'.1 = clock s.1 \/
         status (os s.1) (sent s.1) (clock s'.1) = None)
  | Some code =>
      returncode s.2 = Some code \/
      exists T0 k, clock s.1 <= T0 /\ (forall m, mt = Some m -> T0 < m) /\
        clock s'.1 = T0 + 500 + Z.of_N (lag (os s.1) k) /\
        status (os s.1) (sent s.1) (clock s'.1) = Some code
  end.

(** The polling loop has been left by the handler of its [try]: Ctrl+C
    arrived during the sleep, [p.kill()] was called and the interrupt
    raised again. *)
Definition loop_interrupted (s s' : state) (e : exn) : Prop :=
  e = KeyboardInterrupt /\
  (exists evs, trace s'.1 = trace s.1 ++ evs ++ [Sleep 500; Kill] /\ quiet evs) /\
  (exists T, sent s'.1 = sent s.1 ++ [(T, SIGKILL)]) /\
  os s'.1 = os s.1 /\
  interrupted (os s.1) (pred (naps s'.1)) = true.

(** The supervisor has waited (slept, looked at the readers) between
    [s] and [s'] and has sent nothing. *)
Definition rested (s s' : state) : Prop :=
  sent s'.1 = sent s.1 /\ os s'.1 = os s.1 /\ clock s.1 <= clock s'.1 /\
  returncode s'.2 = returncode s.2 /\
  exists evs, trace s'.1 = trace s.1 ++ evs /\ quiet evs.

(** A stage of the shutdown has run from [s], in which no exit status
    was known, to [s']: it has sent [sg], logged as [ev], at the instant
    the stage began, has waited and has polled last. *)
Definition escalated (sg : signal) (ev : event) (s s' : state) : Prop :=
  sent s'.1 = sent s.1 ++ [(clock s.1, sg)] /\ os s'.1 = os s.1 /\
  exists evs1 evs2,
    trace s'.1 = trace s.1 ++ evs1 ++ [ev] ++ evs2 ++ [Poll (returncode s'.2)] /\
    quiet evs1 /\ quiet evs2.

(** A stage of the shutdown has been left by Ctrl+C after it had sent
    its signal: Ctrl+C arrived during a sleep, or outside one. *)
Definition stage_interrupted (ev : event) (s s' : state) : Prop :=
  os s'.1 = os s.1 /\
  (exists evs1 evs2, trace s'.1 = trace s.1 ++ evs1 ++ [ev] ++ evs2 /\
                     quiet evs1 /\ quiet evs2) /\
  (interrupted (os s.1) (pred (naps s'.1)) = true \/ pending s').

(** [report] has returned dictionary [d]; [s] is the state it began in. *)
Definition reported (command : list string) (time_start : value) (start_time : Z)
    (timeout_encountered : bool) (s s' : state) (d : dict) : Prop :=
  (exists code, returncode s.2 = Some code /\ returncode s'.2 = Some code /\
                d !! "exitcode" = Some (VInt code)) /\
  d !! "command" = Some (VArgv command) /\
  (exists out, d !! "stdout" = Some (VStr out)) /\
  (exists err, d !! "stderr" = Some (VStr err)) /\
  d !! "timeout" = Some (VBool timeout_encountered) /\
  d !! "runtime" = Some (VSeconds (clock s.1 - start_time)) /\
  d !! "time_start" = Some time_start /\
  d !! "time_end" = Some (VStamp (clock s.1)) /\
  Reader.has_finished (stdout s'.2) = true /\
  Reader.has_finished (stderr s'.2) = true /\
  sent s'.1 = sent s.1 /\ os s'.1 = os s.1 /\ clock s'.1 = clock s.1 /\
  (exists evs, trace s'.1 = trace s.1 ++ evs /\ quiet evs) /\
  match stdin s.2 with
  | None =>
      stdin s'.2 = None /\
      d !! "stdin_bytes_sent" = None /\ d !! "stdin_bytes_remain" = None
  | Some f =>
      exists a,
        stdin s'.2
          = Some (Writer.steps (schedule (os s.1) (pred (turns s'.1))).2
                               (Writer.steps a f)) /\
        d !! "stdin_bytes_sent"
          = Some (VInt (Writer.bytes_sent (Writer.steps a f))) /\
        d !! "stdin_bytes_remain"
          = Some (VInt (Writer.bytes_remaining
                          (Writer.steps (schedule (os s.1) (pred (turns s'.1))).2
                                        (Writer.steps a f))))
  end.

(** [report] has raised [e]. *)
Definition report_failed (mt : option Z) (debug : bool) (s s' : state) (e : exn) : Prop :=
  sent s'.1 = sent s.1 /\ os s'.1 = os s.1 /\
  (exists evs, trace s'.1 = trace s.1 ++ evs /\ quiet evs) /\
  returncode s'.2 = returncode s.2 /\
  ((e = Exception "Process won't terminate" /\ returncode s.2 = None /\ s' = s) \/
   (e = UnboundLocalError "max_time" /\ debug = true /\ mt = None /\
    returncode s.2 <> None) \/
   (e = Exception "thread did not terminate" /\ returncode s.2 <> None /\
    (Reader.has_finished (stdout s'.2) = false \/
     Reader.has_finished (stderr s'.2) = false)) \/
   (e = KeyboardInterrupt /\ pending s')).

(** What the two byte counts of the dictionary are, [f] being the
    writer as constructed: the position after some [a] iterations of
    the writer thread, and the rest of the payload after the iterations
    the thread was given between the two readings. *)
Definition stdin_counts (feed : option Writer.t) (s' : state) (d : dict) : Prop :=
  match feed with
  | None => d !! "stdin_bytes_sent" = None /\ d !! "stdin_bytes_remain" = None
  | Some f =>
      exists a,
        d !! "stdin_bytes_sent"
          = Some (VInt (Writer.bytes_sent (Writer.steps a f))) /\
        d !! "stdin_bytes_remain"
          = Some (VInt (Writer.bytes_remaining
                          (Writer.steps (schedule (os s'.1) (pred (turns s'.1))).2
                                        (Writer.steps a f))))
  end.

(** The child ended by itself: a poll of the loop, made one sleep after
    an instant [T0] at which the deadline had not been reached, found
    the exit status; no signal was sent. *)
Definition ended_by_itself (mt : option Z) (s0 s' : state) (d : dict) : Prop :=
  d !! "timeout" = Some (VBool false) /\
  sent s'.1 = sent s0.1 /\
  (exists evs, trace s'.1 = trace s0.1 ++ evs /\ quiet evs) /\
  exists code T0 k,
    d !! "exitcode" = Some (VInt code) /\
    clock s0.1 <= T0 /\ (forall m, mt = Some m -> T0 < m) /\
    status (os s0.1) (sent s0.1) (T0 + 500 + Z.of_N (lag (os s0.1) k)) = Some code.

(** The deadline [m] came first: at an instant [T] not before it, the
    loop ended with no exit status known (the last poll, if any was
    made, had found the child running at [T]), and SIGTERM was sent at
    [T], SIGKILL possibly after it. *)
Definition stopped_at_deadline (mt : option Z) (s0 s' : state) (d : dict) : Prop :=
  d !! "timeout" = Some (VBool true) /\
  exists m T,
    mt = Some m /\ m <= T /\
    (T = clock s0.1 \/ status (os s0.1) (sent s0.1) T = None) /\
    (sent s'.1 = sent s0.1 ++ [(T, SIGTERM)] \/
     exists T', sent s'.1 = sent s0.1 ++ [(T, SIGTERM); (T', SIGKILL)]) /\
    exists evs1 evs2,
      trace s'.1 = trace s0.1 ++ evs1 ++ [Terminate] ++ evs2 /\ quiet evs1.

(** [supervise] has returned [d]. *)
Definition run_returned (mt : option Z) (s0 s' : state) (d : dict) : Prop :=
  (exists code, returncode s'.2 = Some code /\ d !! "exitcode" = Some (VInt code)) /\
  os s'.1 = os s0.1 /\
  stdin_counts (stdin s0.2) s' d /\
  (ended_by_itself mt s0 s' d \/ stopped_at_deadline mt s0 s' d).

(** [supervise] has raised [e].  A [KeyboardInterrupt] comes out of the
    handler of the polling loop, after [p.kill()]; or from after
    [p.terminate()]; or from a point outside a sleep with nothing sent. *)
Definition run_raised (mt : option Z) (debug : bool) (s0 s' : state) (e : exn) : Prop :=
  os s'.1 = os s0.1 /\
  ((e = KeyboardInterrupt /\
    ((interrupted (os s0.1) (pred (naps s'.1)) = true /\
      exists evs T,
        trace s'.1 = trace s0.1 ++ evs ++ [Sleep 500; Kill] /\ quiet evs /\
        sent s'.1 = sent s0.1 ++ [(T, SIGKILL)]) \/
     ((interrupted (os s0.1) (pred (naps s'.1)) = true \/ pending s') /\
      exists evs1 evs2,
        trace s'.1 = trace s0.1 ++ evs1 ++ [Terminate] ++ evs2 /\ quiet evs1) \/
     (pending s' /\ sent s'.1 = sent s0.1 /\
      exists evs, trace s'.1 = trace s0.1 ++ evs /\ quiet evs))) \/
   (e = Exception "Process won't terminate" /\
    returncode s'.2 = None /\
    exists evs1 evs2 evs3,
      trace s'.1 = trace s0.1 ++ evs1 ++ [Terminate] ++ evs2 ++ [Kill] ++ evs3
                   ++ [Poll None] /\
      quiet evs1 /\ quiet evs2 /\ quiet evs3) \/
   (e = Exception "thread did not terminate" /\
    returncode s'.2 <> None /\
    (Reader.has_finished (stdout s'.2) = false \/
     Reader.has_finished (stderr s'.2) = false)) \/
   (e = UnboundLocalError "max_time" /\ debug = true /\ mt = None /\
    returncode s'.2 <> None /\ sent s'.1 = sent s0.1)).

(** The state [run_process] is in after the three constructors, and
    the value of [max_time] when a timeout is given. *)
Definition started (command : list string) (debug : bool) (stdin : option bytes)
    (print_stdout print_stderr : bool) (w : world) : state :=
  launched command stdin print_stdout print_stderr
           (if debug then log (Print (Starting command)) w else w).

Definition deadline (start_time : Z) (timeout : option Z) : option Z :=
  match timeout with
  | Some t => Some (start_time + t)
  | None => None
  end.

(** A call in real mode gets as far as having a child: no Ctrl+C at the
    start of the call or at [Popen], and [Popen] starts the command. *)
Definition starts_up (command : list string) (debug : bool) (w : world) : Prop :=
  let w1 := if debug then log (Print (Starting command)) w else w in
  ctrl_c (os w) (progress w) = false /\
  ctrl_c (os w) (progress w1) = false /\
  launch (os w) command = None.

(** The ways a call in real mode ends before there is a child: Ctrl+C
    at the start of the call, Ctrl+C before [Popen], or [Popen] raises. *)
Definition not_started (command : list string) (debug : bool) (stdin : option bytes)
    (w w' : world) (e : exn) : Prop :=
  let w1 := if debug then log (Print (Starting command)) w else w in
  (e = KeyboardInterrupt /\ ctrl_c (os w) (progress w) = true /\ w' = w) \/
  (e = KeyboardInterrupt /\ ctrl_c (os w) (progress w1) = true /\ w' = w1) \/
  (launch (os w) command = Some e /\
   w' = log (Popen command (match stdin with None => false | Some _ => true end)) w1).

(** A computation that does not run out of fuel. *)
Definition halts {A} (m : M A) (s : state) : Prop := m s <> OutOfFuel.
Definition total {A} (m : M A) : Prop := forall s, halts m s.

(** ** Further definitions for the properties of the helpers *)

(** A payload cut into blocks of [m] bytes, the last one possibly
    shorter; [fuel] bounds the number of blocks. *)
Fixpoint chunks (fuel : nat) (m : nat) (b : bytes) : list bytes :=
  match fuel with
  | O => []
  | S fuel' =>
      match b with
      | [] => []
      | _ :: _ => take m b :: chunks fuel' m (drop m b)
      end
  end.

Definition blocks (m : nat) (b : bytes) : list bytes := chunks (length b) m b.

(** State of a writer on any pipe: what has been written is the
    payload up to the position. *)
Definition sent_prefix (data : bytes) (w : Writer.t) : Prop :=
  Writer._buffer w = data /\ in_range w /\
  concat (Writer.written (Writer._stream w))
    = take (Z.to_nat (Writer._buffer_pos w)) data.

(** ** Further definitions for the properties of the supervisor *)

(** What the two stages of the shutdown leave. *)
Definition stage1_post (te : bool) (s1 s2 : state) : Prop :=
  match returncode s1.2 with
  | Some _ => te = false /\ s2 = s1
  | None => te = true /\ escalated SIGTERM Terminate s1 s2
  end.

Definition stage2_post (s2 s3 : state) : Prop :=
  match returncode s2.2 with
  | Some _ => s3 = s2
  | None => escalated SIGKILL Kill s2 s3
  end.

(** The states of the shutdown: [s1] after the polling loop, [s2] and
    [s3] after the two stages; [te] is [timeout_encountered]. *)
Record shutdown (s1 s2 s3 : state) (te : bool) : Prop := {
  sd_term : stage1_post te s1 s2;
  sd_ev2 : evolves s1 s2;
  sd_kill : stage2_post s2 s3;
  sd_ev3 : evolves s2 s3
}.

(** The ways the code after the polling loop raises: Ctrl+C before
    [p.terminate()], Ctrl+C after it, Ctrl+C before [p.kill()], Ctrl+C
    after it, and the errors of the report. *)
Definition shutdown_failed (mt : option Z) (debug : bool) (s1 s' : state) (e : exn) : Prop :=
  aborted s1 s' e \/
  (returncode s1.2 = None /\ e = KeyboardInterrupt /\
   stage_interrupted Terminate s1 s' /\
   sent s'.1 = sent s1.1 ++ [(clock s1.1, SIGTERM)]) \/
  (exists s2 te,
     stage1_post te s1 s2 /\ evolves s1 s2 /\ aborted s2 s' e) \/
  (exists s2 te,
     stage1_post te s1 s2 /\ evolves s1 s2 /\ returncode s2.2 = None /\
     e = KeyboardInterrupt /\ stage_interrupted Kill s2 s' /\
     sent s'.1 = sent s2.1 ++ [(clock s2.1, SIGKILL)]) \/
  (exists s2 s3 te, shutdown s1 s2 s3 te /\ report_failed mt debug s3 s' e).

(** The ways [supervise] raises. *)
Definition run_failed (mt : option Z) (debug : bool) (s0 s' : state) (e : exn) : Prop :=
  loop_interrupted s0 s' e \/ aborted s0 s' e \/
  exists s1, loop_over mt s0 s1 /\ evolves s0 s1 /\ shutdown_failed mt debug s1 s' e.

(** No poll among [evs] has seen the child end. *)
Definition unreaped (evs : list event) : Prop := forall x, Poll (Some x) ∉ evs.

Definition is_signal (ev : event) : Prop := ev = Terminate \/ ev = Kill.

(** Every signal among [evs] was sent before any poll saw the child end. *)
Definition signals_first (evs : list event) : Prop :=
  forall a ev b, evs = a ++ ev :: b -> is_signal ev -> unreaped a.

(** The invariant of the supervisor, [tr0] being the trace before the
    call: so far signals came first, and as long as [p.returncode] is
    [None] no poll has seen the child end. *)
Definition careful (tr0 : list event) (s : state) : Prop :=
  exists evs, trace s.1 = tr0 ++ evs /\ signals_first evs /\
              (returncode s.2 = None -> unreaped evs).

(** A computation that keeps the invariant and leaves [p.returncode] alone. *)
Definition keeps {A} (tr0 : list event) (m : M A) : Prop :=
  forall s, careful tr0 s ->
    wp m (fun _ s' => careful tr0 s' /\ returncode s'.2 = returncode s.2)
         (fun _ s' => careful tr0 s' /\ returncode s'.2 = returncode s.2) s.

(** What is asked of a part of the supervisor. *)
Definition safe {A} (tr0 : list event) (m : M A) (s : state) : Prop :=
  wp m (fun _ s' => careful tr0 s') (fun _ s' => careful tr0 s') s.

(** A computation that lets at most [b] milliseconds pass when no sleep
    oversleeps. *)
Definition within {A} (b : Z) (m : M A) : Prop :=
  forall s, (forall k, lag (os s.1) k = 0%N) ->
    wp m (fun _ s' => os s'.1 = os s.1 /\ clock s'.1 <= clock s.1 + b)
         (fun _ s' => os s'.1 = os s.1 /\ clock s'.1 <= clock s.1 + b) s.

(** The signals a call may have added to those sent before it: none,
    SIGTERM, or SIGTERM and then SIGKILL. *)
Definition escalation (before after : list (Z * signal)) : Prop :=
  after = before \/
  (exists T, after = before ++ [(T, SIGTERM)]) \/
  (exists T T', T <= T' /\ after = before ++ [(T, SIGTERM); (T', SIGKILL)]).

(** The terminate signal was sent at instant [T0], the first since the
    signals [sg0] and the events [tr0]. *)
Definition signalled_at (T0 : Z) (sg0 : list (Z * signal)) (tr0 : list event)
    (w' : world) : Prop :=
  (exists rest, sent w' = sg0 ++ (T0, SIGTERM) :: rest) /\
  exists evs, trace w' = tr0 ++ evs /\ Terminate ∈ evs.

(** Nothing has been sent since the signals [sg0] and the events
    [tr0]. *)
Definition calm (tr0 : list event) (sg0 : list (Z * signal)) (w' : world) : Prop :=
  exists evs, trace w' = tr0 ++ evs /\ quiet evs /\ sent w' = sg0.

(** What has been sent since then, by the events: [p.kill()] was
    called; or [p.terminate()] was, and SIGTERM is what was sent; or
    neither, and nothing was sent. *)
Definition tally (tr0 : list event) (sg0 : list (Z * signal)) (w' : world) : Prop :=
  exists evs,
    trace w' = tr0 ++ evs /\
    (Kill ∈ evs \/
     (Terminate ∈ evs /\ (exists T, sent w' = sg0 ++ [(T, SIGTERM)])) \/
     ((Terminate ∉ evs) /\ sent w' = sg0)).

(** * Properties *)

(** ** The stream reader *)

Section ReaderFacts.
Import Reader.

Lemma reader_steps_S (n : nat) (r : t) : steps (S n) r = steps n (step r).
Proof. unfold steps. apply Nat.iter_succ_r. Qed.

Lemma reader_steps_add (n m : nat) (r : t) :
  steps (n + m) r = steps m (steps n r).
Proof.
  revert r. induction n as [|n IH]; intros r; [reflexivity|].
  rewrite Nat.add_succ_l, !reader_steps_S. apply IH.
Qed.

(** A thread that is over does not move any more. *)
Lemma reader_over (n : nat) (r : t) :
  _thread r <> Running -> steps n r = r.
Proof.
  intros H. induction n as [|n IH]; [reflexivity|].
  rewrite reader_steps_S.
  replace (step r) with r; [exact IH|].
  unfold step. destruct (_thread r); congruence.
Qed.

Lemma step_closed (r : t) : _closed (step r) = _closed r.
Proof.
  unfold step. destruct (_thread r); try reflexivity.
  destruct (readline (_stream r)) as [[e|[|b l]] s']; reflexivity.
Qed.

Lemma steps_closed (n : nat) (r : t) : _closed (steps n r) = _closed r.
Proof.
  revert r. induction n as [|n IH]; intros r; [reflexivity|].
  rewrite reader_steps_S, IH. apply step_closed.
Qed.

Lemma step_tidy (r : t) : tidy r -> tidy (step r).
Proof.
  unfold tidy, step. intros H.
  destruct (_thread r) eqn:Ht; rewrite ?Ht; try exact H.
  destruct (readline (_stream r)) as [[e|[|b l]] s']; simpl.
  - split; [intros Hx; apply H in Hx; congruence | congruence].
  - tauto.
  - split; [intros Hx; apply H in Hx; congruence | congruence].
Qed.

Lemma step_stay_terminated (r : t) :
  _terminated r = true -> _terminated (step r) = true.
Proof.
  unfold step. intros H. destruct (_thread r); try exact H.
  destruct (readline (_stream r)) as [[e|[|b l]] s']; cbn; auto.
Qed.

Lemma steps_stay_terminated (n : nat) (r : t) :
  _terminated r = true -> _terminated (steps n r) = true.
Proof.
  revert r. induction n as [|n IH]; intros r H; [exact H|].
  rewrite reader_steps_S. apply IH, step_stay_terminated, H.
Qed.

Lemma steps_tidy (n : nat) (r : t) : tidy r -> tidy (steps n r).
Proof.
  revert r. induction n as [|n IH]; intros r H; [exact H|].
  rewrite reader_steps_S. apply IH, step_tidy, H.
Qed.

Lemma init_tidy (s : list item) (o : bool) : tidy (init s o).
Proof. unfold tidy, init; simpl. split; congruence. Qed.

(** Once set, [_terminated] stays set. *)
Lemma steps_terminated (n : nat) (r : t) :
  tidy r -> _terminated r = true -> steps n r = r.
Proof.
  intros H Ht. apply reader_over. apply H in Ht. congruence.
Qed.

(** Reading data lines: they are appended to the buffer in order. *)
Lemma steps_data (pre : list item) (rest : list item) (r : t) :
  Forall is_data pre ->
  _thread r = Running ->
  _stream r = pre ++ rest ->
  _thread (steps (length pre) r) = Running /\
  _stream (steps (length pre) r) = rest /\
  _buffer (steps (length pre) r) = _buffer r ++ concat (map payload pre) /\
  _terminated (steps (length pre) r) = _terminated r.
Proof.
  intros Hd. revert r.
  induction Hd as [|i pre Hi Hd IH]; intros r Hr Hs.
  - cbn. rewrite app_nil_r. auto.
  - cbn [length]. rewrite reader_steps_S.
    destruct i as [[|b l]|e]; simpl in Hi; try contradiction.
    assert (Hstep : step r =
      mk (pre ++ rest) (_buffer r ++ b :: l) (_buffer_closed r) (_terminated r)
         (_closed r) (output r)
         (if output r then printed r ++ [b :: l] else printed r) Running).
    { unfold step. rewrite Hr, Hs. reflexivity. }
    destruct (IH (step r)) as (H1 & H2 & H3 & H4).
    + rewrite Hstep. reflexivity.
    + rewrite Hstep. reflexivity.
    + rewrite H1, H2, H3, H4, Hstep. cbn.
      rewrite <- app_assoc. auto.
Qed.

End ReaderFacts.

Section ReaderSession.
Import Reader.

Lemma get_output_early (r : t) :
  has_finished r = false ->
  get_output r = (inl (Exception "thread did not terminate"), r).
Proof. unfold get_output. intros ->. reflexivity. Qed.

Lemma get_output_again (r : t) :
  has_finished r = true -> _closed r = true ->
  get_output r = (inl (Exception "streamreader double-closed"), r).
Proof. unfold get_output. intros -> ->. reflexivity. Qed.

Lemma get_output_first (r : t) :
  has_finished r = true -> _closed r = false ->
  get_output r =
    (inr (_buffer r),
     mk (_stream r) (_buffer r) true true true (output r) (printed r) (_thread r)).
Proof.
  unfold get_output, has_finished. intros H ->. rewrite H. reflexivity.
Qed.

(** What a session does to the two flags, from any tidy reader. *)
Lemma session_flags (ops : list op) (r : t) :
  tidy r ->
  tidy (session ops r).2 /\
  (_closed r = true -> _terminated r = true ->
     data_of (session ops r).1 = [] /\
     _closed (session ops r).2 = true /\ _terminated (session ops r).2 = true) /\
  (_closed r = false ->
     (data_of (session ops r).1 = [] /\ _closed (session ops r).2 = false) \/
     (exists d, data_of (session ops r).1 = [d] /\
                _closed (session ops r).2 = true /\
                _terminated (session ops r).2 = true)).
Proof.
  revert r. induction ops as [|o ops IH]; intros r Ht.
  - cbn. split; [exact Ht|]. split; [auto|]. intros Hc. left. auto.
  - destruct o as [n|].
    + cbn [session].
      destruct (IH (steps n r) (steps_tidy n r Ht)) as (I1 & I2 & I3).
      split; [exact I1|]. split.
      * intros Hc Hf. rewrite (steps_terminated n r Ht Hf) in *. auto.
      * intros Hc. apply I3. rewrite steps_closed. exact Hc.
    + cbn [session].
      destruct (has_finished r) eqn:Hf; [destruct (_closed r) eqn:Hc|].
      * rewrite (get_output_again r Hf Hc).
        destruct (session ops r) as [xs r''] eqn:Hs.
        specialize (IH r Ht). rewrite Hs in IH. cbn in *.
        destruct IH as (I1 & I2 & I3).
        split; [exact I1|]. split; [|congruence]. intros _ _. auto.
      * rewrite (get_output_first r Hf Hc).
        set (r1 := mk _ _ _ _ _ _ _ _).
        assert (Ht1 : tidy r1).
        { unfold tidy, r1; cbn. unfold tidy, has_finished in *.
          rewrite <- Ht. tauto. }
        destruct (session ops r1) as [xs r''] eqn:Hs.
        specialize (IH r1 Ht1). rewrite Hs in IH. cbn in *.
        destruct IH as (I1 & I2 & I3).
        split; [exact I1|]. split; [congruence|]. intros _. right.
        destruct I2 as (J1 & J2 & J3); [reflexivity..|].
        exists (_buffer r). rewrite J1. auto.
      * rewrite (get_output_early r Hf).
        destruct (session ops r) as [xs r''] eqn:Hs.
        specialize (IH r Ht). rewrite Hs in IH. cbn in *.
        destruct IH as (I1 & I2 & I3).
        split; [exact I1|]. split; [|exact I3].
        intros _ Hx. unfold has_finished in Hf. congruence.
Qed.

End ReaderSession.

(** C3. In every session with a stream reader (any pipe contents, any
    interleaving of thread iterations and calls), a call of [get_output]
    made before the reader has finished raises "thread did not
    terminate", gives no data and changes nothing; the first call made
    after it has finished gives the whole buffer and marks the reader
    closed; and every call after one that gave data raises
    "streamreader double-closed".  So a session hands out data at most
    once. *)
Theorem get_output_one_shot (stream : list Reader.item) (output : bool)
    (ops : list Reader.op) :
  let xs := (Reader.session ops (Reader.init stream output)).1 in
  let r := (Reader.session ops (Reader.init stream output)).2 in
  (Reader.has_finished r = false ->
     Reader.data_of xs = [] /\
     Reader.get_output r = (inl (Exception "thread did not terminate"), r)) /\
  (Reader.has_finished r = true -> Reader.data_of xs = [] ->
     exists r', Reader.get_output r = (inr (Reader._buffer r), r') /\
                Reader._closed r' = true /\ Reader.has_finished r' = true /\
                Reader._buffer r' = Reader._buffer r) /\
  (Reader.data_of xs <> [] ->
     Reader.get_output r = (inl (Exception "streamreader double-closed"), r)) /\
  (length (Reader.data_of xs) <= 1)%nat.
Proof.
  intros xs r.
  destruct (session_flags ops (Reader.init stream output) (init_tidy stream output))
    as (_ & _ & H).
  specialize (H eq_refl). fold xs r in H.
  repeat split.
  - destruct H as [[H _]|(d & _ & _ & H)]; [exact H|].
    unfold Reader.has_finished in *. congruence.
  - apply get_output_early; assumption.
  - intros Hf Hx. destruct H as [[_ Hc]|(d & Hd & _)]; [|congruence].
    rewrite (get_output_first r Hf Hc). eexists. split; [reflexivity|]. auto.
  - intros Hx. destruct H as [[H _]|(d & _ & Hc & Hf)]; [congruence|].
    apply get_output_again; assumption.
  - destruct H as [[-> _]|(d & -> & _)]; cbn; lia.
Qed.

(** A session of C3 on a pipe with two lines: a call too early, the
    call that gets the data, and a call too many. *)
Lemma get_output_one_shot_witness :
  let r0 := Reader.init [Reader.Line [Byte.x68; Byte.x69]; Reader.Line [Byte.x0a]] true in
  (Reader.session [Reader.Turn 1; Reader.Get; Reader.Turn 5; Reader.Get; Reader.Get] r0).1
    = [inl (Exception "thread did not terminate");
       inr [Byte.x68; Byte.x69; Byte.x0a];
       inl (Exception "streamreader double-closed")]
  /\ Reader.get_output (Reader.session [Reader.Turn 1; Reader.Get; Reader.Turn 5; Reader.Get] r0).2
     = (inl (Exception "streamreader double-closed"),
        (Reader.session [Reader.Turn 1; Reader.Get; Reader.Turn 5; Reader.Get] r0).2).
Proof.
  split; [reflexivity|].
  apply (get_output_one_shot
           [Reader.Line [Byte.x68; Byte.x69]; Reader.Line [Byte.x0a]] true
           [Reader.Turn 1; Reader.Get; Reader.Turn 5; Reader.Get]).
  discriminate.
Defined.

Section ReaderErrors.
Import Reader.

(** The iteration in which [readline] raises. *)
Lemma step_fails (r : t) (e : exn) (post : list item) :
  _thread r = Running -> _stream r = Fails e :: post ->
  step r = mk post (_buffer r) (_buffer_closed r) (_terminated r) (_closed r)
              (output r) (printed r) (Died e).
Proof. intros Hr Hs. unfold step. rewrite Hr, Hs. reflexivity. Qed.

(** The iteration in which [readline] gives the empty string. *)
Lemma step_eof (r : t) :
  _thread r = Running -> _stream r = [] ->
  step r = mk [] (_buffer r) (_buffer_closed r) true (_closed r)
              (output r) (printed r) Returned.
Proof. intros Hr Hs. unfold step. rewrite Hr, Hs. reflexivity. Qed.

Lemma steps_split (n k : nat) (r : t) :
  (k < n)%nat -> steps n r = steps (n - k - 1) (step (steps k r)).
Proof.
  intros H. replace n with (k + S (n - k - 1))%nat at 1 by lia.
  rewrite reader_steps_add, reader_steps_S. reflexivity.
Qed.

End ReaderErrors.

(** C4 (as the code has it). A read error ends the read loop, but it is
    not taken for the end of the stream: the exception leaves the
    thread function, nothing more is read, [has_finished] stays false
    for ever, and [get_output] raises "thread did not terminate", so
    the lines read before the error stay in the buffer and cannot be
    fetched.  Only the empty read, the end of the stream, sets
    [_terminated]; then [get_output] gives all the lines read. *)
Theorem read_error_kills_reader (pre post : list Reader.item) (e : exn)
    (output : bool) (n : nat) :
  Forall Reader.is_data pre ->
  (length pre < n)%nat ->
  (let r := Reader.steps n (Reader.init (pre ++ Reader.Fails e :: post) output) in
   Reader._thread r = Died e /\
   Reader._stream r = post /\
   Reader.has_finished r = false /\
   Reader._buffer r = concat (map Reader.payload pre) /\
   Reader.get_output r = (inl (Exception "thread did not terminate"), r)) /\
  (let r := Reader.steps n (Reader.init pre output) in
   Reader._thread r = Returned /\
   Reader.has_finished r = true /\
   (Reader.get_output r).1 = inr (concat (map Reader.payload pre))).
Proof.
  intros Hd Hn. split.
  - intros r.
    destruct (steps_data pre (Reader.Fails e :: post)
                (Reader.init (pre ++ Reader.Fails e :: post) output) Hd eq_refl eq_refl)
      as (H1 & H2 & H3 & H4).
    assert (Hr : r = Reader.step
                       (Reader.steps (length pre)
                          (Reader.init (pre ++ Reader.Fails e :: post) output))).
    { unfold r. rewrite (steps_split n (length pre)) by exact Hn.
      apply reader_over. rewrite (step_fails _ e post H1 H2). discriminate. }
    rewrite (step_fails _ e post H1 H2) in Hr.
    assert (Hf : Reader.has_finished r = false).
    { rewrite Hr. unfold Reader.has_finished; cbn. rewrite H4. reflexivity. }
    split; [rewrite Hr; reflexivity|].
    split; [rewrite Hr; reflexivity|].
    split; [exact Hf|].
    split; [rewrite Hr; cbn; rewrite H3; reflexivity|].
    apply get_output_early, Hf.
  - intros r.
    destruct (steps_data pre [] (Reader.init pre output) Hd eq_refl)
      as (H1 & H2 & H3 & H4).
    { cbn. rewrite app_nil_r. reflexivity. }
    assert (Hr : r = Reader.step (Reader.steps (length pre) (Reader.init pre output))).
    { unfold r. rewrite (steps_split n (length pre)) by exact Hn.
      apply reader_over. rewrite (step_eof _ H1 H2). discriminate. }
    rewrite (step_eof _ H1 H2) in Hr.
    assert (Hc : Reader._closed r = false).
    { unfold r. rewrite steps_closed. reflexivity. }
    assert (Hf : Reader.has_finished r = true) by (rewrite Hr; reflexivity).
    split; [rewrite Hr; reflexivity|].
    split; [exact Hf|].
    rewrite (get_output_first r Hf Hc). cbn. rewrite Hr. cbn. rewrite H3. reflexivity.
Qed.

(** C4 at a pipe that gives one line and then an I/O error. *)
Lemma read_error_kills_reader_witness :
  Reader.has_finished
    (Reader.steps 7
       (Reader.init [Reader.Line [Byte.x68; Byte.x0a]; Reader.Fails (IOError 5)] true))
  = false.
Proof.
  apply (read_error_kills_reader
           [Reader.Line [Byte.x68; Byte.x0a]] [] (IOError 5) true 7).
  - repeat constructor.
  - cbn. lia.
Defined.

(** C4 as the specification words it fails: on a pipe that gives one
    line and then an I/O error, the exception ends the thread, the
    reader never reports that it has finished, and the line it read
    cannot be fetched. *)
Lemma read_error_not_end_of_stream :
  Reader._thread
    (Reader.steps 2
       (Reader.init [Reader.Line [Byte.x68; Byte.x0a]; Reader.Fails (IOError 5)] true))
  = Died (IOError 5)
  /\ Reader._buffer
       (Reader.steps 2
          (Reader.init [Reader.Line [Byte.x68; Byte.x0a]; Reader.Fails (IOError 5)] true))
     = [Byte.x68; Byte.x0a]
  /\ (Reader.get_output
        (Reader.steps 2
           (Reader.init [Reader.Line [Byte.x68; Byte.x0a]; Reader.Fails (IOError 5)] true))).1
     = inl (Exception "thread did not terminate")
  /\ ~ (exists n,
          Reader.has_finished
            (Reader.steps n
               (Reader.init [Reader.Line [Byte.x68; Byte.x0a]; Reader.Fails (IOError 5)] true))
          = true).
Proof.
  repeat split.
  intros [n Hn].
  destruct n as [|[|n]]; try discriminate Hn.
  rewrite (reader_steps_add 2 n) in Hn.
  rewrite reader_over in Hn; discriminate.
Qed.

(** ** The stream writer *)

Section WriterFacts.
Import Writer.

Lemma writer_steps_S (n : nat) (w : t) : steps (S n) w = steps n (step w).
Proof. unfold steps. apply Nat.iter_succ_r. Qed.

Lemma writer_over (n : nat) (w : t) :
  _thread w <> Running -> steps n w = w.
Proof.
  intros H. induction n as [|n IH]; [reflexivity|].
  rewrite writer_steps_S.
  replace (step w) with w; [exact IH|].
  unfold step. destruct (_thread w); congruence.
Qed.

(** The three ways an iteration of the loop can go, and the step after
    the loop. *)
Lemma step_write_ok (w : t) :
  _thread w = Running -> _buffer_pos w < _buffer_len w ->
  accept (_stream w) (length (written (_stream w))) = None ->
  step w =
    mk (_buffer w) (_buffer_len w) (_buffer_pos w + len (next_block w)) (_debug w)
       (_max_block_len w)
       (mk_pipe (accept (_stream w)) (written (_stream w) ++ [next_block w])
                (pipe_closed (_stream w)))
       (_terminated w)
       (if _debug w then printed w ++ [len (next_block w)] else printed w)
       Running.
Proof.
  intros Hr Hp Ha. unfold step, write. rewrite Hr, Ha.
  destruct (Z.ltb_spec (_buffer_pos w) (_buffer_len w)); [reflexivity|lia].
Qed.

Lemma step_broken_pipe (w : t) :
  _thread w = Running -> _buffer_pos w < _buffer_len w ->
  accept (_stream w) (length (written (_stream w))) = Some (IOError 32) ->
  step w =
    mk (_buffer w) (_buffer_len w) (_buffer_pos w) (_debug w)
       (_max_block_len w) (close (_stream w)) true (printed w) Returned.
Proof.
  intros Hr Hp Ha. unfold step, write. rewrite Hr, Ha.
  destruct (Z.ltb_spec (_buffer_pos w) (_buffer_len w)); [reflexivity|lia].
Qed.

Lemma step_write_raises (w : t) (e : exn) :
  _thread w = Running -> _buffer_pos w < _buffer_len w ->
  accept (_stream w) (length (written (_stream w))) = Some e ->
  e <> IOError 32 ->
  step w =
    mk (_buffer w) (_buffer_len w) (_buffer_pos w) (_debug w)
       (_max_block_len w) (_stream w) (_terminated w) (printed w) (Died e).
Proof.
  intros Hr Hp Ha He. unfold step, write. rewrite Hr, Ha.
  destruct (Z.ltb_spec (_buffer_pos w) (_buffer_len w)); [|lia].
  destruct e as [|m|errno|m|m]; try reflexivity.
  destruct (Z.eqb_spec errno 32); [congruence|reflexivity].
Qed.

Lemma step_done (w : t) :
  _thread w = Running -> _buffer_len w <= _buffer_pos w ->
  step w =
    mk (_buffer w) (_buffer_len w) (_buffer_pos w) (_debug w)
       (_max_block_len w) (close (_stream w)) true (printed w) Returned.
Proof.
  intros Hr Hp. unfold step. rewrite Hr.
  destruct (Z.ltb_spec (_buffer_pos w) (_buffer_len w)); [lia|reflexivity].
Qed.

Lemma next_block_len (w : t) :
  in_range w -> _buffer_pos w < _buffer_len w ->
  0 < len (next_block w) <= _max_block_len w /\
  _buffer_pos w + len (next_block w) <= _buffer_len w /\
  next_block w =
    take (Z.to_nat (len (next_block w))) (drop (Z.to_nat (_buffer_pos w)) (_buffer w)).
Proof.
  intros (Hl & Hp & Hm) Hlt. unfold next_block, slice, slice_from, len in *.
  destruct (Z.gtb_spec (_buffer_len w - _buffer_pos w) (_max_block_len w)).
  - rewrite length_take, length_drop.
    replace (_buffer_pos w + _max_block_len w - _buffer_pos w)
      with (_max_block_len w) by lia.
    split; [lia|]. split; [lia|].
    f_equal. lia.
  - rewrite length_drop.
    split; [lia|]. split; [lia|].
    rewrite take_ge; [reflexivity|]. rewrite length_drop. lia.
Qed.

Lemma step_in_range (w : t) :
  in_range w ->
  in_range (step w) /\ _buffer (step w) = _buffer w /\
  _buffer_len (step w) = _buffer_len w /\
  _buffer_pos w <= _buffer_pos (step w).
Proof.
  intros H. unfold step.
  destruct (_thread w) eqn:Hr; try (split; [exact H|]; repeat split; lia).
  destruct (Z.ltb_spec (_buffer_pos w) (_buffer_len w)) as [Hlt|Hge].
  - destruct (next_block_len w H Hlt) as (B1 & B2 & _).
    unfold write.
    destruct (accept (_stream w) (length (written (_stream w)))) as [e|].
    + destruct e as [|m|errno|m|m]; try destruct (errno =? 32);
        (split; [exact H|]; cbn; repeat split; lia).
    + destruct H as (H1 & H2 & H3).
      unfold in_range; cbn. repeat split; lia.
  - split; [exact H|]. cbn. repeat split; lia.
Qed.

Lemma steps_in_range (n : nat) (w : t) :
  in_range w ->
  in_range (steps n w) /\ _buffer (steps n w) = _buffer w /\
  _buffer_len (steps n w) = _buffer_len w /\
  _buffer_pos w <= _buffer_pos (steps n w).
Proof.
  revert w. induction n as [|n IH]; intros w H.
  - cbn. repeat split; try apply H; lia.
  - rewrite writer_steps_S.
    destruct (step_in_range w H) as (S1 & S2 & S3 & S4).
    destruct (IH (step w) S1) as (I1 & I2 & I3 & I4).
    split; [exact I1|]. repeat split; congruence || lia.
Qed.

Lemma init_in_range (p : pipe) (data : bytes) (debug : bool) :
  in_range (init p data debug).
Proof. unfold in_range, init, len; cbn. lia. Qed.

End WriterFacts.

Section WriterFeeds.
Import Writer.

Lemma fed_step (data : bytes) (w : t) :
  fed data w -> _thread w = Running -> _buffer_pos w < _buffer_len w ->
  fed data (step w) /\ _thread (step w) = Running /\
  _buffer_pos w < _buffer_pos (step w) /\
  _buffer_len (step w) = _buffer_len w /\
  _max_block_len (step w) = _max_block_len w.
Proof.
  intros (Hb & Hr & Ha & Hc & Hf) Ht Hlt.
  destruct (next_block_len w Hr Hlt) as (B1 & B2 & B3).
  destruct (step_in_range w Hr) as (S1 & _).
  rewrite (step_write_ok w Ht Hlt (Ha _)) in *.
  split; [|cbn; repeat split; lia].
  unfold fed; cbn.
  split; [exact Hb|]. split; [exact S1|]. split; [exact Ha|]. split.
  - rewrite concat_app, Hc. cbn. rewrite app_nil_r.
    rewrite B3 at 1. rewrite Hb, take_take_drop. f_equal.
    destruct Hr as (_ & ? & _). lia.
  - apply Forall_app. split; [exact Hf|]. repeat constructor; lia.
Qed.

Lemma feed_completes (data : bytes) (k : nat) (w : t) :
  fed data w -> _thread w = Running ->
  _buffer_len w - _buffer_pos w <= Z.of_nat k ->
  _thread (steps (S k) w) = Returned /\
  has_finished (steps (S k) w) = true /\
  pipe_closed (_stream (steps (S k) w)) = true /\
  bytes_sent (steps (S k) w) = len data /\
  bytes_remaining (steps (S k) w) = 0 /\
  concat (written (_stream (steps (S k) w))) = data /\
  Forall (fun b => 0 < len b <= _max_block_len w) (written (_stream (steps (S k) w))).
Proof.
  revert w. induction k as [|k IH]; intros w Hfed Ht Hk.
  - destruct Hfed as (Hb & Hr & Ha & Hc & Hf).
    destruct Hr as (Hl & Hp & Hm).
    assert (Hpos : _buffer_pos w = _buffer_len w) by lia.
    change (steps 1 w) with (step w). rewrite (step_done w Ht) by lia.
    unfold has_finished, bytes_sent, bytes_remaining; cbn.
    repeat split; try (lia || assumption).
    + rewrite Hpos, Hl, Hb. reflexivity.
    + rewrite Hc, Hpos, Hl, Hb. apply take_ge. unfold len. lia.
  - rewrite writer_steps_S.
    destruct (Z.lt_ge_cases (_buffer_pos w) (_buffer_len w)) as [Hlt|Hge].
    + destruct (fed_step data w Hfed Ht Hlt) as (F1 & F2 & F3 & F4 & F5).
      rewrite <- F5. apply IH; [exact F1|exact F2|lia].
    + destruct Hfed as (Hb & Hr & Ha & Hc & Hf).
      destruct Hr as (Hl & Hp & Hm).
      assert (Hpos : _buffer_pos w = _buffer_len w) by lia.
      rewrite writer_over; rewrite (step_done w Ht) by lia; [|discriminate].
      unfold has_finished, bytes_sent, bytes_remaining; cbn.
      repeat split; try (lia || assumption).
      * rewrite Hpos, Hl, Hb. reflexivity.
      * rewrite Hc, Hpos, Hl, Hb. apply take_ge. unfold len. lia.
Qed.

Lemma init_fed (accept : nat -> option exn) (data : bytes) (debug : bool) :
  (forall k, accept k = None) ->
  fed data (init (fresh_pipe accept) data debug).
Proof.
  intros Ha. unfold fed. split; [reflexivity|].
  split; [apply init_in_range|]. split; [exact Ha|].
  split; [reflexivity|constructor].
Qed.

End WriterFeeds.

(** C7. For every payload, on a pipe whose writes all succeed, the
    writer thread, given at least one loop iteration per byte plus one,
    returns after having written blocks that are each between 1 and
    4096 bytes long and whose concatenation, in the order written, is
    the payload (no byte twice, none skipped); it has then closed the
    pipe, [has_finished] is true, [bytes_sent] is the payload length and
    [bytes_remaining] is 0. *)
Theorem feed_writes_whole_payload (accept : nat -> option exn) (data : bytes)
    (debug : bool) (n : nat) :
  (forall k, accept k = None) ->
  (length data < n)%nat ->
  let w := Writer.steps n (Writer.init (Writer.fresh_pipe accept) data debug) in
  concat (Writer.written (Writer._stream w)) = data /\
  Forall (fun b => 0 < Writer.len b <= 4096) (Writer.written (Writer._stream w)) /\
  Writer.pipe_closed (Writer._stream w) = true /\
  Writer.has_finished w = true /\
  Writer._thread w = Returned /\
  Writer.bytes_sent w = Writer.len data /\
  Writer.bytes_remaining w = 0.
Proof.
  intros Ha Hn w.
  destruct n as [|k]; [lia|].
  destruct (feed_completes data k (Writer.init (Writer.fresh_pipe accept) data debug))
    as (H1 & H2 & H3 & H4 & H5 & H6 & H7).
  - apply init_fed, Ha.
  - reflexivity.
  - unfold Writer.init, Writer.len; cbn. lia.
  - fold w in H1, H2, H3, H4, H5, H6, H7. auto 10.
Qed.

(** C7 at a payload of 4100 bytes, one block of 4096 and one of 4. *)
Lemma feed_writes_whole_payload_witness :
  let w := Writer.steps 4101
             (Writer.init (Writer.fresh_pipe Writer.always_ok)
                          (repeat Byte.x61 4100) false) in
  concat (Writer.written (Writer._stream w)) = repeat Byte.x61 4100 /\
  Forall (fun b => 0 < Writer.len b <= 4096) (Writer.written (Writer._stream w)) /\
  Writer.pipe_closed (Writer._stream w) = true /\
  Writer.has_finished w = true /\
  Writer._thread w = Returned /\
  Writer.bytes_sent w = Writer.len (repeat Byte.x61 4100) /\
  Writer.bytes_remaining w = 0.
Proof.
  apply (feed_writes_whole_payload Writer.always_ok (repeat Byte.x61 4100) false 4101).
  - reflexivity.
  - rewrite repeat_length. apply Nat.lt_succ_diag_r.
Defined.

(** The blocks of that run. *)
Example feed_blocks_4100 :
  map Writer.len
      (Writer.written
         (Writer._stream
            (Writer.steps 3
               (Writer.init (Writer.fresh_pipe Writer.always_ok)
                            (repeat Byte.x61 4100) false))))
  = [4096; 4].
Proof. vm_compute. reflexivity. Qed.

(** C5. When a write of the writer thread fails, then: if the failure
    is an [IOError] with errno 32 (broken pipe) the thread writes
    nothing more, closes its end of the pipe, sets [_terminated] and
    returns without an exception, the position staying where it was, so
    the unsent bytes show only in [bytes_remaining], which is positive;
    if the failure is any other exception, that exception leaves the
    thread function: the pipe is not closed and [_terminated] is not
    set by it. *)
Theorem broken_pipe_ends_feed_quietly (w : Writer.t) (e : exn) :
  Writer._thread w = Running ->
  Writer._buffer_pos w < Writer._buffer_len w ->
  Writer.accept (Writer._stream w) (length (Writer.written (Writer._stream w))) = Some e ->
  (e = IOError 32 ->
     Writer._thread (Writer.step w) = Returned /\
     Writer.has_finished (Writer.step w) = true /\
     Writer.pipe_closed (Writer._stream (Writer.step w)) = true /\
     Writer.written (Writer._stream (Writer.step w)) = Writer.written (Writer._stream w) /\
     Writer.bytes_sent (Writer.step w) = Writer.bytes_sent w /\
     Writer.bytes_remaining (Writer.step w) = Writer.bytes_remaining w /\
     0 < Writer.bytes_remaining (Writer.step w) /\
     forall n, Writer.steps n (Writer.step w) = Writer.step w) /\
  (e <> IOError 32 ->
     Writer._thread (Writer.step w) = Died e /\
     Writer.has_finished (Writer.step w) = Writer.has_finished w /\
     Writer.pipe_closed (Writer._stream (Writer.step w))
       = Writer.pipe_closed (Writer._stream w) /\
     Writer.written (Writer._stream (Writer.step w)) = Writer.written (Writer._stream w) /\
     forall n, Writer.steps n (Writer.step w) = Writer.step w).
Proof.
  intros Ht Hlt Ha. split.
  - intros ->.
    assert (Hs := step_broken_pipe w Ht Hlt Ha).
    split; [rewrite Hs; reflexivity|].
    split; [rewrite Hs; reflexivity|].
    split; [rewrite Hs; reflexivity|].
    split; [rewrite Hs; reflexivity|].
    split; [rewrite Hs; reflexivity|].
    split; [rewrite Hs; reflexivity|].
    split; [rewrite Hs; unfold Writer.bytes_remaining; cbn; lia|].
    intros n. apply writer_over. rewrite Hs. discriminate.
  - intros He.
    assert (Hs := step_write_raises w e Ht Hlt Ha He).
    split; [rewrite Hs; reflexivity|].
    split; [rewrite Hs; reflexivity|].
    split; [rewrite Hs; reflexivity|].
    split; [rewrite Hs; reflexivity|].
    intros n. apply writer_over. rewrite Hs. discriminate.
Qed.

(** C5 on a payload of three bytes whose first write meets a broken pipe. *)
Lemma broken_pipe_ends_feed_quietly_witness :
  let w := Writer.init (Writer.fresh_pipe (breaks_after 0))
                       [Byte.x61; Byte.x62; Byte.x63] false in
  Writer._thread (Writer.step w) = Returned /\
  Writer.has_finished (Writer.step w) = true /\
  Writer.pipe_closed (Writer._stream (Writer.step w)) = true /\
  Writer.written (Writer._stream (Writer.step w)) = Writer.written (Writer._stream w) /\
  Writer.bytes_sent (Writer.step w) = Writer.bytes_sent w /\
  Writer.bytes_remaining (Writer.step w) = Writer.bytes_remaining w /\
  0 < Writer.bytes_remaining (Writer.step w) /\
  forall n, Writer.steps n (Writer.step w) = Writer.step w.
Proof.
  apply (broken_pipe_ends_feed_quietly
           (Writer.init (Writer.fresh_pipe (breaks_after 0))
                        [Byte.x61; Byte.x62; Byte.x63] false)
           (IOError 32)).
  - reflexivity.
  - reflexivity.
  - reflexivity.
  - reflexivity.
Defined.

(** ** The supervisor: rules for [wp] *)

Section WpRules.
Context {A B : Type}.
Implicit Types (Q : A -> state -> Prop) (E : exn -> state -> Prop).

Lemma wp_ret (a : A) Q E s : Q a s -> wp (ret a) Q E s.
Proof. intros H. exact H. Qed.

Lemma wp_raise (e : exn) Q E s : E e s -> wp (raise e : M A) Q E s.
Proof. intros H. exact H. Qed.

Lemma wp_diverge Q E s : wp (diverge : M A) Q E s.
Proof. exact I. Qed.

Lemma wp_bind (m : M B) (k : B -> M A) Q E s :
  wp m (fun b s' => wp (k b) Q E s') E s -> wp (bind m k) Q E s.
Proof.
  unfold wp, bind. destruct (m s) as [b s'|e s'|]; intros H; exact H.
Qed.

Lemma wp_mono (m : M A) Q Q' E E' s :
  wp m Q E s ->
  (forall a s', Q a s' -> Q' a s') ->
  (forall e s', E e s' -> E' e s') ->
  wp m Q' E' s.
Proof.
  unfold wp. destruct (m s) as [a s'|e s'|]; intros H HQ HE; auto.
Qed.

Lemma wp_except (m h : M A) Q E s :
  wp m Q (fun e s' => match e with
                      | KeyboardInterrupt => wp h Q E s'
                      | _ => E e s'
                      end) s ->
  wp (except_KeyboardInterrupt m h) Q E s.
Proof.
  unfold wp, except_KeyboardInterrupt.
  destruct (m s) as [a s'|e s'|]; intros H; try exact H.
  destruct e; exact H.
Qed.

End WpRules.

Section WpPrimitives.
Implicit Types (E : exn -> state -> Prop) (w : world) (c : child).

Lemma wp_when (b : bool) (m : M unit) (Q : unit -> state -> Prop) E s :
  (b = true -> wp m Q E s) -> (b = false -> Q tt s) -> wp (when b m) Q E s.
Proof. destruct b; intros H1 H2; [apply H1|apply H2]; reflexivity. Qed.

(** An interruptible operation: the interrupt leaves the state as it is. *)
Lemma wp_interruptible {A} (m : M A) (Q : A -> state -> Prop) E s :
  (pending s -> E KeyboardInterrupt s) -> wp m Q E s -> wp (interruptible m) Q E s.
Proof.
  unfold wp, interruptible, pending. intros HE Hm.
  destruct (ctrl_c (os s.1) (progress s.1)); [apply HE; reflexivity|exact Hm].
Qed.

Lemma wp_default_timer (Q : Z -> state -> Prop) E s :
  (pending s -> E KeyboardInterrupt s) -> Q (clock s.1) s -> wp default_timer Q E s.
Proof. intros HE H. apply wp_interruptible; [exact HE|exact H]. Qed.

Lemma wp_get_returncode (Q : option Z -> state -> Prop) E s :
  (pending s -> E KeyboardInterrupt s) -> Q (returncode s.2) s ->
  wp get_returncode Q E s.
Proof. intros HE H. apply wp_interruptible; [exact HE|exact H]. Qed.

Lemma wp_get_stdin (Q : option Writer.t -> state -> Prop) E s :
  Q (stdin s.2) s -> wp get_stdin Q E s.
Proof. intros H. exact H. Qed.

Lemma wp_read_max_time (mt : option Z) (Q : Z -> state -> Prop) E s :
  (forall m, mt = Some m -> Q m s) ->
  (mt = None -> E (UnboundLocalError "max_time") s) ->
  wp (read_max_time mt) Q E s.
Proof. destruct mt as [m|]; intros H1 H2; [apply H1|apply H2]; reflexivity. Qed.

Lemma wp_print (m : message) (Q : unit -> state -> Prop) E w c :
  (pending (w, c) -> E KeyboardInterrupt (w, c)) ->
  Q tt (log (Print m) w, c) -> wp (print m) Q E (w, c).
Proof. intros HE H. apply wp_interruptible; [exact HE|exact H]. Qed.

Lemma wp_sleep (d : Z) (Q : unit -> state -> Prop) E w c :
  (interrupted (os w) (naps w) = true ->
   E KeyboardInterrupt
     (advance (Z.min d (Z.of_N (lag (os w) (naps w)))) (log (Sleep d) w), c)) ->
  (interrupted (os w) (naps w) = false ->
   Q tt (advance (d + Z.of_N (lag (os w) (naps w))) (log (Sleep d) w), c)) ->
  wp (sleep d) Q E (w, c).
Proof.
  unfold wp, sleep. destruct (interrupted (os w) (naps w)); intros H1 H2;
    [apply H1|apply H2]; reflexivity.
Qed.

Lemma wp_poll (Q : unit -> state -> Prop) E w c :
  (pending (w, c) -> E KeyboardInterrupt (w, c)) ->
  (forall rc,
     rc = match returncode c with
          | Some x => Some x
          | None => status (os w) (sent w) (clock w)
          end ->
     Q tt (log (Poll rc) w, mk_child rc (stdout c) (stderr c) (stdin c))) ->
  wp poll Q E (w, c).
Proof. intros HE H. apply wp_interruptible; [exact HE|]. apply H. reflexivity. Qed.

Lemma wp_terminate (Q : unit -> state -> Prop) E w c :
  (pending (w, c) -> E KeyboardInterrupt (w, c)) ->
  Q tt (log Terminate (deliver SIGTERM w), c) -> wp terminate Q E (w, c).
Proof. intros HE H. apply wp_interruptible; [exact HE|exact H]. Qed.

Lemma wp_kill (Q : unit -> state -> Prop) E w c :
  (pending (w, c) -> E KeyboardInterrupt (w, c)) ->
  Q tt (log Kill (deliver SIGKILL w), c) -> wp kill Q E (w, c).
Proof. intros HE H. apply wp_interruptible; [exact HE|exact H]. Qed.

Lemma wp_yield (Q : unit -> state -> Prop) E w c :
  Q tt (yielded w c) -> wp yield Q E (w, c).
Proof.
  unfold wp, yield, yielded.
  destruct (schedule (os w) (turns w)) as [[a b] n]. intros H. exact H.
Qed.

End WpPrimitives.

(** ** The supervisor: the frame *)

Lemma writer_steps_add (n m : nat) (f : Writer.t) :
  Writer.steps (n + m) f = Writer.steps m (Writer.steps n f).
Proof.
  revert f. induction n as [|n IH]; intros f; [reflexivity|].
  rewrite Nat.add_succ_l, !writer_steps_S. apply IH.
Qed.

Lemma writer_evolves_refl (a : option Writer.t) : writer_evolves a a.
Proof. destruct a; cbn; [exists 0%nat; reflexivity|exact I]. Qed.

Lemma writer_evolves_trans (a b c : option Writer.t) :
  writer_evolves a b -> writer_evolves b c -> writer_evolves a c.
Proof.
  destruct a, b, c; cbn; try tauto.
  intros [n ->] [m ->]. exists (n + m)%nat. symmetry. apply writer_steps_add.
Qed.

Lemma writer_evolves_steps (n : nat) (a : option Writer.t) :
  writer_evolves a (option_map (Writer.steps n) a).
Proof. destruct a; cbn; [exists n; reflexivity|exact I]. Qed.

Lemma evolves_refl (s : state) : evolves s s.
Proof.
  constructor; try reflexivity; try lia; auto.
  - exists []. symmetry. apply app_nil_r.
  - exists []. symmetry. apply app_nil_r.
  - exists 0%nat. reflexivity.
  - exists 0%nat. reflexivity.
  - apply writer_evolves_refl.
Qed.

Lemma evolves_trans (s1 s2 s3 : state) :
  evolves s1 s2 -> evolves s2 s3 -> evolves s1 s3.
Proof.
  intros [a1 a2 a3 [e1 a4] [g1 a5] a6 [n1 a7] [m1 a8] a9]
         [b1 b2 b3 [e2 b4] [g2 b5] b6 [n2 b7] [m2 b8] b9].
  constructor; try congruence; try lia; auto.
  - exists (e1 ++ e2). rewrite b4, a4. symmetry. apply app_assoc.
  - exists (g1 ++ g2). rewrite b5, a5. symmetry. apply app_assoc.
  - exists (n1 + n2)%nat. rewrite b7, a7. symmetry. apply reader_steps_add.
  - exists (m1 + m2)%nat. rewrite b8, a8. symmetry. apply reader_steps_add.
  - eapply writer_evolves_trans; eassumption.
Qed.

(** Pieces of [evolves] for the changes the primitives make. *)
Lemma evolves_world (w w' : world) (c : child) :
  os w' = os w -> dummy w' = dummy w -> clock w <= clock w' ->
  (exists evs, trace w' = trace w ++ evs) ->
  (exists sg, sent w' = sent w ++ sg) ->
  evolves (w, c) (w', c).
Proof.
  intros. constructor; cbn; auto.
  - exists 0%nat. reflexivity.
  - exists 0%nat. reflexivity.
  - apply writer_evolves_refl.
Qed.

Lemma evolves_log (e : event) (w : world) (c : child) :
  evolves (w, c) (log e w, c).
Proof.
  apply evolves_world; cbn; try reflexivity; try lia.
  - exists [e]. reflexivity.
  - exists []. symmetry. apply app_nil_r.
Qed.

Lemma evolves_advance (d : Z) (w : world) (c : child) :
  0 <= d -> evolves (w, c) (advance d w, c).
Proof.
  intros Hd. apply evolves_world; cbn; try reflexivity; try lia.
  - exists []. symmetry. apply app_nil_r.
  - exists []. symmetry. apply app_nil_r.
Qed.

Lemma evolves_deliver (sg : signal) (w : world) (c : child) :
  evolves (w, c) (deliver sg w, c).
Proof.
  apply evolves_world; cbn; try reflexivity; try lia.
  - exists []. symmetry. apply app_nil_r.
  - exists [(clock w, sg)]. reflexivity.
Qed.

Lemma evolves_yielded (w : world) (c : child) : evolves (w, c) (yielded w c).
Proof.
  unfold yielded. constructor; cbn; try reflexivity; try lia; auto.
  - exists []. symmetry. apply app_nil_r.
  - exists []. symmetry. apply app_nil_r.
  - eexists. reflexivity.
  - eexists. reflexivity.
  - apply writer_evolves_steps.
Qed.

Lemma evolves_polled (rc : option Z) (w : world) (c : child) :
  (forall x, returncode c = Some x -> rc = Some x) ->
  evolves (w, c) (log (Poll rc) w, mk_child rc (stdout c) (stderr c) (stdin c)).
Proof.
  intros H. constructor; cbn; try reflexivity; try lia; auto.
  - exists [Poll rc]. reflexivity.
  - exists []. symmetry. apply app_nil_r.
  - exists 0%nat. reflexivity.
  - exists 0%nat. reflexivity.
  - apply writer_evolves_refl.
Qed.

Section Framed.
Context {A B : Type}.

Lemma framed_ret (a : A) : framed (ret a).
Proof. intros s. apply wp_ret, evolves_refl. Qed.

Lemma framed_raise (e : exn) : framed (raise e : M A).
Proof. intros s. apply wp_raise, evolves_refl. Qed.

Lemma framed_diverge : framed (diverge : M A).
Proof. intros s. exact I. Qed.

Lemma framed_bind (m : M B) (k : B -> M A) :
  framed m -> (forall b, framed (k b)) -> framed (bind m k).
Proof.
  intros Hm Hk s. apply wp_bind.
  eapply wp_mono; [apply Hm| |auto].
  intros b s1 H1. cbn beta in *.
  eapply wp_mono; [apply Hk| |]; intros; cbn beta in *;
    eapply evolves_trans; eassumption.
Qed.

Lemma framed_except (m h : M A) :
  framed m -> framed h -> framed (except_KeyboardInterrupt m h).
Proof.
  intros Hm Hh s. apply wp_except.
  eapply wp_mono; [apply Hm|auto|].
  intros e s1 H1. cbn beta in *.
  destruct e; try exact H1.
  eapply wp_mono; [apply Hh| |]; intros; cbn beta in *;
    eapply evolves_trans; eassumption.
Qed.

End Framed.

Lemma framed_when (b : bool) (m : M unit) : framed m -> framed (when b m).
Proof. intros H. destruct b; [exact H|apply framed_ret]. Qed.

Lemma framed_interruptible {A} (m : M A) : framed m -> framed (interruptible m).
Proof.
  intros H s. apply wp_interruptible; [intros _; apply evolves_refl|apply H].
Qed.

Lemma framed_read {A} (f : state -> A) : framed (fun s => Ok (f s) s).
Proof. intros s. apply evolves_refl. Qed.

Lemma framed_default_timer : framed default_timer.
Proof. apply framed_interruptible, framed_read. Qed.

Lemma framed_get_returncode : framed get_returncode.
Proof. apply framed_interruptible, framed_read. Qed.

Lemma framed_read_max_time (mt : option Z) : framed (read_max_time mt).
Proof. destruct mt; [apply framed_ret|apply framed_raise]. Qed.

Lemma framed_print (m : message) : framed (print m).
Proof.
  intros [w c]. apply wp_print; [intros _; apply evolves_refl|apply evolves_log].
Qed.

Lemma framed_sleep (d : Z) : 0 <= d -> framed (sleep d).
Proof.
  intros Hd [w c]. apply wp_sleep; intros _.
  - eapply evolves_trans; [apply evolves_log|apply evolves_advance; lia].
  - eapply evolves_trans; [apply evolves_log|apply evolves_advance; lia].
Qed.

Lemma framed_poll : framed poll.
Proof.
  intros [w c]. apply wp_poll; [intros _; apply evolves_refl|].
  intros rc ->. apply evolves_polled.
  intros x ->. reflexivity.
Qed.

Lemma framed_terminate : framed terminate.
Proof.
  intros [w c]. apply wp_terminate; [intros _; apply evolves_refl|].
  eapply evolves_trans; [apply evolves_deliver|apply evolves_log].
Qed.

Lemma framed_kill : framed kill.
Proof.
  intros [w c]. apply wp_kill; [intros _; apply evolves_refl|].
  eapply evolves_trans; [apply evolves_deliver|apply evolves_log].
Qed.

Lemma framed_yield : framed yield.
Proof. intros [w c]. apply wp_yield, evolves_yielded. Qed.

Lemma framed_stdout_has_finished : framed stdout_has_finished.
Proof.
  apply framed_interruptible, framed_bind; [apply framed_yield|].
  intros _. apply framed_read.
Qed.

Lemma framed_stderr_has_finished : framed stderr_has_finished.
Proof.
  apply framed_interruptible, framed_bind; [apply framed_yield|].
  intros _. apply framed_read.
Qed.

Lemma framed_drains_unfinished : framed drains_unfinished.
Proof.
  apply framed_bind; [apply framed_stdout_has_finished|].
  intros a. destruct a; cbn.
  - apply framed_bind; [apply framed_stderr_has_finished|].
    intros b. apply framed_ret.
  - apply framed_ret.
Qed.

Lemma framed_still_waiting (timeout mt : option Z) :
  framed (still_waiting timeout mt).
Proof.
  apply framed_bind; [apply framed_get_returncode|].
  intros [x|]; [apply framed_ret|].
  destruct timeout; [|apply framed_ret].
  apply framed_bind; [apply framed_default_timer|]. intros t.
  apply framed_bind; [apply framed_read_max_time|]. intros m.
  apply framed_ret.
Qed.

Lemma framed_poll_once (timeout mt : option Z) (debug : bool) :
  framed (poll_once timeout mt debug).
Proof.
  apply framed_bind.
  { apply framed_when.
    apply framed_bind; [apply framed_default_timer|]. intros t.
    apply framed_bind; [apply framed_read_max_time|]. intros m.
    apply framed_print. }
  intros _. apply framed_bind.
  { apply framed_except; [apply framed_sleep; lia|].
    apply framed_bind; [apply framed_kill|]. intros _. apply framed_raise. }
  intros _. apply framed_poll.
Qed.

Lemma framed_poll_loop (fuel : nat) (timeout mt : option Z) (debug : bool) :
  framed (poll_loop fuel timeout mt debug).
Proof.
  induction fuel as [|fuel IH]; cbn [poll_loop].
  - apply framed_bind; [apply framed_still_waiting|].
    intros [|]; [apply framed_diverge|apply framed_ret].
  - apply framed_bind; [apply framed_still_waiting|].
    intros [|]; [|apply framed_ret].
    apply framed_bind; [apply framed_poll_once|]. intros _. exact IH.
Qed.

Lemma framed_terminate_stage (mt : option Z) (debug : bool) :
  framed (terminate_stage mt debug).
Proof.
  apply framed_bind; [apply framed_get_returncode|].
  intros [x|]; [apply framed_ret|].
  apply framed_bind.
  { apply framed_when.
    apply framed_bind; [apply framed_default_timer|]. intros t.
    apply framed_bind; [apply framed_read_max_time|]. intros m.
    apply framed_print. }
  intros _. apply framed_bind; [apply framed_terminate|].
  intros _. apply framed_bind; [apply framed_sleep; lia|].
  intros _. apply framed_bind; [apply framed_drains_unfinished|].
  intros u. apply framed_bind; [apply framed_when, framed_sleep; lia|].
  intros _. apply framed_bind; [apply framed_poll|].
  intros _. apply framed_ret.
Qed.

Lemma framed_kill_stage : framed kill_stage.
Proof.
  apply framed_bind; [apply framed_get_returncode|].
  intros [x|]; [apply framed_ret|].
  apply framed_bind; [apply framed_kill|].
  intros _. apply framed_bind; [apply framed_sleep; lia|].
  intros _. apply framed_bind; [apply framed_drains_unfinished|].
  intros u. apply framed_bind; [apply framed_when, framed_sleep; lia|].
  intros _. apply framed_poll.
Qed.

(** ** The supervisor: the polling loop *)

Lemma quiet_nil : quiet [].
Proof. split; apply not_elem_of_nil. Qed.

Lemma quiet_app (a b : list event) : quiet a -> quiet b -> quiet (a ++ b).
Proof.
  intros [A1 A2] [B1 B2]. split; rewrite elem_of_app; tauto.
Qed.

Lemma quiet_cons (e : event) (a : list event) :
  e <> Terminate -> e <> Kill -> quiet a -> quiet (e :: a).
Proof.
  intros H1 H2 [A1 A2]. split; rewrite elem_of_cons; intros [?|?]; congruence.
Qed.

Create HintDb quiet.
#[local] Hint Resolve quiet_nil quiet_app quiet_cons : quiet.

(** Ctrl+C outside a sleep, where the supervisor is. *)
Lemma aborted_here (s : state) : pending s -> aborted s s KeyboardInterrupt.
Proof.
  intros Hp. split; [reflexivity|]. split; [exact Hp|].
  split; [reflexivity|]. split; [reflexivity|].
  exists []. rewrite app_nil_r. auto with quiet.
Qed.

Lemma aborted_after (s s1 s' : state) (e : exn) :
  sent s1.1 = sent s.1 -> os s1.1 = os s.1 ->
  (exists evs, trace s1.1 = trace s.1 ++ evs /\ quiet evs) ->
  aborted s1 s' e -> aborted s s' e.
Proof.
  intros H1 H2 (ev1 & H3 & H4) (-> & A1 & A2 & A3 & ev2 & A4 & A5).
  split; [reflexivity|]. split; [exact A1|].
  split; [congruence|]. split; [congruence|].
  exists (ev1 ++ ev2). rewrite A4, H3, <- app_assoc. auto with quiet.
Qed.

(** The same, the supervisor having logged [evs] since [(w, c)]. *)
Lemma aborted_at (w w' : world) (c c' : child) (evs : list event) :
  pending (w', c') -> sent w' = sent w -> os w' = os w ->
  trace w' = trace w ++ evs -> quiet evs ->
  aborted (w, c) (w', c') KeyboardInterrupt.
Proof.
  intros Hp H1 H2 H3 H4. split; [reflexivity|]. split; [exact Hp|].
  split; [exact H1|]. split; [exact H2|]. exists evs. auto.
Qed.

Lemma wp_still_waiting (timeout mt : option Z) (s : state) :
  (timeout = None <-> mt = None) ->
  wp (still_waiting timeout mt)
     (fun b s' =>
        s' = s /\
        ((b = false /\
          (returncode s.2 <> None \/ exists m, mt = Some m /\ m <= clock s.1)) \/
         (b = true /\ returncode s.2 = None /\
          forall m, mt = Some m -> clock s.1 < m)))
     (fun e s' => e = KeyboardInterrupt /\ s' = s /\ pending s) s.
Proof.
  intros Hm. unfold still_waiting.
  apply wp_bind, wp_get_returncode; [auto|].
  destruct (returncode s.2) as [x|] eqn:Hrc.
  - apply (wp_ret (A := bool)).
    split; [reflexivity|]. left. split; [reflexivity|]. left. discriminate.
  - destruct timeout as [t|].
    + apply wp_bind, wp_default_timer; [auto|].
      apply wp_bind, wp_read_max_time.
      * intros m ->. apply (wp_ret (A := bool)). split; [reflexivity|].
        destruct (Z.ltb_spec (clock s.1) m).
        -- right. repeat split; auto. intros m' [= <-]. assumption.
        -- left. split; [reflexivity|]. right. exists m. auto.
      * intros ->. destruct Hm as [_ Hm]. discriminate (Hm eq_refl).
    + apply (wp_ret (A := bool)). split; [reflexivity|]. right. repeat split; auto.
      intros m ->. destruct Hm as [Hm _]. discriminate (Hm eq_refl).
Qed.

(** The sleep of the loop, guarded against Ctrl+C, and the poll after it. *)
Lemma wp_nap_and_poll (w : world) (c : child) :
  returncode c = None ->
  wp (except_KeyboardInterrupt (sleep 500) (kill ;; raise KeyboardInterrupt) ;; poll)
     (fun _ s' =>
        sent s'.1 = sent w /\ os s'.1 = os w /\
        trace s'.1 = trace w ++ [Sleep 500; Poll (returncode s'.2)] /\
        clock s'.1 = clock w + 500 + Z.of_N (lag (os w) (naps w)) /\
        returncode s'.2 = status (os w) (sent w) (clock s'.1) /\
        interrupted (os w) (naps w) = false)
     (fun e s' =>
        (e = KeyboardInterrupt /\
         trace s'.1 = trace w ++ [Sleep 500; Kill] /\
         (exists T, sent s'.1 = sent w ++ [(T, SIGKILL)]) /\
         os s'.1 = os w /\
         interrupted (os w) (pred (naps s'.1)) = true) \/
        (e = KeyboardInterrupt /\ pending s' /\
         sent s'.1 = sent w /\ os s'.1 = os w /\
         trace s'.1 = trace w ++ [Sleep 500]))
     (w, c).
Proof.
  intros Hrc. apply wp_bind, wp_except, wp_sleep; intros Hi.
  - apply wp_bind, wp_kill.
    + intros Hp. right. cbn. auto.
    + apply wp_raise. left. cbn.
      split; [reflexivity|]. split; [rewrite <- app_assoc; reflexivity|].
      split; [eexists; reflexivity|]. split; [reflexivity|exact Hi].
  - apply wp_poll.
    + intros Hp. right. cbn. auto.
    + intros rc ->. rewrite Hrc. cbn.
      split; [reflexivity|]. split; [reflexivity|].
      split; [rewrite <- app_assoc; reflexivity|]. split; [lia|].
      split; [reflexivity|exact Hi].
Qed.

Lemma wp_poll_once (timeout mt : option Z) (debug : bool) (w : world) (c : child) :
  (timeout = None <-> mt = None) ->
  returncode c = None ->
  wp (poll_once timeout mt debug)
     (fun _ s' =>
        sent s'.1 = sent w /\ os s'.1 = os w /\
        (exists evs, trace s'.1 = trace w ++ evs /\ quiet evs) /\
        clock s'.1 = clock w + 500 + Z.of_N (lag (os w) (naps w)) /\
        returncode s'.2 = status (os w) (sent w) (clock s'.1) /\
        interrupted (os w) (naps w) = false)
     (fun e s' => loop_interrupted (w, c) s' e \/ aborted (w, c) s' e)
     (w, c).
Proof.
  intros Hm Hrc. unfold poll_once. apply wp_bind, wp_when.
  - intros Hb. apply andb_true_iff in Hb as [_ Hb]. apply bool_decide_eq_true in Hb.
    apply wp_bind, wp_default_timer; [intros Hp; right; apply aborted_here, Hp|].
    apply wp_bind, wp_read_max_time.
    + intros m _. apply wp_print; [intros Hp; right; apply aborted_here, Hp|].
      eapply wp_mono; [apply (wp_nap_and_poll _ c Hrc)| |]; cbn.
      * intros _ s' (H1 & H2 & H3 & H4 & H5 & H6).
        repeat split; try assumption.
        eexists. rewrite H3, <- app_assoc. split; [reflexivity|].
        cbn. auto 10 with quiet.
      * intros e s' [(H1 & H2 & H3 & H4 & H5)|(-> & H1 & H2 & H3 & H4)].
        -- left. split; [exact H1|]. split; [|auto].
           exists [Print (StillRunning (clock w - m))].
           rewrite H2, <- !app_assoc. split; [reflexivity|]. auto with quiet.
        -- right. destruct s' as [w' c'].
           apply (aborted_at w w' c c' [Print (StillRunning (clock w - m)); Sleep 500]);
             auto.
           ++ cbn in *. rewrite H4, <- app_assoc. reflexivity.
           ++ auto 10 with quiet.
    + intros Hn. apply Hm in Hn. contradiction.
  - intros _.
    eapply wp_mono; [apply (wp_nap_and_poll w c Hrc)| |]; cbn.
    + intros _ s' (H1 & H2 & H3 & H4 & H5 & H6).
      repeat split; try assumption.
      eexists. split; [exact H3|]. auto 10 with quiet.
    + intros e s' [(H1 & H2 & H3 & H4 & H5)|(-> & H1 & H2 & H3 & H4)].
      * left. split; [exact H1|]. split; [|auto].
        exists []. split; [exact H2|]. auto with quiet.
      * right. destruct s' as [w' c'].
        apply (aborted_at w w' c c' [Sleep 500]); auto with quiet.
Qed.

Lemma loop_over_now (mt : option Z) (s : state) :
  (returncode s.2 <> None \/ exists m, mt = Some m /\ m <= clock s.1) ->
  loop_over mt s s.
Proof.
  intros H. unfold loop_over.
  split; [reflexivity|]. split; [reflexivity|]. split; [lia|].
  split; [exists []; rewrite app_nil_r; auto with quiet|].
  split; [reflexivity|].
  destruct (returncode s.2) as [x|] eqn:Hrc; [left; reflexivity|].
  destruct H as [H|(m & H1 & H2)]; [congruence|].
  exists m. auto.
Qed.

Lemma wp_poll_loop (fuel : nat) (timeout mt : option Z) (debug : bool) (s : state) :
  (timeout = None <-> mt = None) ->
  wp (poll_loop fuel timeout mt debug)
     (fun _ s' => loop_over mt s s')
     (fun e s' => loop_interrupted s s' e \/ aborted s s' e) s.
Proof.
  intros Hm. revert s. induction fuel as [|fuel IH]; intros s; cbn [poll_loop].
  - apply wp_bind.
    eapply wp_mono; [apply (wp_still_waiting timeout mt s Hm)| |].
    2:{ intros e s' (-> & -> & Hp). right. apply aborted_here, Hp. }
    intros b s' [-> [[-> H]|[-> H]]]; cbv beta iota.
    + apply wp_ret, loop_over_now, H.
    + apply wp_diverge.
  - apply wp_bind.
    eapply wp_mono; [apply (wp_still_waiting timeout mt s Hm)| |].
    2:{ intros e s' (-> & -> & Hp). right. apply aborted_here, Hp. }
    intros b s' [-> [[-> H]|[-> [Hrc Hdl]]]]; cbv beta iota.
    + apply wp_ret, loop_over_now, H.
    + destruct s as [w c]. cbn in Hrc, Hdl. apply wp_bind.
      eapply wp_mono; [apply (wp_poll_once timeout mt debug w c Hm Hrc)| |].
      * intros _ s1 (H1 & H2 & (ev1 & H3 & H3') & H4 & H5 & _). cbn beta.
        eapply wp_mono; [apply IH| |].
        -- intros _ s' (J1 & J2 & J3 & (ev2 & J4 & J4') & J5 & J6).
           unfold loop_over; cbn [fst snd].
           split; [congruence|]. split; [congruence|]. split; [lia|].
           split.
           { exists (ev1 ++ ev2). rewrite J4, H3, <- app_assoc.
             auto with quiet. }
           split; [intros x; rewrite Hrc; discriminate|].
           rewrite H1, H2 in J6.
           destruct (returncode s'.2) as [code|] eqn:Hrc'.
           ++ right. destruct J6 as [J6|(T0 & k & K1 & K2 & K3 & K4)].
              ** assert (s' = s1) as -> by (eapply J5; eassumption).
                 exists (clock w), (naps w). repeat split; try lia; auto.
                 rewrite <- H5. exact J6.
              ** exists T0, k. repeat split; try lia; auto.
           ++ destruct J6 as (m & K1 & K2 & K3). exists m.
              split; [exact K1|]. split; [exact K2|]. right.
              destruct K3 as [K3|K3]; [|exact K3].
              destruct (returncode s1.2) as [x|] eqn:Hrc1.
              ** rewrite (J5 x eq_refl) in Hrc'. congruence.
              ** rewrite K3, <- H5. reflexivity.
        -- intros e s' [(J1 & (ev2 & J2 & J2') & (T & J3) & J4 & J5)|J].
           ++ left. unfold loop_interrupted; cbn [fst snd].
              split; [exact J1|]. split.
              { exists (ev1 ++ ev2). rewrite J2, H3, <- !app_assoc.
                auto with quiet. }
              split; [exists T; congruence|]. split; [congruence|].
              rewrite <- H2. exact J5.
           ++ right. apply (aborted_after (w, c) s1 s' e); eauto.
      * intros e s' H. exact H.
Qed.

(** ** The supervisor: the two stages of the shutdown *)

Lemma rested_refl (s : state) : rested s s.
Proof.
  unfold rested. repeat split; try lia.
  exists []. rewrite app_nil_r. auto with quiet.
Qed.

Lemma rested_trans (s1 s2 s3 : state) :
  rested s1 s2 -> rested s2 s3 -> rested s1 s3.
Proof.
  intros (A1 & A2 & A3 & A4 & e1 & A5 & A6) (B1 & B2 & B3 & B4 & e2 & B5 & B6).
  unfold rested. repeat split; try congruence; try lia.
  exists (e1 ++ e2). rewrite B5, A5, <- app_assoc. auto with quiet.
Qed.

Lemma rested_yielded (w : world) (c : child) : rested (w, c) (yielded w c).
Proof.
  unfold rested, yielded; cbn. repeat split; try lia.
  exists []. rewrite app_nil_r. auto with quiet.
Qed.

Lemma wp_drains_unfinished (s : state) :
  wp drains_unfinished
     (fun _ s' => rested s s')
     (fun e s' => e = KeyboardInterrupt /\ pending s' /\ rested s s') s.
Proof.
  destruct s as [w c]. unfold drains_unfinished, stdout_has_finished.
  apply wp_bind, wp_interruptible.
  { intros Hp. split; [reflexivity|]. split; [exact Hp|apply rested_refl]. }
  apply wp_bind, wp_yield. cbv beta.
  unfold wp at 1. cbv beta iota.
  destruct (negb _).
  - apply (wp_ret (A := bool)), rested_yielded.
  - unfold stderr_has_finished. apply wp_bind, wp_interruptible.
    { intros Hp. split; [reflexivity|]. split; [exact Hp|apply rested_yielded]. }
    apply wp_bind.
    destruct (yielded w c) as [w1 c1] eqn:Hy.
    apply wp_yield. cbv beta. unfold wp at 1. cbv beta iota.
    apply (wp_ret (A := bool)). eapply rested_trans; [|apply rested_yielded].
    rewrite <- Hy. apply rested_yielded.
Qed.

Lemma wp_sleep_rested (d : Z) (s : state) :
  0 <= d ->
  wp (sleep d)
     (fun _ s' => rested s s')
     (fun e s' => e = KeyboardInterrupt /\ rested s s' /\
                  interrupted (os s.1) (pred (naps s'.1)) = true) s.
Proof.
  intros Hd. destruct s as [w c]. apply wp_sleep; intros Hi.
  - split; [reflexivity|]. split; [|exact Hi].
    unfold rested; cbn. repeat split; try lia.
    exists [Sleep d]. auto with quiet.
  - unfold rested; cbn. repeat split; try lia.
    exists [Sleep d]. auto with quiet.
Qed.

(** The wait that follows a signal: a sleep, a longer one if a reader
    has not finished, then the rest [k] of the stage.  Ctrl+C can end it
    during a sleep or at a look at the readers. *)
Lemma wp_grace {A} (d : Z) (k : M A) (Q : A -> state -> Prop)
    (E : exn -> state -> Prop) (s : state) :
  0 <= d ->
  (forall s', rested s s' -> wp k Q E s') ->
  (forall s', rested s s' ->
              interrupted (os s.1) (pred (naps s'.1)) = true \/ pending s' ->
              E KeyboardInterrupt s') ->
  wp (sleep 500 ;; u <- drains_unfinished ;; when u (sleep d) ;; k) Q E s.
Proof.
  intros Hd Hk HE. apply wp_bind.
  eapply wp_mono; [apply wp_sleep_rested; lia| |].
  - intros ? s1 H1. cbv beta in *. apply wp_bind.
    eapply wp_mono; [apply wp_drains_unfinished| |].
    2:{ intros e s2 (-> & Hp & H2). apply HE; [eauto using rested_trans|].
        right. exact Hp. }
    intros u s2 H2. cbv beta in *. apply wp_bind, wp_when.
    + intros _. eapply wp_mono; [apply wp_sleep_rested; lia| |].
      * intros ? s3 H3. cbv beta in *. apply Hk.
        eauto using rested_trans.
      * intros e s3 (-> & H3 & H4). apply HE; [eauto using rested_trans|].
        assert (O1 : os s1.1 = os s.1) by apply H1.
        assert (O2 : os s2.1 = os s1.1) by apply H2.
        left. rewrite <- O1, <- O2. exact H4.
    + intros _. apply Hk. eauto using rested_trans.
  - intros e s1 (-> & H1 & H2). apply HE; auto.
Qed.

Lemma wp_kill_stage (s : state) :
  wp kill_stage
     (fun _ s' =>
        match returncode s.2 with
        | Some _ => s' = s
        | None => escalated SIGKILL Kill s s'
        end)
     (fun e s' =>
        aborted s s' e \/
        (returncode s.2 = None /\ e = KeyboardInterrupt /\
         stage_interrupted Kill s s')) s.
Proof.
  unfold kill_stage.
  apply wp_bind, wp_get_returncode; [intros Hp; left; apply aborted_here, Hp|].
  destruct (returncode s.2) as [x|] eqn:Hrc; [apply (wp_ret (A := unit)); reflexivity|].
  destruct s as [w c].
  apply wp_bind, wp_kill; [intros Hp; left; apply aborted_here, Hp|].
  apply wp_grace; [lia| |].
  - intros [w1 c1] (H1 & H2 & H3 & H4 & evs & H5 & H6).
    cbn in H1, H2, H3, H4, H5.
    apply wp_poll.
    + intros Hp. right. split; [reflexivity|]. split; [reflexivity|].
      unfold stage_interrupted; cbn. split; [congruence|]. split; [|right; exact Hp].
      exists [], evs. rewrite H5, <- !app_assoc. auto with quiet.
    + intros rc _. unfold escalated; cbn.
      split; [congruence|]. split; [congruence|].
      exists [], evs. rewrite H5, <- !app_assoc. auto with quiet.
  - intros [w1 c1] (H1 & H2 & H3 & H4 & evs & H5 & H6) Hi.
    cbn in H1, H2, H3, H4, H5, Hi |- *.
    right. split; [reflexivity|]. split; [reflexivity|].
    unfold stage_interrupted; cbn. split; [congruence|]. split; [|exact Hi].
    exists [], evs. rewrite H5, <- !app_assoc. auto with quiet.
Qed.

Lemma wp_terminate_stage (mt : option Z) (debug : bool) (s : state) :
  wp (terminate_stage mt debug)
     (fun b s' =>
        match returncode s.2 with
        | Some _ => b = false /\ s' = s
        | None => b = true /\ escalated SIGTERM Terminate s s'
        end)
     (fun e s' =>
        aborted s s' e \/
        (returncode s.2 = None /\
         ((e = KeyboardInterrupt /\ stage_interrupted Terminate s s') \/
          (e = UnboundLocalError "max_time" /\ debug = true /\ mt = None /\ s' = s))))
     s.
Proof.
  unfold terminate_stage.
  apply wp_bind, wp_get_returncode; [intros Hp; left; apply aborted_here, Hp|].
  destruct (returncode s.2) as [x|] eqn:Hrc; [apply (wp_ret (A := bool)); auto|].
  destruct s as [w c]. cbn in Hrc.
  assert (Hgo : forall pre, quiet pre ->
            wp (terminate ;; sleep 500 ;; u <- drains_unfinished ;;
                when u (sleep 2000) ;; poll ;; ret true)
               (fun b s' => b = true /\
                  sent s'.1 = sent w ++ [(clock w, SIGTERM)] /\ os s'.1 = os w /\
                  exists evs2,
                    trace s'.1 = trace w ++ pre ++ [Terminate] ++ evs2
                                 ++ [Poll (returncode s'.2)] /\
                    quiet evs2)
               (fun e s' =>
                  aborted (w, c) s' e \/
                  (e = KeyboardInterrupt /\ os s'.1 = os w /\
                   (exists evs2, trace s'.1 = trace w ++ pre ++ [Terminate] ++ evs2 /\
                                 quiet evs2) /\
                   (interrupted (os w) (pred (naps s'.1)) = true \/ pending s')))
               (mk_world (dummy w) (os w) (clock w) (naps w) (turns w) (sent w)
                         (trace w ++ pre), c)).
  { intros pre Hpre. apply wp_bind, wp_terminate.
    { intros Hp. left. eapply aborted_at; [exact Hp|reflexivity..|exact Hpre]. }
    apply wp_grace; [lia| |].
    - intros [w1 c1] (H1 & H2 & H3 & H4 & evs & H5 & H6).
      cbn in H1, H2, H3, H4, H5.
      apply wp_bind, wp_poll.
      + intros Hp. right. cbn. split; [reflexivity|]. split; [congruence|].
        split; [|right; exact Hp].
        exists evs. rewrite H5, <- !app_assoc. auto.
      + intros rc _. apply (wp_ret (A := bool)). cbn.
        split; [reflexivity|]. split; [congruence|]. split; [congruence|].
        exists evs. rewrite H5, <- !app_assoc. auto.
    - intros [w1 c1] (H1 & H2 & H3 & H4 & evs & H5 & H6) Hi.
      cbn in H1, H2, H3, H4, H5, Hi |- *.
      right. split; [reflexivity|]. split; [congruence|]. split; [|exact Hi].
      exists evs. rewrite H5, <- !app_assoc. auto. }
  assert (Hout : forall pre e s',
            quiet pre ->
            aborted (w, c) s' e \/
            (e = KeyboardInterrupt /\ os s'.1 = os w /\
             (exists evs2, trace s'.1 = trace w ++ pre ++ [Terminate] ++ evs2 /\
                           quiet evs2) /\
             (interrupted (os w) (pred (naps s'.1)) = true \/ pending s')) ->
            aborted (w, c) s' e \/
            ((None : option Z) = None /\
             ((e = KeyboardInterrupt /\ stage_interrupted Terminate (w, c) s') \/
              (e = UnboundLocalError "max_time" /\ debug = true /\ mt = None /\
               s' = (w, c))))).
  { intros pre e s' Hpre [H|(-> & H1 & (evs2 & H2 & H3) & H4)]; [left; exact H|].
    right. split; [reflexivity|]. left. split; [reflexivity|].
    unfold stage_interrupted; cbn. split; [exact H1|]. split; [|exact H4].
    exists pre, evs2. auto. }
  apply wp_bind, wp_when.
  - intros ->.
    apply wp_bind, wp_default_timer; [intros Hp; left; apply aborted_here, Hp|].
    apply wp_bind, wp_read_max_time.
    + intros m _. apply wp_print; [intros Hp; left; apply aborted_here, Hp|].
      eapply wp_mono; [apply (Hgo [Print (TimeoutAt (clock w - m))]) | |].
      * auto with quiet.
      * intros b s' (-> & H1 & H2 & evs2 & H3 & H4). split; [reflexivity|].
        unfold escalated; cbn. split; [exact H1|]. split; [exact H2|].
        eexists _, evs2. split; [exact H3|]. auto with quiet.
      * intros e s' H. apply (Hout [Print (TimeoutAt (clock w - m))]);
          [auto with quiet|exact H].
    + intros ->. right. split; [reflexivity|]. right. auto.
  - intros _. specialize (Hgo [] quiet_nil). rewrite app_nil_r in Hgo.
    destruct w as [d o cl np tu se tr]; cbn in *.
    eapply wp_mono; [apply Hgo | |].
    + intros b s' (-> & H1 & H2 & evs2 & H3 & H4). split; [reflexivity|].
      unfold escalated; cbn. split; [exact H1|]. split; [exact H2|].
      exists [], evs2. split; [exact H3|]. auto with quiet.
    + intros e s' H. apply (Hout []); [auto with quiet|exact H].
Qed.

(** ** The supervisor: collecting the results *)

Lemma wp_stdout_get_output (Q : bytes -> state -> Prop) (E : exn -> state -> Prop)
    (w : world) (c : child) :
  Reader._closed (stdout c) = false ->
  (pending (w, c) -> E KeyboardInterrupt (w, c)) ->
  (forall r, r = stdout (yielded w c).2 ->
     Reader.has_finished r = false ->
     E (Exception "thread did not terminate") (yielded w c)) ->
  (forall r, r = stdout (yielded w c).2 ->
     Reader.has_finished r = true ->
     Q (Reader._buffer r)
       ((yielded w c).1,
        mk_child (returncode c)
                 (Reader.get_output r).2
                 (stderr (yielded w c).2) (stdin (yielded w c).2))) ->
  wp stdout_get_output Q E (w, c).
Proof.
  intros Hc HK HE HQ. unfold stdout_get_output.
  apply wp_interruptible; [exact HK|]. apply wp_bind, wp_yield.
  specialize (HE _ eq_refl). specialize (HQ _ eq_refl).
  assert (Hc' : Reader._closed (stdout (yielded w c).2) = false).
  { cbn. rewrite steps_closed. exact Hc. }
  unfold wp. unfold yielded in *. cbn [fst snd stdout stderr stdin returncode] in *.
  set (r := Reader.steps _ (stdout c)) in *.
  destruct (Reader.has_finished r) eqn:Hf.
  - rewrite (get_output_first r Hf Hc') in *. apply HQ. reflexivity.
  - rewrite (get_output_early r Hf). replace (mk_child _ _ _ _) with
      (mk_child (returncode c) r
         (Reader.steps (schedule (os w) (turns w)).1.2 (stderr c))
         (option_map (Writer.steps (schedule (os w) (turns w)).2) (stdin c)))
      by reflexivity.
    apply HE. reflexivity.
Qed.

Lemma wp_stderr_get_output (Q : bytes -> state -> Prop) (E : exn -> state -> Prop)
    (w : world) (c : child) :
  Reader._closed (stderr c) = false ->
  (pending (w, c) -> E KeyboardInterrupt (w, c)) ->
  (forall r, r = stderr (yielded w c).2 ->
     Reader.has_finished r = false ->
     E (Exception "thread did not terminate") (yielded w c)) ->
  (forall r, r = stderr (yielded w c).2 ->
     Reader.has_finished r = true ->
     Q (Reader._buffer r)
       ((yielded w c).1,
        mk_child (returncode c)
                 (stdout (yielded w c).2)
                 (Reader.get_output r).2 (stdin (yielded w c).2))) ->
  wp stderr_get_output Q E (w, c).
Proof.
  intros Hc HK HE HQ. unfold stderr_get_output.
  apply wp_interruptible; [exact HK|]. apply wp_bind, wp_yield.
  specialize (HE _ eq_refl). specialize (HQ _ eq_refl).
  assert (Hc' : Reader._closed (stderr (yielded w c).2) = false).
  { cbn. rewrite steps_closed. exact Hc. }
  unfold wp. unfold yielded in *. cbn [fst snd stdout stderr stdin returncode] in *.
  set (r := Reader.steps _ (stderr c)) in *.
  destruct (Reader.has_finished r) eqn:Hf.
  - rewrite (get_output_first r Hf Hc') in *. apply HQ. reflexivity.
  - rewrite (get_output_early r Hf). apply HE. reflexivity.
Qed.

Lemma wp_collect (command : list string) (time_start : value) (runtime : Z)
    (te : bool) (w : world) (c : child) (code : Z) :
  Reader._closed (stdout c) = false ->
  Reader._closed (stderr c) = false ->
  returncode c = Some code ->
  wp (collect command time_start runtime te)
     (fun d s' =>
        returncode s'.2 = Some code /\
        d !! "exitcode" = Some (VInt code) /\
        d !! "command" = Some (VArgv command) /\
        (exists out, d !! "stdout" = Some (VStr out)) /\
        (exists err, d !! "stderr" = Some (VStr err)) /\
        d !! "timeout" = Some (VBool te) /\
        d !! "runtime" = Some (VSeconds runtime) /\
        d !! "time_start" = Some time_start /\
        d !! "time_end" = Some (VStamp (clock w)) /\
        Reader.has_finished (stdout s'.2) = true /\
        Reader.has_finished (stderr s'.2) = true /\
        sent s'.1 = sent w /\ os s'.1 = os w /\ clock s'.1 = clock w /\
        trace s'.1 = trace w /\
        match stdin c with
        | None =>
            stdin s'.2 = None /\
            d !! "stdin_bytes_sent" = None /\ d !! "stdin_bytes_remain" = None
        | Some f =>
            exists a,
              stdin s'.2
                = Some (Writer.steps (schedule (os w) (pred (turns s'.1))).2
                                     (Writer.steps a f)) /\
              d !! "stdin_bytes_sent"
                = Some (VInt (Writer.bytes_sent (Writer.steps a f))) /\
              d !! "stdin_bytes_remain"
                = Some (VInt (Writer.bytes_remaining
                                (Writer.steps (schedule (os w) (pred (turns s'.1))).2
                                              (Writer.steps a f))))
        end)
     (fun e s' =>
        sent s'.1 = sent w /\ os s'.1 = os w /\ trace s'.1 = trace w /\
        returncode s'.2 = Some code /\
        ((e = Exception "thread did not terminate" /\
          (Reader.has_finished (stdout s'.2) = false \/
           Reader.has_finished (stderr s'.2) = false)) \/
         (e = KeyboardInterrupt /\ pending s')))
     (w, c).
Proof.
  intros Hc1 Hc2 Hrc. unfold collect.
  apply wp_bind, wp_stdout_get_output; [exact Hc1| | |].
  { intros Hp. cbn. auto 10. }
  { intros r -> Hf. cbn. auto 10. }
  intros r1 Hr1 Hf1. unfold yielded at 1 2 3. cbn [fst snd stdout stderr stdin].
  apply wp_bind, wp_stderr_get_output.
  { cbn. rewrite steps_closed. exact Hc2. }
  { intros Hp. cbn. auto 10. }
  { intros r -> Hf. cbn. auto 10. }
  intros r2 Hr2 Hf2. unfold yielded at 1 2 3. cbn [fst snd stdout stderr stdin returncode].
  apply wp_bind. unfold wp at 1. cbn [fst snd clock].
  apply wp_bind, wp_get_returncode; [intros Hp; cbn; auto 10|].
  cbn [snd returncode]. rewrite Hrc.
  apply wp_bind, wp_get_stdin. cbn [snd stdin].
  assert (Hg1 : Reader.has_finished (Reader.get_output r1).2 = true).
  { rewrite (get_output_first r1 Hf1); [reflexivity|].
    rewrite Hr1. cbn. rewrite steps_closed. exact Hc1. }
  assert (Hg2 : Reader.has_finished (Reader.get_output r2).2 = true).
  { rewrite (get_output_first r2 Hf2); [reflexivity|].
    rewrite Hr2. cbn. rewrite !steps_closed. exact Hc2. }
  destruct (stdin c) as [f|] eqn:Hin; cbn [option_map].
  - unfold stdin_bytes_sent, stdin_bytes_remaining.
    apply wp_bind, wp_interruptible; [intros Hp; cbn; auto 10|].
    apply wp_bind, wp_yield. unfold yielded. cbv beta.
    unfold wp at 1. cbn [snd stdin option_map].
    apply wp_bind, wp_interruptible; [intros Hp; cbn; auto 10|].
    apply wp_bind, wp_yield. unfold yielded. cbv beta.
    unfold wp at 1. cbn [snd stdin option_map].
    apply (wp_ret (A := dict)). cbn.
    repeat split; eauto using steps_stay_terminated.
    exists ((schedule (os w) (turns w)).2 + (schedule (os w) (S (turns w))).2
            + (schedule (os w) (S (S (turns w)))).2)%nat.
    rewrite !writer_steps_add. repeat split; reflexivity.
  - apply (wp_ret (A := dict)). cbn. repeat split; eauto using steps_stay_terminated.
Qed.

Lemma wp_report (command : list string) (mt : option Z) (debug : bool)
    (time_start : value) (start_time : Z) (te : bool) (s : state) :
  Reader._closed (stdout s.2) = false ->
  Reader._closed (stderr s.2) = false ->
  wp (report command mt debug time_start start_time te)
     (fun d s' => reported command time_start start_time te s s' d)
     (fun e s' => report_failed mt debug s s' e) s.
Proof.
  intros Hc1 Hc2. destruct s as [w c]. cbn [fst snd] in *.
  assert (Hab : forall pre, quiet pre -> 
            pending (mk_world (dummy w) (os w) (clock w) (naps w) (turns w) (sent w)
                              (trace w ++ pre), c) ->
            report_failed mt debug (w, c)
              (mk_world (dummy w) (os w) (clock w) (naps w) (turns w) (sent w)
                        (trace w ++ pre), c) KeyboardInterrupt).
  { intros pre Hpre Hp. unfold report_failed; cbn [fst snd sent os trace].
    split; [reflexivity|]. split; [reflexivity|].
    split; [exists pre; auto|]. split; [reflexivity|]. right. right. right. auto. }
  assert (Hab0 : pending (w, c) -> report_failed mt debug (w, c) (w, c) KeyboardInterrupt).
  { intros Hp. specialize (Hab [] quiet_nil). rewrite app_nil_r in Hab.
    destruct w. apply Hab, Hp. }
  unfold report. apply wp_bind, wp_get_returncode; [exact Hab0|]. cbn [snd].
  destruct (returncode c) as [code|] eqn:Hrc.
  2:{ apply wp_raise. unfold report_failed; cbn [fst snd].
      split; [reflexivity|]. split; [reflexivity|].
      split; [exists []; rewrite app_nil_r; auto with quiet|].
      split; [reflexivity|]. left. auto. }
  apply wp_bind, wp_default_timer; [exact Hab0|]. cbn [fst].
  assert (Hgo : forall pre, quiet pre ->
            wp (collect command time_start (clock w - start_time) te)
               (fun d s' => reported command time_start start_time te (w, c) s' d)
               (fun e s' => report_failed mt debug (w, c) s' e)
               (mk_world (dummy w) (os w) (clock w) (naps w) (turns w) (sent w)
                         (trace w ++ pre), c)).
  { intros pre Hpre.
    eapply wp_mono; [apply (wp_collect _ _ _ _ _ c code Hc1 Hc2 Hrc)| |].
    - intros d s' (H1 & H2 & H3 & H4 & H5 & H6 & H7 & H8 & H9 & H10 & H11
                   & H12 & H13 & H14 & H15 & H16).
      cbn [os clock sent trace turns] in *.
      unfold reported; cbn [fst snd].
      split; [exists code; rewrite Hrc; auto|].
      repeat (split; [assumption|]).
      split; [exists pre; auto|]. exact H16.
    - intros e s' (H1 & H2 & H3 & H4 & H5).
      cbn [os clock sent trace turns] in *.
      unfold report_failed; cbn [fst snd].
      repeat (split; [assumption|]).
      split; [exists pre; auto|]. split; [congruence|].
      right. right. destruct H5 as [(-> & H5)|(-> & H5)].
      + left. split; [reflexivity|]. split; [congruence|exact H5].
      + right. auto. }
  apply wp_bind, wp_when.
  - intros ->. apply wp_bind, wp_default_timer; [exact Hab0|].
    apply wp_bind, wp_read_max_time.
    + intros m _. apply wp_print; [exact Hab0|]. apply Hgo. auto with quiet.
    + intros ->. unfold report_failed; cbn [fst snd].
      split; [reflexivity|]. split; [reflexivity|].
      split; [exists []; rewrite app_nil_r; auto with quiet|].
      split; [reflexivity|]. right. left. rewrite Hrc. auto.
  - intros _. specialize (Hgo [] quiet_nil). rewrite app_nil_r in Hgo.
    destruct w. exact Hgo.
Qed.

(** ** The supervisor: the whole run *)

Lemma wp_and {A} (m : M A) (Q1 Q2 : A -> state -> Prop)
    (E1 E2 : exn -> state -> Prop) (s : state) :
  wp m Q1 E1 s -> wp m Q2 E2 s ->
  wp m (fun a s' => Q1 a s' /\ Q2 a s') (fun e s' => E1 e s' /\ E2 e s') s.
Proof. unfold wp. destruct (m s); auto. Qed.

Lemma evolves_closed (s s' : state) :
  evolves s s' ->
  Reader._closed (stdout s'.2) = Reader._closed (stdout s.2) /\
  Reader._closed (stderr s'.2) = Reader._closed (stderr s.2).
Proof.
  intros H. destruct (ev_stdout _ _ H) as [n ->]. destruct (ev_stderr _ _ H) as [m ->].
  split; apply steps_closed.
Qed.

(** The counts of the dictionary, told from the writer of an earlier state. *)
Lemma stdin_counts_evolves (s0 s3 s' : state) (d : dict) :
  evolves s0 s3 -> os s'.1 = os s3.1 ->
  match stdin s3.2 with
  | None =>
      stdin s'.2 = None /\
      d !! "stdin_bytes_sent" = None /\ d !! "stdin_bytes_remain" = None
  | Some f =>
      exists a,
        stdin s'.2
          = Some (Writer.steps (schedule (os s3.1) (pred (turns s'.1))).2
                               (Writer.steps a f)) /\
        d !! "stdin_bytes_sent"
          = Some (VInt (Writer.bytes_sent (Writer.steps a f))) /\
        d !! "stdin_bytes_remain"
          = Some (VInt (Writer.bytes_remaining
                          (Writer.steps (schedule (os s3.1) (pred (turns s'.1))).2
                                        (Writer.steps a f))))
  end ->
  stdin_counts (stdin s0.2) s' d.
Proof.
  intros Hev Hos H. pose proof (ev_stdin _ _ Hev) as Hw.
  unfold writer_evolves, stdin_counts in *.
  destruct (stdin s0.2) as [f0|], (stdin s3.2) as [f3|]; try contradiction.
  - destruct Hw as [n ->]. destruct H as (a & _ & H1 & H2).
    exists (n + a)%nat. rewrite Hos, !writer_steps_add. auto.
  - destruct H as (_ & H1 & H2). auto.
Qed.

Lemma shutdown_summary (s1 s2 s3 : state) :
  escalated SIGTERM Terminate s1 s2 ->
  match returncode s2.2 with
  | Some _ => s3 = s2
  | None => escalated SIGKILL Kill s2 s3
  end ->
  os s3.1 = os s1.1 /\
  (sent s3.1 = sent s1.1 ++ [(clock s1.1, SIGTERM)] \/
   exists T', sent s3.1 = sent s1.1 ++ [(clock s1.1, SIGTERM); (T', SIGKILL)]) /\
  (exists evs1 evs2,
     trace s3.1 = trace s1.1 ++ evs1 ++ [Terminate] ++ evs2 /\ quiet evs1) /\
  (returncode s3.2 = None ->
   exists evs1 evs2 evs3,
     trace s3.1 = trace s1.1 ++ evs1 ++ [Terminate] ++ evs2 ++ [Kill] ++ evs3
                  ++ [Poll None] /\
     quiet evs1 /\ quiet evs2 /\ quiet evs3).
Proof.
  intros (T1 & T2 & e1 & e2 & T3 & T4 & T5) K.
  destruct (returncode s2.2) as [x|] eqn:Hrc2.
  - subst s3.
    split; [exact T2|]. split; [left; exact T1|]. split.
    + exists e1, (e2 ++ [Poll (Some x)]). split; [|exact T4].
      rewrite T3, <- ?app_assoc. reflexivity.
    + rewrite Hrc2. discriminate.
  - destruct K as (K1 & K2 & k1 & k2 & K3 & K4 & K5).
    split; [congruence|]. split.
    { right. exists (clock s2.1). rewrite K1, T1, <- app_assoc. reflexivity. }
    split.
    + exists e1, (e2 ++ [Poll None] ++ k1 ++ [Kill] ++ k2 ++ [Poll (returncode s3.2)]).
      split; [|exact T4]. rewrite K3, T3, <- ?app_assoc. reflexivity.
    + intros Hrc3. exists e1, (e2 ++ [Poll None] ++ k1), k2.
      split; [|split; [exact T4|split; [|exact K5]]].
      * rewrite K3, T3, Hrc3, <- ?app_assoc. reflexivity.
      * apply quiet_app; [exact T5|]. apply quiet_cons; [discriminate..|exact K4].
Qed.

Lemma wp_supervise (fuel : nat) (command : list string) (timeout : option Z)
    (debug : bool) (time_start : value) (start_time : Z) (mt : option Z)
    (s0 : state) :
  (timeout = None <-> mt = None) ->
  returncode s0.2 = None ->
  Reader._closed (stdout s0.2) = false ->
  Reader._closed (stderr s0.2) = false ->
  wp (supervise fuel command timeout debug time_start start_time mt)
     (fun d s' => run_returned mt s0 s' d)
     (fun e s' => run_raised mt debug s0 s' e) s0.
Proof.
  intros Hm Hrc0 Hc1 Hc2. unfold supervise. apply wp_bind.
  eapply wp_mono;
    [apply wp_and;
     [apply (wp_poll_loop fuel timeout mt debug s0 Hm)|apply framed_poll_loop]| |].
  2:{ intros e s1 [[(-> & (evs & E2 & E3) & (T & E4) & E5 & E6)
                   |(-> & A1 & A2 & A3 & A4)] F1].
      - split; [exact E5|]. left. split; [reflexivity|].
        left. split; [exact E6|]. exists evs, T. auto.
      - split; [exact A3|]. left. split; [reflexivity|]. right. right. auto. }
  intros ? s1 [L F1]. cbv beta.
  destruct L as (L1 & L2 & L3 & (ev0 & L4 & L4') & L5 & L6).
  (* Ctrl+C outside a sleep, later on: before and after [p.terminate()] *)
  assert (HabC : forall s' e, aborted s1 s' e -> run_raised mt debug s0 s' e).
  { intros s' e (-> & A1 & A2 & A3 & ev & A4 & A5).
    split; [congruence|]. left. split; [reflexivity|]. right. right.
    split; [exact A1|]. split; [congruence|].
    exists (ev0 ++ ev). rewrite A4, L4, <- app_assoc. auto with quiet. }
  assert (HabB : forall s2 s' e,
            os s2.1 = os s1.1 ->
            (exists evs1 evs2,
               trace s2.1 = trace s1.1 ++ evs1 ++ [Terminate] ++ evs2 /\ quiet evs1) ->
            aborted s2 s' e -> run_raised mt debug s0 s' e).
  { intros s2 s' e O2 (e1 & e2 & H2 & H3) (-> & A1 & A2 & A3 & ev & A4 & A5).
    split; [congruence|]. left. split; [reflexivity|]. right. left.
    split; [right; exact A1|].
    exists (ev0 ++ e1), (e2 ++ ev). split; [|auto with quiet].
    rewrite A4, H2, L4, <- ?app_assoc. reflexivity. }
  apply wp_bind.
  eapply wp_mono;
    [apply wp_and; [apply wp_terminate_stage|apply framed_terminate_stage]| |].
  2:{ intros e s2 [[A|(Hn & [[-> (S1 & (e1 & e2 & S2 & S3 & S4) & S5)]
                           |(-> & Hd & Hmt & ->)])] F2].
      - apply HabC, A.
      - split; [congruence|]. left. split; [reflexivity|]. right. left.
        split; [rewrite <- L2; exact S5|].
        exists (ev0 ++ e1), e2. split; [|auto with quiet].
        rewrite S2, L4, <- ?app_assoc. reflexivity.
      - rewrite Hn in L6. destruct L6 as (m & L6 & _). congruence. }
  intros te s2 [T F2]. cbv beta. apply wp_bind.
  eapply wp_mono; [apply wp_and; [apply wp_kill_stage|apply framed_kill_stage]| |].
  2:{ intros e s3 [[A|(Hn & -> & (S1 & (k1 & k2 & S2 & S3 & S4) & S5))] F3].
      - destruct (returncode s1.2) as [x|] eqn:Hrc1.
        + destruct T as [_ ->]. apply HabC, A.
        + destruct T as [_ (_ & T2 & e1 & e2 & T3 & T4 & _)].
          apply (HabB s2 s3 e T2); [|exact A].
          exists e1, (e2 ++ [Poll (returncode s2.2)]). split; [|exact T4].
          rewrite T3, <- ?app_assoc. reflexivity.
      - destruct (returncode s1.2) as [x|] eqn:Hrc1.
        { destruct T as [_ ->]. congruence. }
        destruct T as [_ (T1 & T2 & e1 & e2 & T3 & T4 & T5)].
        split; [congruence|]. left. split; [reflexivity|]. right. left.
        split; [rewrite <- L2, <- T2; exact S5|].
        exists (ev0 ++ e1), (e2 ++ [Poll (returncode s2.2)] ++ k1 ++ [Kill] ++ k2).
        split; [|auto with quiet].
        rewrite S2, T3, L4, <- ?app_assoc. reflexivity. }
  intros ? s3 [K F3]. cbv beta.
  assert (F03 : evolves s0 s3) by eauto using evolves_trans.
  pose proof (ev_os _ _ F03) as O3.
  destruct (evolves_closed _ _ F03) as [C1 C2].
  eapply wp_mono; [apply wp_report; congruence| |].
  - intros d s' ((code & R1 & R2 & R3) & _ & _ & _ & R4 & _ & _ & _ & _ & _
                 & R5 & R6 & _ & (ev4 & R7 & R7') & R8).
    destruct (returncode s1.2) as [x|] eqn:Hrc1.
    + destruct T as [-> ->]. rewrite Hrc1 in K. subst s3.
      split; [exists code; auto|]. split; [congruence|].
      split; [exact (stdin_counts_evolves s0 s1 s' d F03 R6 R8)|].
      left. split; [exact R4|]. split; [congruence|]. split.
      { exists (ev0 ++ ev4). rewrite R7, L4, <- app_assoc. auto with quiet. }
      destruct L6 as [L6|(T0 & k & L6 & L7 & L8 & L9)]; [congruence|].
      exists code, T0, k. rewrite L8 in L9.
      assert (x = code) as -> by congruence. auto.
    + destruct T as [-> T].
      destruct (shutdown_summary s1 s2 s3 T K) as (S1 & S2 & (e1 & e2 & S3 & S4) & _).
      destruct L6 as (m & M1 & M2 & M3).
      split; [exists code; auto|]. split; [congruence|].
      split; [exact (stdin_counts_evolves s0 s3 s' d F03 R6 R8)|].
      right. split; [exact R4|]. exists m, (clock s1.1).
      split; [exact M1|]. split; [exact M2|]. split; [exact M3|].
      split; [rewrite R5, <- L1; exact S2|].
      exists (ev0 ++ e1), (e2 ++ ev4). split; [|auto with quiet].
      rewrite R7, S3, L4, <- ?app_assoc. reflexivity.
  - intros e s' (R1 & R2 & (ev4 & R3 & R3') & R4 & R5).
    destruct R5 as [(-> & R5 & ->)|[(-> & R5 & R6 & R7)|[(-> & R5 & R6)|(-> & R5)]]].
    + split; [congruence|]. right.
      left. split; [reflexivity|]. split; [exact R5|].
      destruct (returncode s1.2) as [x|] eqn:Hrc1.
      { destruct T as [_ ->]. rewrite Hrc1 in K. subst s3. congruence. }
      destruct T as [_ T].
      destruct (shutdown_summary s1 s2 s3 T K) as (_ & _ & _ & S).
      destruct (S R5) as (e1 & e2 & e3 & S1 & S2 & S3 & S4).
      exists (ev0 ++ e1), e2, e3. split; [|auto with quiet].
      rewrite S1, L4, <- ?app_assoc. reflexivity.
    + split; [congruence|]. right.
      right. right. split; [reflexivity|]. split; [exact R5|]. split; [exact R6|].
      split; [congruence|].
      destruct (returncode s1.2) as [x|] eqn:Hrc1.
      * destruct T as [_ ->]. rewrite Hrc1 in K. subst s3. congruence.
      * destruct L6 as (m & M1 & _). congruence.
    + split; [congruence|]. right.
      right. left. split; [reflexivity|]. split; [congruence|exact R6].
    + assert (A : aborted s3 s' KeyboardInterrupt).
      { split; [reflexivity|]. split; [exact R5|]. split; [exact R1|].
        split; [exact R2|]. exists ev4. auto. }
      destruct (returncode s1.2) as [x|] eqn:Hrc1.
      * destruct T as [_ ->]. rewrite Hrc1 in K. subst s3. apply HabC, A.
      * destruct T as [_ T].
        destruct (shutdown_summary s1 s2 s3 T K) as (S1 & _ & S & _).
        apply (HabB s3 s' _ S1 S A).
Qed.

(** A call in real mode, step by step up to the child. *)
Lemma run_process_cases (fuel : nat) (command : list string) (timeout : option Z)
    (debug : bool) (stdin : option bytes) (print_stdout print_stderr : bool)
    (w : world) :
  dummy w = false ->
  (starts_up command debug w /\
   run_process fuel command timeout debug stdin print_stdout print_stderr w
   = with_child
       (supervise fuel command timeout debug (strftime w) (clock w)
                  (deadline (clock w) timeout)
                  (started command debug stdin print_stdout print_stderr w))) \/
  (exists e w',
     not_started command debug stdin w w' e /\
     run_process fuel command timeout debug stdin print_stdout print_stderr w
     = Raise e (w', None)).
Proof.
  intros Hd. unfold run_process, starts_up, not_started, started, spawn, deadline.
  destruct (ctrl_c (os w) (progress w)) eqn:H1.
  { right. exists KeyboardInterrupt, w. split; [left; auto|reflexivity]. }
  destruct debug.
  - cbn [dummy log os clock]. rewrite Hd.
    destruct (ctrl_c (os w) (progress (log (Print (Starting command)) w))) eqn:H2.
    { right. eexists KeyboardInterrupt, _. split; [right; left; eauto|reflexivity]. }
    destruct (launch (os w) command) as [e|] eqn:H3.
    { right. eexists e, _. split; [right; right; eauto|reflexivity]. }
    left. split; [auto|reflexivity].
  - rewrite Hd, H1.
    destruct (launch (os w) command) as [e|] eqn:H3.
    { right. eexists e, _. split; [right; right; eauto|reflexivity]. }
    left. split; [auto|reflexivity].
Qed.

Lemma run_process_real (fuel : nat) (command : list string) (timeout : option Z)
    (debug : bool) (stdin : option bytes) (print_stdout print_stderr : bool)
    (w : world) :
  dummy w = false ->
  starts_up command debug w ->
  run_process fuel command timeout debug stdin print_stdout print_stderr w
  = with_child
      (supervise fuel command timeout debug (strftime w) (clock w)
                 (deadline (clock w) timeout)
                 (started command debug stdin print_stdout print_stderr w)).
Proof.
  intros Hd (S1 & S2 & S3).
  destruct (run_process_cases fuel command timeout debug stdin print_stdout
              print_stderr w Hd) as [[_ H]|(e & w' & N & _)]; [exact H|].
  exfalso. unfold not_started in N.
  destruct N as [(_ & N & _)|[(_ & N & _)|(N & _)]]; congruence.
Qed.

(** Every outcome of a call in real mode. *)
Lemma run_process_outcome (fuel : nat) (command : list string) (timeout : option Z)
    (debug : bool) (stdin : option bytes) (print_stdout print_stderr : bool)
    (w : world) :
  dummy w = false ->
  match run_process fuel command timeout debug stdin print_stdout print_stderr w with
  | Ok d (w', oc) =>
      starts_up command debug w /\
      exists c', oc = Some c' /\
        run_returned (deadline (clock w) timeout)
          (started command debug stdin print_stdout print_stderr w) (w', c') d
  | Raise e (w', oc) =>
      (oc = None /\ not_started command debug stdin w w' e) \/
      (starts_up command debug w /\
       exists c', oc = Some c' /\
         run_raised (deadline (clock w) timeout) debug
           (started command debug stdin print_stdout print_stderr w) (w', c') e)
  | OutOfFuel => True
  end.
Proof.
  intros Hd.
  destruct (run_process_cases fuel command timeout debug stdin print_stdout
              print_stderr w Hd) as [[S ->]|(e & w' & N & ->)]; [|left; auto].
  pose proof (wp_supervise fuel command timeout debug (strftime w) (clock w)
                (deadline (clock w) timeout)
                (started command debug stdin print_stdout print_stderr w)) as H.
  unfold wp in H.
  destruct (supervise _ _ _ _ _ _ _ _) as [d [w' c']|e [w' c']|]; cbn.
  - split; [exact S|]. exists c'. split; [reflexivity|]. apply H; try reflexivity.
    destruct timeout; cbn; split; congruence.
  - right. split; [exact S|]. exists c'. split; [reflexivity|].
    apply H; try reflexivity.
    destruct timeout; cbn; split; congruence.
  - exact I.
Qed.

(** ** The supervisor: running out of fuel *)

Lemma wp_Ok {A} (m : M A) Q E s a s' : wp m Q E s -> m s = Ok a s' -> Q a s'.
Proof. unfold wp. intros H Heq. rewrite Heq in H. exact H. Qed.

Lemma halts_bind {A B} (m : M B) (k : B -> M A) (s : state) :
  halts m s -> (forall b s', m s = Ok b s' -> halts (k b) s') ->
  halts (bind m k) s.
Proof.
  unfold halts, bind. intros Hm Hk.
  destruct (m s) as [b s'|e s'|]; [apply Hk; reflexivity|discriminate|congruence].
Qed.

Lemma total_bind {A B} (m : M B) (k : B -> M A) :
  total m -> (forall b, total (k b)) -> total (bind m k).
Proof. intros Hm Hk s. apply halts_bind; [apply Hm|]. intros b s' _. apply Hk. Qed.

Lemma total_ret {A} (a : A) : total (ret a).
Proof. intros s. discriminate. Qed.

Lemma total_raise {A} (e : exn) : total (raise e : M A).
Proof. intros s. discriminate. Qed.

Lemma total_when (b : bool) (m : M unit) : total m -> total (when b m).
Proof. intros H. destruct b; [exact H|apply total_ret]. Qed.

Lemma total_except {A} (m h : M A) :
  total m -> total h -> total (except_KeyboardInterrupt m h).
Proof.
  intros Hm Hh s. unfold halts, except_KeyboardInterrupt.
  specialize (Hm s). unfold halts in Hm.
  destruct (m s) as [a s'|e s'|]; [discriminate| |congruence].
  destruct e; try discriminate. apply Hh.
Qed.

Lemma total_interruptible {A} (m : M A) : total m -> total (interruptible m).
Proof.
  intros H s. unfold halts, interruptible.
  destruct (ctrl_c (os s.1) (progress s.1)); [discriminate|apply H].
Qed.

Lemma total_read {A} (f : state -> A) : total (fun s => Ok (f s) s).
Proof. intros s. discriminate. Qed.

Lemma total_default_timer : total default_timer.
Proof. apply total_interruptible, total_read. Qed.

Lemma total_get_returncode : total get_returncode.
Proof. apply total_interruptible, total_read. Qed.

Lemma total_get_stdin : total get_stdin.
Proof. intros s. discriminate. Qed.

Lemma total_read_max_time (mt : option Z) : total (read_max_time mt).
Proof. destruct mt; [apply total_ret|apply total_raise]. Qed.

Lemma total_print (m : message) : total (print m).
Proof. apply total_interruptible. intros [w c]. discriminate. Qed.

Lemma total_sleep (d : Z) : total (sleep d).
Proof.
  intros [w c]. unfold halts, sleep.
  destruct (interrupted (os w) (naps w)); discriminate.
Qed.

Lemma total_poll : total poll.
Proof. apply total_interruptible. intros [w c]. discriminate. Qed.

Lemma total_terminate : total terminate.
Proof. apply total_interruptible. intros [w c]. discriminate. Qed.

Lemma total_kill : total kill.
Proof. apply total_interruptible. intros [w c]. discriminate. Qed.

Lemma total_yield : total yield.
Proof.
  intros [w c]. unfold halts, yield.
  destruct (schedule (os w) (turns w)) as [[a b] n]. discriminate.
Qed.

Lemma total_after_yield {A} (k : M A) :
  (forall s, halts k s) -> total (interruptible (yield ;; k)).
Proof.
  intros H. apply total_interruptible, total_bind; [apply total_yield|].
  intros _. exact H.
Qed.

Lemma total_drains_unfinished : total drains_unfinished.
Proof.
  apply total_bind; [apply total_after_yield; discriminate|].
  intros a. destruct (negb a); [apply total_ret|].
  apply total_bind; [apply total_after_yield; discriminate|].
  intros b. apply total_ret.
Qed.

Lemma total_still_waiting (timeout mt : option Z) : total (still_waiting timeout mt).
Proof.
  apply total_bind; [apply total_get_returncode|].
  intros [x|]; [apply total_ret|].
  destruct timeout; [|apply total_ret].
  apply total_bind; [apply total_default_timer|]. intros t.
  apply total_bind; [apply total_read_max_time|]. intros m. apply total_ret.
Qed.

Lemma total_debug_print (mt : option Z) (b : bool) (f : Z -> Z -> message) :
  total (when b (t <- default_timer ;; m <- read_max_time mt ;; print (f t m))).
Proof.
  apply total_when.
  apply total_bind; [apply total_default_timer|]. intros t.
  apply total_bind; [apply total_read_max_time|]. intros m. apply total_print.
Qed.

Lemma total_poll_once (timeout mt : option Z) (debug : bool) :
  total (poll_once timeout mt debug).
Proof.
  apply total_bind; [apply (total_debug_print mt _ (fun t m => StillRunning (t - m)))|].
  intros _. apply total_bind.
  { apply total_except; [apply total_sleep|].
    apply total_bind; [apply total_kill|]. intros _. apply total_raise. }
  intros _. apply total_poll.
Qed.

Lemma total_terminate_stage (mt : option Z) (debug : bool) :
  total (terminate_stage mt debug).
Proof.
  apply total_bind; [apply total_get_returncode|].
  intros [x|]; [apply total_ret|].
  apply total_bind; [apply (total_debug_print mt _ (fun t m => TimeoutAt (t - m)))|].
  intros _. apply total_bind; [apply total_terminate|].
  intros _. apply total_bind; [apply total_sleep|].
  intros _. apply total_bind; [apply total_drains_unfinished|].
  intros u. apply total_bind; [apply total_when, total_sleep|].
  intros _. apply total_bind; [apply total_poll|].
  intros _. apply total_ret.
Qed.

Lemma total_kill_stage : total kill_stage.
Proof.
  apply total_bind; [apply total_get_returncode|].
  intros [x|]; [apply total_ret|].
  apply total_bind; [apply total_kill|].
  intros _. apply total_bind; [apply total_sleep|].
  intros _. apply total_bind; [apply total_drains_unfinished|].
  intros u. apply total_bind; [apply total_when, total_sleep|].
  intros _. apply total_poll.
Qed.

Lemma total_collect (command : list string) (time_start : value) (runtime : Z)
    (te : bool) : total (collect command time_start runtime te).
Proof.
  apply total_bind.
  { apply total_after_yield. intros [w c]. unfold halts.
    destruct (Reader.get_output (stdout c)) as [[e|d] r]; discriminate. }
  intros out. apply total_bind.
  { apply total_after_yield. intros [w c]. unfold halts.
    destruct (Reader.get_output (stderr c)) as [[e|d] r]; discriminate. }
  intros err. apply total_bind; [intros s; discriminate|].
  intros te'. apply total_bind; [apply total_get_returncode|].
  intros rc. apply total_bind; [apply total_get_stdin|].
  intros [f|]; [|apply total_ret].
  apply total_bind; [apply total_after_yield; discriminate|].
  intros n. apply total_bind; [apply total_after_yield; discriminate|].
  intros r. apply total_ret.
Qed.

Lemma total_report (command : list string) (mt : option Z) (debug : bool)
    (time_start : value) (start_time : Z) (te : bool) :
  total (report command mt debug time_start start_time te).
Proof.
  apply total_bind; [apply total_get_returncode|].
  intros [code|]; [|apply total_raise].
  apply total_bind; [apply total_default_timer|]. intros t.
  apply total_bind.
  { apply (total_debug_print mt _ (fun t' m => Ended (t - start_time) code (t' - m))). }
  intros _. apply total_collect.
Qed.

(** Only the polling loop can run out of fuel. *)
Lemma supervise_halts (fuel : nat) (command : list string) (timeout : option Z)
    (debug : bool) (time_start : value) (start_time : Z) (mt : option Z)
    (s : state) :
  halts (poll_loop fuel timeout mt debug) s ->
  halts (supervise fuel command timeout debug time_start start_time mt) s.
Proof.
  intros H. unfold supervise. apply halts_bind; [exact H|].
  intros _ s1 _. apply total_bind; [apply total_terminate_stage|].
  intros te. apply total_bind; [apply total_kill_stage|].
  intros _. apply total_report.
Qed.

(** The polling loop ends when there is an instant [X] from which on
    either the deadline has passed or the child has ended, and the
    fuel covers the sleeps up to [X]. *)
Lemma poll_loop_halts (fuel : nat) (timeout mt : option Z) (debug : bool)
    (X : Z) (s : state) :
  (timeout = None <-> mt = None) ->
  (forall T, X <= T ->
     (exists m, mt = Some m /\ m <= T) \/ status (os s.1) (sent s.1) T <> None) ->
  X <= clock s.1 + 500 * Z.of_nat fuel ->
  halts (poll_loop (S fuel) timeout mt debug) s.
Proof.
  intros Hm. revert s. induction fuel as [|fuel IH]; intros s HX Hf.
  - cbn [poll_loop]. apply halts_bind; [apply total_still_waiting|].
    intros go s' Hgo.
    destruct (wp_Ok _ _ _ _ _ _ (wp_still_waiting timeout mt s Hm) Hgo)
      as [-> [[-> _]|[-> [Hrc Hdl]]]]; [apply total_ret|].
    destruct s as [w c]. apply halts_bind; [apply total_poll_once|].
    intros u s1 H1.
    destruct (wp_Ok _ _ _ _ _ _ (wp_poll_once timeout mt debug w c Hm Hrc) H1)
      as (P1 & P2 & _ & P3 & P4 & _).
    apply halts_bind; [apply total_still_waiting|].
    intros go' s'' Hgo'.
    destruct (wp_Ok _ _ _ _ _ _ (wp_still_waiting timeout mt s1 Hm) Hgo')
      as [-> [[-> _]|[-> [Hrc1 Hdl1]]]]; [apply total_ret|].
    exfalso. cbn [fst snd] in *.
    destruct (HX (clock s1.1)) as [(m & M1 & M2)|HS]; [lia| |].
    + specialize (Hdl1 m M1). lia.
    + rewrite <- P4 in HS. contradiction.
  - cbn [poll_loop]. apply halts_bind; [apply total_still_waiting|].
    intros go s' Hgo.
    destruct (wp_Ok _ _ _ _ _ _ (wp_still_waiting timeout mt s Hm) Hgo)
      as [-> [[-> _]|[-> [Hrc Hdl]]]]; [apply total_ret|].
    destruct s as [w c]. apply halts_bind; [apply total_poll_once|].
    intros u s1 H1.
    destruct (wp_Ok _ _ _ _ _ _ (wp_poll_once timeout mt debug w c Hm Hrc) H1)
      as (P1 & P2 & _ & P3 & P4 & _).
    cbn [fst snd] in *. apply IH.
    + rewrite P1, P2. exact HX.
    + lia.
Qed.

Lemma bind_Ok {A B} (m : M B) (k : B -> M A) (s s' : state) (b : B) :
  m s = Ok b s' -> bind m k s = k b s'.
Proof. unfold bind. intros ->. reflexivity. Qed.

Lemma bind_OutOfFuel {A B} (m : M B) (k : B -> M A) (s : state) :
  m s = OutOfFuel -> bind m k s = OutOfFuel.
Proof. unfold bind. intros ->. reflexivity. Qed.



Lemma run_process_halts (fuel : nat) (command : list string) (timeout : option Z)
    (debug : bool) (stdin : option bytes) (print_stdout print_stderr : bool)
    (w : world) (X : Z) :
  dummy w = false ->
  (forall T, X <= T ->
     (exists t, timeout = Some t /\ clock w + t <= T) \/
     status (os w) (sent w) T <> None) ->
  X <= clock w + 500 * Z.of_nat fuel ->
  run_process (S fuel) command timeout debug stdin print_stdout print_stderr w
  <> OutOfFuel.
Proof.
  intros Hd HX Hf.
  destruct (run_process_cases (S fuel) command timeout debug stdin print_stdout
              print_stderr w Hd) as [[_ ->]|(e & w' & _ & ->)]; [|discriminate].
  assert (H : halts (supervise (S fuel) command timeout debug (strftime w) (clock w)
                       (deadline (clock w) timeout))
                    (started command debug stdin print_stdout print_stderr w)).
  { apply supervise_halts. apply (poll_loop_halts _ _ _ _ X).
    - destruct timeout; cbn; split; congruence.
    - intros T HT. unfold started, deadline.
      destruct (HX T HT) as [(t & -> & Ht)|Hs].
      + left. eexists. split; [reflexivity|exact Ht].
      + right. destruct debug; exact Hs.
    - unfold started. destruct debug; exact Hf. }
  unfold halts in H.
  destruct (supervise _ _ _ _ _ _ _ _) as [d [w' c']|e [w' c']|]; cbn;
    congruence.
Qed.

(** ** The supervisor: Ctrl+C in the polling loop *)

Lemma bind_Raise {A B} (m : M B) (k : B -> M A) (s s' : state) (e : exn) :
  m s = Raise e s' -> bind m k s = Raise e s'.
Proof. unfold bind. intros ->. reflexivity. Qed.



Lemma started_boot (command : list string) (debug : bool) (input : option bytes)
    (po pe : bool) (e : env) (t0 : Z) :
  let s0 := started command debug input po pe (boot false e t0) in
  os s0.1 = e /\ clock s0.1 = t0 /\ naps s0.1 = 0%nat /\ sent s0.1 = [] /\
  quiet (trace s0.1) /\ returncode s0.2 = None /\
  Popen command (match input with None => false | Some _ => true end) ∈ trace s0.1 /\
  stdin s0.2
  = option_map (fun data => Writer.init (Writer.fresh_pipe (in_pipe e)) data false) input.
Proof.
  unfold started, launched, boot. destruct debug; cbn.
  - repeat split; try reflexivity; try (destruct input; reflexivity).
    + intros H. repeat (apply elem_of_cons in H as [H|H]; [discriminate|]).
      apply elem_of_nil in H. exact H.
    + intros H. repeat (apply elem_of_cons in H as [H|H]; [discriminate|]).
      apply elem_of_nil in H. exact H.
    + apply elem_of_cons. right. apply elem_of_cons. left. reflexivity.
  - repeat split; try reflexivity; try (destruct input; reflexivity).
    + intros H. repeat (apply elem_of_cons in H as [H|H]; [discriminate|]).
      apply elem_of_nil in H. exact H.
    + intros H. repeat (apply elem_of_cons in H as [H|H]; [discriminate|]).
      apply elem_of_nil in H. exact H.
    + apply elem_of_cons. left. reflexivity.
Qed.

Ltac not_in_list :=
  let H := fresh in
  intros H; repeat (apply elem_of_cons in H as [H|H]; [discriminate H|]);
  apply elem_of_nil in H; exact H.

(** What a call from a fresh world has done when it ends before there is
    a child. *)
Lemma not_started_boot (command : list string) (debug : bool) (input : option bytes)
    (e : env) (t0 : Z) (w' : world) (x : exn) :
  not_started command debug input (boot false e t0) w' x ->
  sent w' = [] /\ quiet (trace w') /\ os w' = e.
Proof.
  unfold not_started, boot.
  intros [(_ & _ & ->)|[(_ & _ & ->)|(_ & ->)]]; destruct debug; cbn;
    (split; [reflexivity|]); (split; [|reflexivity]); split; not_in_list.
Qed.




(** ** The supervisor: what every call in real mode leaves behind *)

Lemma wp_supervise_trace (fuel : nat) (command : list string) (timeout : option Z)
    (debug : bool) (time_start : value) (start_time : Z) (mt : option Z)
    (s0 : state) :
  Reader._closed (stdout s0.2) = false ->
  Reader._closed (stderr s0.2) = false ->
  wp (supervise fuel command timeout debug time_start start_time mt)
     (fun _ s' => exists evs, trace s'.1 = trace s0.1 ++ evs)
     (fun _ s' => exists evs, trace s'.1 = trace s0.1 ++ evs) s0.
Proof.
  intros Hc1 Hc2. unfold supervise. apply wp_bind.
  eapply wp_mono; [apply framed_poll_loop| |intros e s1 F; exact (ev_trace _ _ F)].
  intros u s1 F1. cbv beta in *. apply wp_bind.
  eapply wp_mono; [apply framed_terminate_stage| |].
  2:{ intros e s2 F2. cbv beta in *.
      exact (ev_trace _ _ (evolves_trans _ _ _ F1 F2)). }
  intros te s2 F2. cbv beta in *. apply wp_bind.
  eapply wp_mono; [apply framed_kill_stage| |].
  2:{ intros e s3 F3. cbv beta in *.
      exact (ev_trace _ _ (evolves_trans _ _ _ (evolves_trans _ _ _ F1 F2) F3)). }
  intros u' s3 F3. cbv beta in *.
  assert (F03 : evolves s0 s3) by eauto using evolves_trans.
  destruct (evolves_closed _ _ F03) as [C1 C2].
  destruct (ev_trace _ _ F03) as [ev0 E0].
  eapply wp_mono; [apply wp_report; congruence| |].
  - intros d s' (_ & _ & _ & _ & _ & _ & _ & _ & _ & _ & _ & _ & _
                 & (ev4 & R & _) & _).
    exists (ev0 ++ ev4). rewrite R, E0, <- app_assoc. reflexivity.
  - intros e s' (_ & _ & (ev4 & R & _) & _).
    exists (ev0 ++ ev4). rewrite R, E0, <- app_assoc. reflexivity.
Qed.

Lemma run_process_spawns (fuel : nat) (command : list string) (timeout : option Z)
    (debug : bool) (stdin : option bytes) (po pe : bool) (w : world) :
  dummy w = false ->
  match run_process fuel command timeout debug stdin po pe w with
  | Ok _ (w', oc) =>
      oc <> None /\
      exists evs evs',
        trace w' = trace w ++ evs
                   ++ [Popen command (match stdin with None => false | Some _ => true end)]
                   ++ evs'
  | Raise e (w', oc) =>
      (oc <> None /\
       exists evs evs',
         trace w' = trace w ++ evs
                    ++ [Popen command (match stdin with None => false | Some _ => true end)]
                    ++ evs') \/
      (oc = None /\ not_started command debug stdin w w' e)
  | OutOfFuel => True
  end.
Proof.
  intros Hd.
  destruct (run_process_cases fuel command timeout debug stdin po pe w Hd)
    as [(_ & ->)|(e & w' & N & ->)]; [|right; split; [reflexivity|exact N]].
  pose proof (wp_supervise_trace fuel command timeout debug (strftime w) (clock w)
                (deadline (clock w) timeout)
                (started command debug stdin po pe w) eq_refl eq_refl) as H.
  unfold wp in H.
  assert (Ht : exists evs,
             trace (started command debug stdin po pe w).1
             = trace w ++ evs
               ++ [Popen command (match stdin with None => false | Some _ => true end)]).
  { unfold started, launched. destruct debug; cbn.
    - exists [Print (Starting command)]. rewrite <- app_assoc. reflexivity.
    - exists []. reflexivity. }
  destruct Ht as [evs Ht].
  destruct (supervise _ _ _ _ _ _ _ _) as [d [w' c']|e [w' c']|]; cbn;
    [| |exact I].
  - destruct H as [evs' H]. split; [discriminate|]. exists evs, evs'.
    cbn [fst] in H. rewrite H, Ht, <- !app_assoc. reflexivity.
  - left. destruct H as [evs' H]. split; [discriminate|]. exists evs, evs'.
    cbn [fst] in H. rewrite H, Ht, <- !app_assoc. reflexivity.
Qed.

(** C8 (as the code has it). Whether a call of [run_process] is a dummy
    call is decided by the module-level variable [dummy] as it is when
    the call is made, not by an argument.  When the variable is set, the
    call returns at once the result with exit code 0, empty stdout and
    stderr, [timeout] false and runtime 0, makes no child and sends
    nothing: the world is as before but for the debug message.  The one
    other outcome of a dummy call is Ctrl+C as the call begins, which
    goes to the caller with the world as before.  When the variable is
    not set, every call that returns a result has first made the child
    with [Popen]: the dummy result is never a fallback.  A call that
    raises has made the child too, or has none because [Popen] raised
    or Ctrl+C arrived before it. *)
Theorem dummy_mode_is_module_state (fuel : nat) (command : list string)
    (timeout : option Z) (debug : bool) (stdin : option bytes) (po pe : bool)
    (w : world) :
  (dummy w = true ->
   run_process fuel command timeout debug stdin po pe w
   = (if ctrl_c (os w) (progress w)
      then Raise KeyboardInterrupt (w, None)
      else Ok (dummy_result command (VStamp (clock w)))
              (if debug then log (Print (Starting command)) w else w, None)) /\
   dummy_result command (VStamp (clock w)) !! "exitcode" = Some (VInt 0) /\
   dummy_result command (VStamp (clock w)) !! "stdout" = Some (VStr []) /\
   dummy_result command (VStamp (clock w)) !! "stderr" = Some (VStr []) /\
   dummy_result command (VStamp (clock w)) !! "timeout" = Some (VBool false) /\
   dummy_result command (VStamp (clock w)) !! "runtime" = Some (VInt 0)) /\
  (dummy w = false ->
   match run_process fuel command timeout debug stdin po pe w with
   | Ok _ (w', oc) =>
       oc <> None /\
       exists evs evs',
         trace w' = trace w ++ evs
                    ++ [Popen command (match stdin with None => false | Some _ => true end)]
                    ++ evs'
   | Raise e (w', oc) =>
       (oc <> None /\
        exists evs evs',
          trace w' = trace w ++ evs
                     ++ [Popen command (match stdin with None => false | Some _ => true end)]
                     ++ evs') \/
       (oc = None /\ not_started command debug stdin w w' e)
   | OutOfFuel => True
   end).
Proof.
  split.
  - intros Hd. split; [|repeat split; reflexivity].
    unfold run_process. destruct (ctrl_c (os w) (progress w)); [reflexivity|].
    destruct debug; cbn [dummy log]; rewrite Hd; reflexivity.
  - apply run_process_spawns.
Qed.

(** C8 in dummy mode and in real mode, same arguments. *)
Lemma dummy_mode_is_module_state_witness :
  run_process 3 ["true"] None false None true true
              (boot true (quiet_env (exits_at 300 0) [] []) 0)
  = Ok (dummy_result ["true"] (VStamp 0))
       (boot true (quiet_env (exits_at 300 0) [] []) 0, None)
  /\
  match run_process 3 ["true"] None false None true true
                    (boot false (quiet_env (exits_at 300 0) [] []) 0) with
  | Ok _ (w', oc) =>
      oc <> None /\
      exists evs evs', trace w' = [] ++ evs ++ [Popen ["true"] false] ++ evs'
  | Raise e (w', oc) =>
      (oc <> None /\
       exists evs evs', trace w' = [] ++ evs ++ [Popen ["true"] false] ++ evs') \/
      (oc = None /\
       not_started ["true"] false None
                   (boot false (quiet_env (exits_at 300 0) [] []) 0) w' e)
  | OutOfFuel => True
  end.
Proof.
  split.
  - apply (dummy_mode_is_module_state 3 ["true"] None false None true true
             (boot true (quiet_env (exits_at 300 0) [] []) 0)).
    reflexivity.
  - apply (proj2 (dummy_mode_is_module_state 3 ["true"] None false None true true
                    (boot false (quiet_env (exits_at 300 0) [] []) 0))).
    reflexivity.
Defined.

(** C8 as the specification words it fails: two calls with the same
    arguments, in worlds that differ only in the module variable
    [dummy]; one is a dummy call that makes no child, the other makes
    the child and waits for it. *)
Lemma same_arguments_different_mode :
  trace_after (run_process 3 ["true"] None false None true true
                 (boot true (quiet_env (exits_at 300 0) [] []) 0)) = []
  /\
  returned (run_process 3 ["true"] None false None true true
              (boot true (quiet_env (exits_at 300 0) [] []) 0)) "runtime"
  = Some (VInt 0)
  /\
  trace_after (run_process 3 ["true"] None false None true true
                 (boot false (quiet_env (exits_at 300 0) [] []) 0))
  = [Popen ["true"] false; Sleep 500; Poll (Some 0)]
  /\
  returned (run_process 3 ["true"] None false None true true
              (boot false (quiet_env (exits_at 300 0) [] []) 0)) "runtime"
  = Some (VSeconds 500).
Proof. repeat split; vm_compute; reflexivity. Qed.

(** ** The byte counts of the input *)


(** At every point of the life of a writer the two counts add up to the
    length of the payload. *)
Lemma writer_counts (accept : nat -> option exn) (data : bytes) (debug : bool)
    (k : nat) :
  let f := Writer.steps k (Writer.init (Writer.fresh_pipe accept) data debug) in
  Writer.bytes_sent f + Writer.bytes_remaining f = Writer.len data /\
  0 <= Writer.bytes_sent f <= Writer.len data.
Proof.
  intros f.
  destruct (steps_in_range k _ (init_in_range (Writer.fresh_pipe accept) data debug))
    as ((H1 & H2 & H3) & H4 & H5 & H6).
  fold f in H1, H2, H3, H4, H5, H6.
  unfold Writer.bytes_sent, Writer.bytes_remaining.
  rewrite H5 in *. cbn in *. lia.
Qed.







(** The counts of that call. *)
Example stdin_counts_abc :
  returned (run_process 3 ["cat"] None false (Some [Byte.x61; Byte.x62; Byte.x63])
              true true
              (boot false
                 (mk_env (exits_at 300 0) (fun _ => false) (fun _ => 0%N)
                         (writer_turn 0 5) [] [] Writer.always_ok starts no_ctrl_c) 0))
           "stdin_bytes_sent" = Some (VInt 3)
  /\
  returned (run_process 3 ["cat"] None false (Some [Byte.x61; Byte.x62; Byte.x63])
              true true
              (boot false
                 (mk_env (exits_at 300 0) (fun _ => false) (fun _ => 0%N)
                         (writer_turn 0 5) [] [] Writer.always_ok starts no_ctrl_c) 0))
           "stdin_bytes_remain" = Some (VInt 0).
Proof. split; vm_compute; reflexivity. Qed.


(** ** The empty payload *)




(** ** The timeout flag *)

Lemma quiet_not_Terminate (evs : list event) : quiet evs -> Terminate ∉ evs.
Proof. intros [H _]. exact H. Qed.



(** The signals of the first of these calls, with the instants they
    were sent at. *)
Example escalation_of_timed_out_call :
  sent_after (run_process 5 ["sleep"; "60"] (Some 700) false None true true
                (boot false (quiet_env dies_of_kill [] []) 0))
  = [(1000, SIGTERM); (1500, SIGKILL)]
  /\
  returned (run_process 5 ["sleep"; "60"] (Some 700) false None true true
              (boot false (quiet_env dies_of_kill [] []) 0)) "exitcode"
  = Some (VInt (-9)).
Proof. split; vm_compute; reflexivity. Qed.

(** A timeout of 0 on a child that has ended before the call: the loop
    makes no poll, the flag is true and SIGTERM is sent at once. *)
Example zero_timeout_flag_true :
  returned (run_process 5 ["true"] (Some 0) false None true true
              (boot false (quiet_env (exits_at 0 0) [] []) 0)) "timeout"
  = Some (VBool true)
  /\
  sent_after (run_process 5 ["true"] (Some 0) false None true true
                (boot false (quiet_env (exits_at 0 0) [] []) 0))
  = [(0, SIGTERM)]
  /\
  status (quiet_env (exits_at 0 0) [] []) [] 0 = Some 0.
Proof. repeat split; vm_compute; reflexivity. Qed.


(** ** The errors of a call *)

(** What a call that raises before there is a child has done. *)
Lemma not_started_pending (command : list string) (debug : bool)
    (input : option bytes) (e : env) (t0 : Z) (w' : world) (x : exn) :
  not_started command debug input (boot false e t0) w' x ->
  launch e command = Some x \/
  (x = KeyboardInterrupt /\ ctrl_c e (progress w') = true).
Proof.
  unfold not_started, boot. cbn [os].
  intros [(-> & H & ->)|[(-> & H & ->)|(H & _)]]; auto.
Qed.

(** C2 (as the code has it). For a call on a real process, made
    without [debug] or with a timeout: when it returns, the dictionary
    holds the integer exit status that a poll has found.  When it
    raises, either there is no child, and then nothing was sent and the
    exception is the one [Popen] raised for the command, or
    [KeyboardInterrupt] for Ctrl+C before [Popen]; or there is a child
    and the exception is one of three.  "Process won't terminate": this
    one exactly when no poll has found an exit status by the end of the
    two stages of the shutdown, so after SIGTERM and its wait, then
    SIGKILL and its wait, the last poll saying that the child runs.
    "thread did not terminate": the child has ended (its exit status is
    known) but a reader of its output has not finished when its output
    is fetched.  [KeyboardInterrupt]: Ctrl+C arrived, during a sleep or
    at another operation of the supervisor.  When [Popen] raises and no
    Ctrl+C arrives, the call raises that exception.  And the call does
    end: once the fuel covers the sleeps up to an instant from which on
    the deadline has passed or the child has ended, the outcome is one
    of these. *)
Theorem errors_of_real_call (fuel : nat) (command : list string)
    (timeout : option Z) (debug : bool) (stdin : option bytes) (po pe : bool)
    (e : env) (t0 : Z) :
  debug = false \/ timeout <> None ->
  match run_process fuel command timeout debug stdin po pe (boot false e t0) with
  | Ok d (w', oc) =>
      exists c' code,
        oc = Some c' /\ returncode c' = Some code /\
        d !! "exitcode" = Some (VInt code)
  | Raise x (w', oc) =>
      (oc = None /\ sent w' = [] /\
       (launch e command = Some x \/
        (x = KeyboardInterrupt /\ ctrl_c e (progress w') = true))) \/
      (exists c',
         oc = Some c' /\ launch e command = None /\
         ((x = Exception "Process won't terminate" /\ returncode c' = None /\
           exists evs1 evs2 evs3,
             trace w' = evs1 ++ [Terminate] ++ evs2 ++ [Kill] ++ evs3 ++ [Poll None] /\
             quiet evs1 /\ quiet evs2 /\ quiet evs3) \/
          (x = Exception "thread did not terminate" /\ returncode c' <> None /\
           (Reader.has_finished (stdout c') = false \/
            Reader.has_finished (stderr c') = false)) \/
          (x = KeyboardInterrupt /\
           (interrupted e (pred (naps w')) = true \/
            ctrl_c e (progress w') = true))))
  | OutOfFuel => True
  end /\
  (forall x,
     launch e command = Some x -> (forall k, ctrl_c e k = false) ->
     exists w',
       run_process fuel command timeout debug stdin po pe (boot false e t0)
       = Raise x (w', None) /\ sent w' = []) /\
  (forall X,
     (forall T, X <= T ->
        (exists t, timeout = Some t /\ t0 + t <= T) \/ status e [] T <> None) ->
     X <= t0 + 500 * Z.of_nat fuel ->
     run_process (S fuel) command timeout debug stdin po pe (boot false e t0)
     <> OutOfFuel).
Proof.
  intros Hdbg.
  destruct (started_boot command debug stdin po pe e t0)
    as (B1 & B2 & B3 & B4 & B5 & B6 & B7 & B8).
  split; [|split].
  - pose proof (run_process_outcome fuel command timeout debug stdin po pe
                  (boot false e t0) eq_refl) as H.
    destruct (run_process fuel command timeout debug stdin po pe (boot false e t0))
      as [d [w' oc]|x [w' oc]|]; [| |exact I].
    + destruct H as (_ & c' & -> & (code & H1 & H2) & _).
      exists c', code. auto.
    + destruct H as [(-> & N)|((_ & _ & Hl) & c' & -> & Hos & H)].
      { left. split; [reflexivity|].
        split; [apply (not_started_boot _ _ _ _ _ _ _ N)|].
        exact (not_started_pending _ _ _ _ _ _ _ N). }
      right. exists c'. split; [reflexivity|]. split; [exact Hl|].
      cbn [fst snd boot clock] in *. rewrite B1 in *. unfold pending in H.
      cbn [fst] in H. rewrite Hos in H.
      destruct H as [(-> & H)
                    |[(-> & H1 & e1 & e2 & e3 & H2 & H3 & H4 & H5)
                     |[(-> & H1 & H2)|(-> & H1 & H2 & _)]]].
      * right. right. split; [reflexivity|].
        destruct H as [(Hi & _)|[([Hi|Hp] & _)|(Hp & _)]]; auto.
      * left. split; [reflexivity|]. split; [exact H1|].
        exists (trace (started command debug stdin po pe (boot false e t0)).1 ++ e1),
               e2, e3.
        split; [rewrite H2, <- !app_assoc; reflexivity|].
        auto with quiet.
      * right. left. auto.
      * exfalso. destruct Hdbg as [Hdbg|Hdbg]; [congruence|].
        destruct timeout; [discriminate H2|congruence].
  - intros x Hl Hcc.
    destruct (run_process_cases fuel command timeout debug stdin po pe
                (boot false e t0) eq_refl) as [((_ & _ & S) & _)|(x' & w' & N & Hrun)].
    { cbn [boot os] in S. congruence. }
    exists w'. destruct (not_started_pending _ _ _ _ _ _ _ N) as [H|(_ & H)].
    + assert (x' = x) as -> by congruence.
      split; [exact Hrun|apply (not_started_boot _ _ _ _ _ _ _ N)].
    + rewrite Hcc in H. discriminate.
  - intros X HX Hf. apply (run_process_halts _ _ _ _ _ _ _ _ X).
    + reflexivity.
    + exact HX.
    + exact Hf.
Qed.

(** C2 on a child that nothing stops, with a timeout of 0.7 s: the call
    raises "Process won't terminate" after the whole escalation. *)
Lemma errors_of_real_call_witness :
  match run_process 5 ["sleep"; "60"] (Some 700) false None true true
                    (boot false (quiet_env immortal [] []) 0) with
  | Raise x (w', oc) =>
      x = Exception "Process won't terminate" /\
      ((oc = None /\ sent w' = [] /\
        (launch (quiet_env immortal [] []) ["sleep"; "60"] = Some x \/
         (x = KeyboardInterrupt /\
          ctrl_c (quiet_env immortal [] []) (progress w') = true))) \/
       (exists c',
          oc = Some c' /\ launch (quiet_env immortal [] []) ["sleep"; "60"] = None /\
          ((x = Exception "Process won't terminate" /\ returncode c' = None /\
            exists evs1 evs2 evs3,
              trace w' = evs1 ++ [Terminate] ++ evs2 ++ [Kill] ++ evs3 ++ [Poll None] /\
              quiet evs1 /\ quiet evs2 /\ quiet evs3) \/
           (x = Exception "thread did not terminate" /\ returncode c' <> None /\
            (Reader.has_finished (stdout c') = false \/
             Reader.has_finished (stderr c') = false)) \/
           (x = KeyboardInterrupt /\
            (interrupted (quiet_env immortal [] []) (pred (naps w')) = true \/
             ctrl_c (quiet_env immortal [] []) (progress w') = true)))))
  | _ => False
  end /\
  run_process 3 ["sleep"; "60"] (Some 700) false None true true
              (boot false (quiet_env immortal [] []) 0) <> OutOfFuel.
Proof.
  split.
  - pose proof (errors_of_real_call 5 ["sleep"; "60"] (Some 700) false None
                  true true (quiet_env immortal [] []) 0 (or_introl eq_refl))
      as [H _].
    assert (Hx : raised
                   (run_process 5 ["sleep"; "60"] (Some 700) false None true true
                      (boot false (quiet_env immortal [] []) 0))
                 = Some (Exception "Process won't terminate"))
      by (vm_compute; reflexivity).
    destruct (run_process 5 ["sleep"; "60"] (Some 700) false None true true
                (boot false (quiet_env immortal [] []) 0))
      as [d [w' oc]|x [w' oc]|];
      [discriminate Hx| |discriminate Hx].
    unfold raised in Hx. split; [congruence|exact H].
  - pose proof (errors_of_real_call 2 ["sleep"; "60"] (Some 700) false None
                  true true (quiet_env immortal [] []) 0 (or_introl eq_refl))
      as (_ & _ & H').
    apply (H' 700).
    + intros T HT. left. exists 700. split; [reflexivity|exact HT].
    + cbn. lia.
Defined.

(** The trace of that call. *)
Example escalation_that_fails :
  trace_after (run_process 5 ["sleep"; "60"] (Some 700) false None true true
                 (boot false (quiet_env immortal [] []) 0))
  = [Popen ["sleep"; "60"] false; Sleep 500; Poll None; Sleep 500; Poll None;
     Terminate; Sleep 500; Poll None; Kill; Sleep 500; Poll None].
Proof. vm_compute. reflexivity. Qed.

(** A command that [Popen] cannot start: the call raises what [Popen]
    raised; there is no child and nothing is sent. *)
Example popen_error_goes_to_caller :
  run_process 5 ["/nonexistent/cmd"] None false None true true
              (boot false no_such_command 0)
  = Raise (OtherError "OSError")
          (log (Popen ["/nonexistent/cmd"] false) (boot false no_such_command 0), None).
Proof. reflexivity. Qed.

(** C2 as the specification words it fails: the child ends on its own
    after 0.3 s with status 0, but its stdout pipe has not reached the
    end of file when the supervisor fetches the output; the call raises
    "thread did not terminate" although the child is not alive and no
    signal was ever sent. *)
Lemma error_without_escalation :
  raised (run_process 5 ["sh"; "-c"; "sleep 60 &"] None false None true true
            (boot false
               (mk_env (exits_at 300 0) (fun _ => false) (fun _ => 0%N)
                       stalled_stdout [] [] Writer.always_ok starts no_ctrl_c) 0))
  = Some (Exception "thread did not terminate")
  /\
  returncode_after
    (run_process 5 ["sh"; "-c"; "sleep 60 &"] None false None true true
       (boot false
          (mk_env (exits_at 300 0) (fun _ => false) (fun _ => 0%N)
                  stalled_stdout [] [] Writer.always_ok starts no_ctrl_c) 0))
  = Some 0
  /\
  sent_after
    (run_process 5 ["sh"; "-c"; "sleep 60 &"] None false None true true
       (boot false
          (mk_env (exits_at 300 0) (fun _ => false) (fun _ => 0%N)
                  stalled_stdout [] [] Writer.always_ok starts no_ctrl_c) 0))
  = []
  /\
  trace_after
    (run_process 5 ["sh"; "-c"; "sleep 60 &"] None false None true true
       (boot false
          (mk_env (exits_at 300 0) (fun _ => false) (fun _ => 0%N)
                  stalled_stdout [] [] Writer.always_ok starts no_ctrl_c) 0))
  = [Popen ["sh"; "-c"; "sleep 60 &"] false; Sleep 500; Poll (Some 0)].
Proof. repeat split; vm_compute; reflexivity. Qed.

(** * Further properties of the helpers *)

(** ** The writer on any pipe *)

Section WriterAnyPipe.
Import Writer.

Lemma next_block_take (w : t) :
  in_range w ->
  next_block w
  = take (Z.to_nat (_max_block_len w)) (drop (Z.to_nat (_buffer_pos w)) (_buffer w)).
Proof.
  intros (Hl & Hp & Hm). unfold next_block, slice, slice_from, len in *.
  destruct (Z.gtb_spec (_buffer_len w - _buffer_pos w) (_max_block_len w)).
  - f_equal. lia.
  - symmetry. apply take_ge. rewrite length_drop. lia.
Qed.

Lemma sent_prefix_step (data : bytes) (w : t) :
  sent_prefix data w -> sent_prefix data (step w).
Proof.
  intros (Hb & Hr & Hc).
  destruct (step_in_range w Hr) as (S1 & S2 & S3 & S4).
  split; [congruence|]. split; [exact S1|].
  unfold step in *. destruct (_thread w) eqn:Ht; try exact Hc.
  destruct (Z.ltb_spec (_buffer_pos w) (_buffer_len w)) as [Hlt|Hge]; [|exact Hc].
  destruct (next_block_len w Hr Hlt) as (B1 & B2 & B3).
  unfold write in *.
  destruct (accept (_stream w) (length (written (_stream w)))) as [e|].
  - destruct e as [|m|errno|m|m]; try destruct (errno =? 32); exact Hc.
  - cbn. rewrite concat_app, Hc. cbn. rewrite app_nil_r.
    rewrite B3 at 1. rewrite Hb, take_take_drop. f_equal.
    destruct Hr as (_ & ? & _). lia.
Qed.

Lemma sent_prefix_steps (data : bytes) (n : nat) (w : t) :
  sent_prefix data w -> sent_prefix data (steps n w).
Proof.
  revert w. induction n as [|n IH]; intros w H; [exact H|].
  rewrite writer_steps_S. apply IH, sent_prefix_step, H.
Qed.

End WriterAnyPipe.

(** X1. Whatever the pipe does to the writes (success, broken pipe, any
    other exception, in any order) and however long the writer thread
    has run, the blocks it has written are, put together, exactly the
    first [bytes_sent()] bytes of the payload, and the position never
    goes back. *)
Theorem written_is_sent_prefix (accept : nat -> option exn) (data : bytes)
    (debug : bool) (n k : nat) :
  let w := Writer.steps n (Writer.init (Writer.fresh_pipe accept) data debug) in
  concat (Writer.written (Writer._stream w))
  = take (Z.to_nat (Writer.bytes_sent w)) data /\
  0 <= Writer.bytes_sent w <= Writer.len data /\
  Writer.bytes_sent w <= Writer.bytes_sent (Writer.steps k w).
Proof.
  intros w.
  assert (H0 : sent_prefix data (Writer.init (Writer.fresh_pipe accept) data debug)).
  { split; [reflexivity|]. split; [apply init_in_range|reflexivity]. }
  destruct (sent_prefix_steps data n _ H0) as (H1 & H2 & H3). fold w in H1, H2, H3.
  split; [exact H3|].
  destruct (writer_counts accept data debug n) as [_ C]. fold w in C.
  split; [exact C|].
  destruct (steps_in_range k w H2) as (_ & _ & _ & P). exact P.
Qed.

(** A pipe that takes one block of 4096 bytes and then fails with an
    I/O error other than a broken pipe: the thread dies, and what was
    written is still the first [bytes_sent()] bytes. *)
Example written_before_failure :
  let w := Writer.steps 5
             (Writer.init
                (Writer.fresh_pipe
                   (fun i => if (i <? 1)%nat then None else Some (IOError 5)))
                (repeat Byte.x61 5000) false) in
  Writer.bytes_sent w = 4096 /\ Writer.bytes_remaining w = 904 /\
  Writer._thread w = Died (IOError 5) /\ Writer.has_finished w = false /\
  map Writer.len (Writer.written (Writer._stream w)) = [4096].
Proof. vm_compute. repeat split. Qed.

(** ** The blocks the writer makes *)

Lemma chunks_fuel (m : nat) (f f' : nat) (b : bytes) :
  (0 < m)%nat -> (length b <= f)%nat -> (length b <= f')%nat ->
  chunks f m b = chunks f' m b.
Proof.
  intros Hm. revert f' b. induction f as [|f IH]; intros f' b Hf Hf'.
  - destruct b; [|cbn in Hf; lia]. destruct f'; reflexivity.
  - destruct b as [|x b]; [destruct f'; reflexivity|].
    destruct f' as [|f']; [cbn in Hf'; lia|].
    cbn [chunks]. f_equal. apply IH.
    + rewrite length_drop. cbn [length] in *. lia.
    + rewrite length_drop. cbn [length] in *. lia.
Qed.

Lemma blocks_nil (m : nat) : blocks m [] = [].
Proof. reflexivity. Qed.

Lemma blocks_cons (m : nat) (b : bytes) :
  (0 < m)%nat -> b <> [] -> blocks m b = take m b :: blocks m (drop m b).
Proof.
  intros Hm Hb. unfold blocks. destruct b as [|x b]; [congruence|].
  cbn [length chunks]. f_equal. apply chunks_fuel; [exact Hm| |lia].
  rewrite length_drop. cbn [length]. lia.
Qed.

Lemma chunks_lookup (m f : nat) (b : bytes) (i : nat) (blk : bytes) :
  chunks f m b !! i = Some blk ->
  blk = take m (drop (i * m) b) /\ (i * m < length b)%nat.
Proof.
  revert b i. induction f as [|f IH]; intros b i H; [discriminate H|].
  destruct b as [|x b]; [discriminate H|]. cbn [chunks] in H.
  destruct i as [|j].
  - injection H as <-. split; [reflexivity|cbn; lia].
  - cbn [lookup list_lookup] in H. apply IH in H as [H1 H2].
    rewrite drop_drop in H1. rewrite length_drop in H2.
    split; [rewrite H1; f_equal; f_equal; lia|lia].
Qed.

Section WriterBlocks.
Import Writer.

Lemma feed_blocks (data : bytes) (k : nat) (w : t) :
  fed data w -> _thread w = Running ->
  _buffer_len w - _buffer_pos w <= Z.of_nat k ->
  written (_stream (steps (S k) w))
  = written (_stream w)
    ++ blocks (Z.to_nat (_max_block_len w)) (drop (Z.to_nat (_buffer_pos w)) data).
Proof.
  revert w. induction k as [|k IH]; intros w Hfed Ht Hk.
  - destruct Hfed as (Hb & (Hl & Hp & Hm) & Ha & Hc & Hf).
    change (steps 1 w) with (step w). rewrite (step_done w Ht) by lia. cbn.
    rewrite drop_ge; [rewrite app_nil_r; reflexivity|].
    rewrite <- Hb. unfold len in Hl. lia.
  - rewrite writer_steps_S.
    destruct (Z.lt_ge_cases (_buffer_pos w) (_buffer_len w)) as [Hlt|Hge].
    + destruct (fed_step data w Hfed Ht Hlt) as (F1 & F2 & F3 & F4 & F5).
      rewrite (IH (step w) F1 F2) by lia. rewrite F5.
      destruct Hfed as (Hb & Hr & Ha & Hc & Hf).
      destruct (next_block_len w Hr Hlt) as (B1 & B2 & _).
      rewrite (step_write_ok w Ht Hlt (Ha _)). cbn.
      rewrite <- app_assoc. f_equal. cbn.
      destruct Hr as (Hl & Hp & Hm).
      rewrite (blocks_cons _ (drop (Z.to_nat (_buffer_pos w)) data)).
      * rewrite (next_block_take w) by (repeat split; lia). rewrite Hb.
        f_equal. f_equal. rewrite drop_drop.
        rewrite <- Hb. unfold len in *.
        destruct (Z.gtb_spec (_buffer_len w - _buffer_pos w) (_max_block_len w)).
        -- f_equal. rewrite length_take, length_drop. lia.
        -- rewrite !drop_ge; [reflexivity| |]; rewrite ?length_take, ?length_drop; lia.
      * lia.
      * intros Hnil. apply (f_equal length) in Hnil.
        rewrite length_drop in Hnil. rewrite <- Hb in Hnil. unfold len in Hl.
        cbn in Hnil. lia.
    + destruct Hfed as (Hb & (Hl & Hp & Hm) & Ha & Hc & Hf).
      rewrite writer_over; rewrite (step_done w Ht) by lia; [|discriminate].
      cbn. rewrite drop_ge; [rewrite app_nil_r; reflexivity|].
      rewrite <- Hb. unfold len in Hl. lia.
Qed.

End WriterBlocks.

(** X2. On a pipe whose writes all succeed the writes of the writer
    thread are exactly the payload cut into consecutive blocks of 4096
    bytes: the [i]-th write is the slice of the payload that starts at
    byte [4096 * i] and is 4096 bytes long, or shorter when the payload
    ends before; so every block but the last has 4096 bytes, and no
    block is empty. *)
Theorem feed_writes_4096_byte_slices (accept : nat -> option exn) (data : bytes)
    (debug : bool) (n : nat) :
  (forall k, accept k = None) ->
  (length data < n)%nat ->
  let w := Writer.steps n (Writer.init (Writer.fresh_pipe accept) data debug) in
  Writer.written (Writer._stream w) = blocks (Z.to_nat 4096) data /\
  forall i blk,
    Writer.written (Writer._stream w) !! i = Some blk ->
    blk = take (Z.to_nat 4096) (drop (i * Z.to_nat 4096) data) /\
    (i * Z.to_nat 4096 < length data)%nat.
Proof.
  intros Ha Hn w.
  assert (H : Writer.written (Writer._stream w) = blocks (Z.to_nat 4096) data).
  { unfold w. destruct n as [|k]; [lia|].
    rewrite (feed_blocks data k); [reflexivity|apply init_fed, Ha|reflexivity|].
    unfold Writer.init, Writer.len; cbn [Writer._buffer_len Writer._buffer_pos]. lia. }
  split; [exact H|].
  intros i blk Hi. rewrite H in Hi. unfold blocks in Hi.
  apply chunks_lookup in Hi. exact Hi.
Qed.

(** X2 at a payload of 4100 bytes. *)
Lemma feed_writes_4096_byte_slices_witness :
  Writer.written
    (Writer._stream
       (Writer.steps 4101
          (Writer.init (Writer.fresh_pipe Writer.always_ok)
                       (repeat Byte.x61 4100) false)))
  = blocks (Z.to_nat 4096) (repeat Byte.x61 4100).
Proof.
  apply (feed_writes_4096_byte_slices Writer.always_ok (repeat Byte.x61 4100)
           false 4101).
  - reflexivity.
  - rewrite repeat_length. apply Nat.lt_succ_diag_r.
Defined.

(** ** What the reader keeps *)

Section ReaderKeeps.
Import Reader.

Lemma step_appends (r : t) :
  exists more,
    _buffer (step r) = _buffer r ++ more /\
    printed (step r) = printed r ++ (if output r then
                                       match more with [] => [] | _ => [more] end
                                     else []) /\
    output (step r) = output r.
Proof.
  unfold step. destruct (_thread r).
  - destruct (readline (_stream r)) as [[e|[|b l]] s']; cbn.
    + exists []. destruct (output r); rewrite ?app_nil_r; auto.
    + exists []. destruct (output r); rewrite ?app_nil_r; auto.
    + exists (b :: l). destruct (output r); rewrite ?app_nil_r; auto.
  - exists []. destruct (output r); rewrite ?app_nil_r; auto.
  - exists []. destruct (output r); rewrite ?app_nil_r; auto.
Qed.

Lemma steps_append (n : nat) (r : t) :
  exists more lines,
    _buffer (steps n r) = _buffer r ++ more /\
    printed (steps n r) = printed r ++ lines /\
    (output r = true -> concat lines = more) /\
    (output r = false -> lines = []) /\
    output (steps n r) = output r.
Proof.
  revert r. induction n as [|n IH]; intros r.
  - exists [], []. cbn. rewrite !app_nil_r. auto.
  - rewrite reader_steps_S.
    destruct (step_appends r) as (m1 & A1 & A2 & A3).
    destruct (IH (step r)) as (m2 & l2 & B1 & B2 & B3 & B4 & B5).
    exists (m1 ++ m2),
           ((if output r then match m1 with [] => [] | _ => [m1] end else []) ++ l2).
    rewrite B1, B2, A1, A2, B5, A3, <- !app_assoc.
    split; [reflexivity|]. split; [reflexivity|]. split; [|split; [|reflexivity]].
    + intros Ho. rewrite Ho, concat_app, B3 by congruence.
      f_equal. destruct m1; cbn; rewrite ?app_nil_r; reflexivity.
    + intros Ho. rewrite Ho, B4 by congruence. reflexivity.
Qed.

Lemma steps_data_printed (pre rest : list item) (r : t) :
  Forall is_data pre ->
  _thread r = Running ->
  _stream r = pre ++ rest ->
  printed (steps (length pre) r)
  = printed r ++ (if output r then map payload pre else []) /\
  output (steps (length pre) r) = output r.
Proof.
  intros Hd. revert r.
  induction Hd as [|i pre Hi Hd IH]; intros r Hr Hs.
  - cbn. destruct (output r); rewrite app_nil_r; auto.
  - cbn [length]. rewrite reader_steps_S.
    destruct i as [[|b l]|e]; cbn in Hi; try contradiction.
    assert (Hstep : step r =
      mk (pre ++ rest) (_buffer r ++ b :: l) (_buffer_closed r) (_terminated r)
         (_closed r) (output r)
         (if output r then printed r ++ [b :: l] else printed r) Running).
    { unfold step. rewrite Hr, Hs. reflexivity. }
    destruct (IH (step r)) as (H1 & H2).
    + rewrite Hstep. reflexivity.
    + rewrite Hstep. reflexivity.
    + rewrite H1, H2, Hstep. cbn.
      destruct (output r); rewrite <- ?app_assoc; auto.
Qed.

End ReaderKeeps.

(** X3. The reader thread only ever appends: whatever the pipe gives
    (lines, the end of the file, exceptions) and however many
    iterations the thread runs, the buffer it had stays a prefix of the
    buffer it has, the flag [_closed] is not touched, and a set
    [_terminated] stays set.  With [output] on, the lines printed since
    are, put together, exactly the bytes appended since; with [output]
    off nothing is printed. *)
Theorem reader_only_appends (r : Reader.t) (n : nat) :
  exists more lines,
    Reader._buffer (Reader.steps n r) = Reader._buffer r ++ more /\
    Reader.printed (Reader.steps n r) = Reader.printed r ++ lines /\
    (Reader.output r = true -> concat lines = more) /\
    (Reader.output r = false -> lines = []) /\
    Reader._closed (Reader.steps n r) = Reader._closed r /\
    (Reader.has_finished r = true -> Reader.has_finished (Reader.steps n r) = true).
Proof.
  destruct (steps_append n r) as (more & lines & H1 & H2 & H3 & H4 & _).
  exists more, lines. repeat split; try assumption.
  - apply steps_closed.
  - apply steps_stay_terminated.
Qed.

(** X3 at a reader that has one line of a pipe behind it. *)
Lemma reader_only_appends_witness :
  exists more lines,
    Reader._buffer
      (Reader.steps 3
         (Reader.steps 1
            (Reader.init [Reader.Line [Byte.x61]; Reader.Line [Byte.x62]] true)))
    = [Byte.x61] ++ more /\
    Reader.printed
      (Reader.steps 3
         (Reader.steps 1
            (Reader.init [Reader.Line [Byte.x61]; Reader.Line [Byte.x62]] true)))
    = [[Byte.x61]] ++ lines /\
    concat lines = more.
Proof.
  destruct (reader_only_appends
              (Reader.steps 1
                 (Reader.init [Reader.Line [Byte.x61]; Reader.Line [Byte.x62]] true))
              3)
    as (more & lines & H1 & H2 & H3 & _).
  exists more, lines. split; [exact H1|]. split; [exact H2|].
  apply H3. reflexivity.
Defined.

(** X4. From a pipe that gives the lines [pre] and then ends, a reader
    whose thread has run more than [length pre] iterations has finished;
    [get_output] gives the lines in the order they came, none lost and
    none twice, and with [output] on exactly these lines were printed,
    one by one, with [output] off none. *)
Theorem reader_collects_in_order (pre : list Reader.item) (output : bool) (n : nat) :
  Forall Reader.is_data pre ->
  (length pre < n)%nat ->
  let r := Reader.steps n (Reader.init pre output) in
  Reader.has_finished r = true /\
  (Reader.get_output r).1 = inr (concat (map Reader.payload pre)) /\
  Reader.printed r = (if output then map Reader.payload pre else []) /\
  Reader.has_finished (Reader.get_output r).2 = true /\
  Reader._closed (Reader.get_output r).2 = true.
Proof.
  intros Hd Hn r.
  destruct (steps_data pre [] (Reader.init pre output) Hd eq_refl)
    as (H1 & H2 & H3 & H4).
  { cbn. rewrite app_nil_r. reflexivity. }
  destruct (steps_data_printed pre [] (Reader.init pre output) Hd eq_refl)
    as (P1 & P2).
  { cbn. rewrite app_nil_r. reflexivity. }
  assert (Hr : r = Reader.step (Reader.steps (length pre) (Reader.init pre output))).
  { unfold r. rewrite (steps_split n (length pre)) by exact Hn.
    apply reader_over. rewrite (step_eof _ H1 H2). discriminate. }
  rewrite (step_eof _ H1 H2) in Hr.
  assert (Hc : Reader._closed r = false).
  { unfold r. rewrite steps_closed. reflexivity. }
  assert (Hf : Reader.has_finished r = true) by (rewrite Hr; reflexivity).
  split; [exact Hf|].
  rewrite (get_output_first r Hf Hc). cbn.
  split; [rewrite Hr; cbn; rewrite H3; reflexivity|].
  split; [rewrite Hr; cbn; rewrite P1; reflexivity|].
  split; reflexivity.
Qed.

(** X4 at a pipe with the two lines "hi" and "yo". *)
Lemma reader_collects_in_order_witness :
  (Reader.get_output
     (Reader.steps 3
        (Reader.init [Reader.Line [Byte.x68; Byte.x69; Byte.x0a];
                      Reader.Line [Byte.x79; Byte.x6f; Byte.x0a]] true))).1
  = inr [Byte.x68; Byte.x69; Byte.x0a; Byte.x79; Byte.x6f; Byte.x0a].
Proof.
  apply (reader_collects_in_order
           [Reader.Line [Byte.x68; Byte.x69; Byte.x0a];
            Reader.Line [Byte.x79; Byte.x6f; Byte.x0a]] true 3).
  - repeat constructor.
  - cbn. lia.
Defined.

(** * Further properties of the supervisor *)

(** ** The run, stage by stage *)

Lemma wp_any {A} (m : M A) (Q : A -> state -> Prop) (E : exn -> state -> Prop)
    (s : state) :
  (forall a s', Q a s') -> (forall e s', E e s') -> wp m Q E s.
Proof. intros HQ HE. unfold wp. destruct (m s); auto. Qed.

(** A stage that was left after its signal was not left before it. *)
Lemma stage_interrupted_not_aborted (ev : event) (s s' : state) (e : exn) :
  ev = Terminate \/ ev = Kill ->
  stage_interrupted ev s s' -> aborted s s' e -> False.
Proof.
  intros Hev (_ & (e1 & e2 & H1 & _) & _) (_ & _ & _ & _ & evs & H2 & H3 & H4).
  rewrite H1 in H2. apply app_inv_head in H2. subst evs.
  destruct Hev as [-> | ->].
  - apply H3. rewrite !elem_of_app. right. left. apply elem_of_cons. left. reflexivity.
  - apply H4. rewrite !elem_of_app. right. left. apply elem_of_cons. left. reflexivity.
Qed.

(** Ctrl+C in the first stage: before [p.terminate()], or after it, and
    then SIGTERM is all that was sent. *)
Lemma terminate_stage_interrupted_sent (mt : option Z) (debug : bool) (s : state) :
  wp (terminate_stage mt debug)
     (fun _ _ => True)
     (fun e s' => e = KeyboardInterrupt ->
                  aborted s s' e \/
                  sent s'.1 = sent s.1 ++ [(clock s.1, SIGTERM)]) s.
Proof.
  unfold terminate_stage. apply wp_bind, wp_get_returncode.
  { intros Hp _. left. apply aborted_here, Hp. }
  destruct (returncode s.2) as [x|]; [apply (wp_ret (A := bool)); exact I|].
  destruct s as [w c].
  assert (Hgo : forall pre, quiet pre ->
            wp (terminate ;; sleep 500 ;; u <- drains_unfinished ;;
                when u (sleep 2000) ;; poll ;; ret true)
               (fun _ _ => True)
               (fun e s' => e = KeyboardInterrupt ->
                            aborted (w, c) s' e \/
                            sent s'.1 = sent w ++ [(clock w, SIGTERM)])
               (mk_world (dummy w) (os w) (clock w) (naps w) (turns w) (sent w)
                         (trace w ++ pre), c)).
  { intros pre Hpre. apply wp_bind, wp_terminate.
    { intros Hp _. left. eapply aborted_at; [exact Hp|reflexivity..|exact Hpre]. }
    apply wp_grace; [lia| |].
    - intros [w1 c1] (R & _). cbn in R. apply wp_bind, wp_poll.
      + intros _ _. right. exact R.
      + intros rc _. apply (wp_ret (A := bool)). exact I.
    - intros s' (R & _) _ _. right. exact R. }
  apply wp_bind, wp_when.
  - intros _. apply wp_bind, wp_default_timer.
    { intros Hp _. left. apply aborted_here, Hp. }
    apply wp_bind, wp_read_max_time.
    + intros m _. apply wp_print.
      { intros Hp _. left. apply aborted_here, Hp. }
      apply (Hgo [Print (TimeoutAt (clock w - m))]). auto with quiet.
    + intros _. discriminate.
  - intros _. specialize (Hgo [] quiet_nil). rewrite app_nil_r in Hgo.
    destruct w as [d o cl np tu se tr]. exact Hgo.
Qed.

(** Ctrl+C in the second stage: before [p.kill()], or after it. *)
Lemma kill_stage_interrupted_sent (s : state) :
  wp kill_stage
     (fun _ _ => True)
     (fun e s' => aborted s s' e \/
                  sent s'.1 = sent s.1 ++ [(clock s.1, SIGKILL)]) s.
Proof.
  unfold kill_stage. apply wp_bind, wp_get_returncode.
  { intros Hp. left. apply aborted_here, Hp. }
  destruct (returncode s.2) as [x|]; [apply (wp_ret (A := unit)); exact I|].
  destruct s as [w c]. apply wp_bind, wp_kill.
  { intros Hp. left. apply aborted_here, Hp. }
  apply wp_grace; [lia| |].
  - intros [w1 c1] (R & _). cbn in R. apply wp_poll.
    + intros _. right. exact R.
    + intros rc _. exact I.
  - intros s' (R & _) _. right. exact R.
Qed.

Lemma wp_shutdown (command : list string) (mt : option Z) (debug : bool)
    (time_start : value) (start_time : Z) (s1 : state) :
  (returncode s1.2 = None -> mt <> None) ->
  Reader._closed (stdout s1.2) = false ->
  Reader._closed (stderr s1.2) = false ->
  wp (te <- terminate_stage mt debug ;;
      kill_stage ;;
      report command mt debug time_start start_time te)
     (fun d s' =>
        exists s2 s3 te,
          shutdown s1 s2 s3 te /\
          reported command time_start start_time te s3 s' d)
     (fun e s' => shutdown_failed mt debug s1 s' e) s1.
Proof.
  intros Hmt Hc1 Hc2. apply wp_bind.
  eapply wp_mono;
    [apply wp_and;
     [apply wp_and; [apply wp_terminate_stage|apply framed_terminate_stage]
     |apply terminate_stage_interrupted_sent]| |].
  2:{ intros e s2 [[[A|(Hn & [[-> SI]|(-> & Hd & Hm & ->)])] F2] HS].
      - left. exact A.
      - destruct (HS eq_refl) as [A|HS'].
        + exfalso. exact (stage_interrupted_not_aborted _ _ _ _ (or_introl eq_refl) SI A).
        + right. left. auto.
      - exfalso. exact (Hmt Hn Hm). }
  intros te s2 [[T F2] _]. cbv beta. apply wp_bind.
  eapply wp_mono;
    [apply wp_and;
     [apply wp_and; [apply wp_kill_stage|apply framed_kill_stage]
     |apply kill_stage_interrupted_sent]| |].
  2:{ intros e s3 [[[A|(Hn & -> & SI)] F3] HS].
      - right. right. left. exists s2, te. auto.
      - destruct HS as [A|HS].
        + exfalso. exact (stage_interrupted_not_aborted _ _ _ _ (or_intror eq_refl) SI A).
        + right. right. right. left. exists s2, te. auto 10. }
  intros ? s3 [[K F3] _]. cbv beta.
  assert (F13 : evolves s1 s3) by eauto using evolves_trans.
  destruct (evolves_closed _ _ F13) as [C1 C2].
  assert (St : shutdown s1 s2 s3 te) by (constructor; assumption).
  eapply wp_mono; [apply wp_report; congruence| |].
  - intros d s' R. exists s2, s3, te. auto.
  - intros e s' R. right. right. right. right. exists s2, s3, te. auto.
Qed.

Lemma wp_supervise_stages (fuel : nat) (command : list string) (timeout : option Z)
    (debug : bool) (time_start : value) (start_time : Z) (mt : option Z)
    (s0 : state) :
  (timeout = None <-> mt = None) ->
  Reader._closed (stdout s0.2) = false ->
  Reader._closed (stderr s0.2) = false ->
  wp (supervise fuel command timeout debug time_start start_time mt)
     (fun d s' =>
        exists s1 s2 s3 te,
          loop_over mt s0 s1 /\ evolves s0 s1 /\ shutdown s1 s2 s3 te /\
          reported command time_start start_time te s3 s' d)
     (fun e s' => run_failed mt debug s0 s' e) s0.
Proof.
  intros Hm Hc1 Hc2. unfold supervise. apply wp_bind.
  eapply wp_mono;
    [apply wp_and;
     [apply (wp_poll_loop fuel timeout mt debug s0 Hm)|apply framed_poll_loop]| |].
  2:{ intros e s1 [[L|A] _]; [left; exact L|right; left; exact A]. }
  intros ? s1 [L F1]. cbv beta.
  destruct (evolves_closed _ _ F1) as [C1 C2].
  eapply wp_mono; [apply wp_shutdown; try congruence| |].
  - intros Hn. destruct L as (_ & _ & _ & _ & _ & L). rewrite Hn in L.
    destruct L as (m & L & _). congruence.
  - intros d s' (s2 & s3 & te & H1 & H2). exists s1, s2, s3, te. auto.
  - intros e s' H. right. right. exists s1. auto.
Qed.

(** The state a real call starts its polling loop in. *)
Lemma started_facts (command : list string) (debug : bool) (input : option bytes)
    (po pe : bool) (w : world) :
  let s0 := started command debug input po pe w in
  os s0.1 = os w /\ clock s0.1 = clock w /\ sent s0.1 = sent w /\
  returncode s0.2 = None /\
  Reader._closed (stdout s0.2) = false /\ Reader._closed (stderr s0.2) = false /\
  trace s0.1
  = trace w ++ (if debug then [Print (Starting command)] else [])
            ++ [Popen command (match input with None => false | Some _ => true end)].
Proof.
  unfold started, launched. destruct debug; cbn; repeat split; try reflexivity.
  rewrite <- app_assoc. reflexivity.
Qed.

(** What a call that ends before there is a child has done. *)
Lemma not_started_facts (command : list string) (debug : bool) (input : option bytes)
    (w w' : world) (e : exn) :
  not_started command debug input w w' e ->
  sent w' = sent w /\ os w' = os w /\ clock w' = clock w /\
  (exists evs, trace w' = trace w ++ evs /\ quiet evs) /\
  (launch (os w) command = Some e \/
   (e = KeyboardInterrupt /\ ctrl_c (os w) (progress w') = true)).
Proof.
  unfold not_started.
  intros [(-> & H & ->)|[(-> & H & ->)|(H & ->)]].
  - repeat split; auto. exists []. rewrite app_nil_r. auto with quiet.
  - destruct debug; cbn; repeat split; auto.
    + exists [Print (Starting command)]. split; [reflexivity|]. split; not_in_list.
    + exists []. rewrite app_nil_r. auto with quiet.
  - destruct debug; cbn; repeat split; auto.
    + eexists [_; _]. rewrite <- app_assoc. split; [reflexivity|]. split; not_in_list.
    + eexists [_]. split; [reflexivity|]. split; not_in_list.
Qed.

(** The same for [run_process] in real mode. *)
Lemma run_process_stages (fuel : nat) (command : list string) (timeout : option Z)
    (debug : bool) (input : option bytes) (po pe : bool) (w : world) :
  dummy w = false ->
  match run_process fuel command timeout debug input po pe w with
  | Ok d (w', oc) =>
      exists c' s1 s2 s3 te,
        oc = Some c' /\
        loop_over (deadline (clock w) timeout)
          (started command debug input po pe w) s1 /\
        evolves (started command debug input po pe w) s1 /\
        shutdown s1 s2 s3 te /\
        reported command (strftime w) (clock w) te s3 (w', c') d
  | Raise e (w', oc) =>
      (oc = None /\ not_started command debug input w w' e) \/
      (exists c',
         oc = Some c' /\
         run_failed (deadline (clock w) timeout) debug
           (started command debug input po pe w) (w', c') e)
  | OutOfFuel => True
  end.
Proof.
  intros Hd.
  destruct (run_process_cases fuel command timeout debug input po pe w Hd)
    as [[_ ->]|(e & w' & N & ->)]; [|left; auto].
  pose proof (wp_supervise_stages fuel command timeout debug (strftime w) (clock w)
                (deadline (clock w) timeout)
                (started command debug input po pe w)) as H.
  unfold wp in H.
  destruct (supervise _ _ _ _ _ _ _ _) as [d [w' c']|e [w' c']|]; cbn.
  - destruct H as (s1 & s2 & s3 & te & H1 & H2 & H3 & H4); try reflexivity.
    { destruct timeout; cbn; split; congruence. }
    exists c', s1, s2, s3, te. auto.
  - right. exists c'. split; [reflexivity|]. apply H; try reflexivity.
    destruct timeout; cbn; split; congruence.
  - exact I.
Qed.

(** ** Debug output without a timeout *)

(** Once the exit status is known, the code after the loop of a call
    with [debug] and no timeout gets as far as the last debug message
    and fails there, [max_time] never having been bound; unless Ctrl+C
    arrives first. *)
Lemma shutdown_unbound (command : list string) (time_start : value) (start_time : Z)
    (s : state) (code : Z) :
  returncode s.2 = Some code ->
  (te <- terminate_stage None true ;;
   kill_stage ;;
   report command None true time_start start_time te) s
  = if ctrl_c (os s.1) (progress s.1) then Raise KeyboardInterrupt s
    else Raise (UnboundLocalError "max_time") s.
Proof.
  destruct s as [w c]. cbn [fst snd]. intros H.
  destruct (ctrl_c (os w) (progress w)) eqn:Hc.
  - apply bind_Raise. unfold terminate_stage. apply bind_Raise.
    unfold get_returncode, interruptible. cbn [fst snd]. rewrite Hc. reflexivity.
  - assert (G : get_returncode (w, c) = Ok (Some code) (w, c)).
    { unfold get_returncode, interruptible. cbn [fst snd]. rewrite Hc, H.
      reflexivity. }
    assert (T : default_timer (w, c) = Ok (clock w) (w, c)).
    { unfold default_timer, interruptible. cbn [fst snd]. rewrite Hc. reflexivity. }
    assert (S1 : terminate_stage None true (w, c) = Ok false (w, c)).
    { unfold terminate_stage. rewrite (bind_Ok _ _ _ _ _ G). reflexivity. }
    assert (S2 : kill_stage (w, c) = Ok tt (w, c)).
    { unfold kill_stage. rewrite (bind_Ok _ _ _ _ _ G). reflexivity. }
    rewrite (bind_Ok _ _ _ _ _ S1), (bind_Ok _ _ _ _ _ S2).
    unfold report. rewrite (bind_Ok _ _ _ _ _ G), (bind_Ok _ _ _ _ _ T).
    apply bind_Raise. unfold when. cbv beta iota.
    rewrite (bind_Ok _ _ _ _ _ T). apply bind_Raise. reflexivity.
Qed.

(** X5. A call on a real process with [debug=True] and no timeout never
    returns a dictionary.  Every way out is an exception: the one
    [Popen] raised, or Ctrl+C before [Popen], and then there is no
    child and nothing was sent; [KeyboardInterrupt] for Ctrl+C during a
    sleep of the loop or at another operation of the supervisor; or,
    once a poll has seen the child end, an [UnboundLocalError] for
    [max_time] in the last debug message, with no signal sent and the
    output not fetched.  When [Popen] starts the child, the child ends
    at some instant and no Ctrl+C arrives, the [UnboundLocalError] is
    what the call ends with. *)
Theorem debug_without_timeout_never_returns (fuel : nat) (command : list string)
    (input : option bytes) (po pe : bool) (w : world) :
  dummy w = false ->
  match run_process fuel command None true input po pe w with
  | Ok _ _ => False
  | Raise e (w', oc) =>
      (oc = None /\ sent w' = sent w /\
       (launch (os w) command = Some e \/
        (e = KeyboardInterrupt /\ ctrl_c (os w) (progress w') = true))) \/
      (oc <> None /\ e = KeyboardInterrupt /\
       (interrupted (os w) (pred (naps w')) = true \/
        ctrl_c (os w) (progress w') = true)) \/
      (e = UnboundLocalError "max_time" /\ sent w' = sent w /\
       exists c' code,
         oc = Some c' /\ returncode c' = Some code /\
         Reader._closed (stdout c') = false /\ Reader._closed (stderr c') = false)
  | OutOfFuel => True
  end /\
  (forall X,
     launch (os w) command = None ->
     (forall T, X <= T -> status (os w) (sent w) T <> None) ->
     (forall k, interrupted (os w) k = false) ->
     (forall k, ctrl_c (os w) k = false) ->
     X <= clock w + 500 * Z.of_nat fuel ->
     raised (run_process (S fuel) command None true input po pe w)
     = Some (UnboundLocalError "max_time")).
Proof.
  intros Hd.
  assert (P : forall fuel,
    match run_process fuel command None true input po pe w with
    | Ok _ _ => False
    | Raise e (w', oc) =>
        (oc = None /\ sent w' = sent w /\
         (launch (os w) command = Some e \/
          (e = KeyboardInterrupt /\ ctrl_c (os w) (progress w') = true))) \/
        (oc <> None /\ e = KeyboardInterrupt /\
         (interrupted (os w) (pred (naps w')) = true \/
          ctrl_c (os w) (progress w') = true)) \/
        (e = UnboundLocalError "max_time" /\ sent w' = sent w /\
         exists c' code,
           oc = Some c' /\ returncode c' = Some code /\
           Reader._closed (stdout c') = false /\ Reader._closed (stderr c') = false)
    | OutOfFuel => True
    end).
  { clear fuel. intros fuel.
    destruct (run_process_cases fuel command None true input po pe w Hd)
      as [[_ ->]|(e & w' & N & ->)].
    2:{ left. destruct (not_started_facts _ _ _ _ _ _ N) as (N1 & _ & _ & _ & N2).
        auto. }
    destruct (started_facts command true input po pe w)
      as (B1 & B2 & B3 & B4 & B5 & B6 & B7).
    set (s0 := started command true input po pe w) in *.
    assert (Hm : (None : option Z) = None <-> (None : option Z) = None) by tauto.
    pose proof (wp_poll_loop fuel None None true s0 Hm) as L.
    pose proof (framed_poll_loop fuel None None true s0) as F.
    unfold supervise, deadline. unfold wp in L, F.
    destruct (poll_loop fuel None None true s0) as [[] s1|e s1|] eqn:Hl.
    - rewrite (bind_Ok _ _ _ _ _ Hl).
      destruct L as (L1 & L0 & _ & _ & _ & L).
      destruct (returncode s1.2) as [code|] eqn:Hrc;
        [|destruct L as (m & L & _); discriminate].
      rewrite (shutdown_unbound _ _ _ _ code Hrc).
      destruct (evolves_closed _ _ F) as [C1 C2].
      destruct s1 as [w1 c1]. cbn [with_child fst snd] in *.
      rewrite L0, B1.
      destruct (ctrl_c (os w) (progress w1)) eqn:Hc; cbn [with_child].
      + right. left. split; [discriminate|]. auto.
      + right. right.
        split; [reflexivity|]. split; [congruence|].
        exists c1, code. repeat split; congruence.
    - rewrite (bind_Raise _ _ _ _ _ Hl). destruct s1 as [w1 c1].
      cbn [with_child]. right. left. split; [discriminate|].
      destruct L as [(-> & _ & _ & _ & L2)|(-> & L2 & _ & L3 & _)].
      + cbn [fst] in L2. rewrite B1 in L2. auto.
      + unfold pending in L2. cbn [fst] in L2, L3. rewrite L3, B1 in L2. auto.
    - rewrite (bind_OutOfFuel _ _ _ Hl). exact I. }
  split; [apply P|].
  intros X Hl HX Hi Hcc Hf.
  pose proof (run_process_halts fuel command None true input po pe w X Hd) as H.
  specialize (P (S fuel)).
  destruct (run_process (S fuel) command None true input po pe w)
    as [d f|e [w' oc]|]; [contradiction| |].
  - destruct P as [(_ & _ & [P|[_ P]])|[(_ & _ & [P|P])|[-> _]]];
      [congruence|rewrite Hcc in P; discriminate|rewrite Hi in P; discriminate
      |rewrite Hcc in P; discriminate|reflexivity].
  - exfalso. apply H; [|exact Hf|reflexivity].
    intros T HT. right. apply HX, HT.
Qed.

(** X5 on a child that ends by itself 0.7 s after the start. *)
Lemma debug_without_timeout_never_returns_witness :
  raised (run_process 3 ["true"] None true None true true
                      (boot false (quiet_env (exits_at 700 0) [] []) 0))
  = Some (UnboundLocalError "max_time").
Proof.
  pose proof (debug_without_timeout_never_returns 2 ["true"] None true true
                (boot false (quiet_env (exits_at 700 0) [] []) 0) eq_refl) as [_ H].
  apply (H 700).
  - reflexivity.
  - intros T HT. cbn. unfold exits_at.
    destruct (Z.leb_spec 700 T); [discriminate|lia].
  - reflexivity.
  - reflexivity.
  - cbn. lia.
Defined.

(** ** A timeout that is not positive *)

Lemma poll_loop_skip (fuel : nat) (t m : Z) (debug : bool) (s : state) :
  returncode s.2 = None -> m <= clock s.1 ->
  poll_loop fuel (Some t) (Some m) debug s
  = if ctrl_c (os s.1) (progress s.1) then Raise KeyboardInterrupt s else Ok tt s.
Proof.
  destruct s as [w c]. cbn [fst snd]. intros Hrc Hm.
  destruct (ctrl_c (os w) (progress w)) eqn:Hc.
  - assert (H : still_waiting (Some t) (Some m) (w, c)
                = Raise KeyboardInterrupt (w, c)).
    { unfold still_waiting. apply bind_Raise.
      unfold get_returncode, interruptible. cbn [fst snd]. rewrite Hc. reflexivity. }
    destruct fuel; cbn [poll_loop]; rewrite (bind_Raise _ _ _ _ _ H); reflexivity.
  - assert (G : get_returncode (w, c) = Ok None (w, c)).
    { unfold get_returncode, interruptible. cbn [fst snd]. rewrite Hc, Hrc.
      reflexivity. }
    assert (T : default_timer (w, c) = Ok (clock w) (w, c)).
    { unfold default_timer, interruptible. cbn [fst snd]. rewrite Hc. reflexivity. }
    assert (H : still_waiting (Some t) (Some m) (w, c) = Ok false (w, c)).
    { unfold still_waiting.
      rewrite (bind_Ok _ _ _ _ _ G), (bind_Ok _ _ _ _ _ T).
      unfold bind, read_max_time, ret.
      assert (E : (clock w <? m) = false) by (apply Z.ltb_ge; lia).
      rewrite E. reflexivity. }
    destruct fuel; cbn [poll_loop]; rewrite (bind_Ok _ _ _ _ _ H); reflexivity.
Qed.

Lemma signalled_at_on (T0 : Z) (sg0 : list (Z * signal)) (tr0 : list event)
    (w1 w2 : world) (sg : list (Z * signal)) (evs : list event) :
  signalled_at T0 sg0 tr0 w1 ->
  sent w2 = sent w1 ++ sg -> trace w2 = trace w1 ++ evs ->
  signalled_at T0 sg0 tr0 w2.
Proof.
  intros ((rest & H1) & (ev1 & H2 & H3)) H4 H5. split.
  - exists (rest ++ sg). rewrite H4, H1, <- app_assoc. reflexivity.
  - exists (ev1 ++ evs). rewrite H5, H2, <- app_assoc. split; [reflexivity|].
    apply elem_of_app. left. exact H3.
Qed.

(** X6. A call on a real process with a timeout of zero or less never
    sleeps in the polling loop: whatever the child does, the call goes
    straight to [p.terminate()].  Every dictionary returned has
    [timeout] true, and SIGTERM was sent at the very instant the call
    started.  A call that raises has sent SIGTERM at that instant too,
    unless it ended before [p.terminate()]: then nothing was sent, and
    the exception is the one [Popen] raised or [KeyboardInterrupt] for
    a Ctrl+C that arrived by then.  The call ends whatever the fuel. *)
Theorem nonpositive_timeout_signals_at_once (fuel : nat) (command : list string)
    (t : Z) (debug : bool) (input : option bytes) (po pe : bool) (w : world) :
  dummy w = false ->
  t <= 0 ->
  match run_process fuel command (Some t) debug input po pe w with
  | Ok d (w', _) =>
      d !! "timeout" = Some (VBool true) /\
      (exists rest, sent w' = sent w ++ (clock w, SIGTERM) :: rest) /\
      exists evs, trace w' = trace w ++ evs /\ Terminate ∈ evs
  | Raise e (w', _) =>
      ((exists rest, sent w' = sent w ++ (clock w, SIGTERM) :: rest) /\
       exists evs, trace w' = trace w ++ evs /\ Terminate ∈ evs) \/
      (sent w' = sent w /\
       (exists evs, trace w' = trace w ++ evs /\ quiet evs) /\
       (launch (os w) command = Some e \/
        (e = KeyboardInterrupt /\ ctrl_c (os w) (progress w') = true)))
  | OutOfFuel => False
  end.
Proof.
  intros Hd Ht.
  destruct (run_process_cases fuel command (Some t) debug input po pe w Hd)
    as [[_ ->]|(e & w' & N & ->)].
  2:{ right. destruct (not_started_facts _ _ _ _ _ _ N) as (N1 & _ & _ & N2 & N3).
      auto. }
  destruct (started_facts command debug input po pe w)
    as (B1 & B2 & B3 & B4 & B5 & B6 & B7).
  set (s0 := started command debug input po pe w) in *.
  assert (B8 : exists evs, trace s0.1 = trace w ++ evs /\ quiet evs).
  { eexists. split; [exact B7|]. destruct debug; split; not_in_list. }
  unfold supervise, deadline.
  pose proof (poll_loop_skip fuel t (clock w + t) debug s0 B4 ltac:(lia)) as Hskip.
  destruct (ctrl_c (os s0.1) (progress s0.1)) eqn:Hc.
  { rewrite (bind_Raise _ _ _ _ _ Hskip). destruct s0 as [w0 c0].
    cbn [with_child fst snd] in *. right. rewrite <- B1. auto 6. }
  rewrite (bind_Ok _ _ _ _ _ Hskip).
  pose proof (wp_shutdown command (Some (clock w + t)) debug (strftime w) (clock w)
                s0 ltac:(discriminate) B5 B6) as H.
  assert (T : halts (te <- terminate_stage (Some (clock w + t)) debug ;;
                     kill_stage ;;
                     report command (Some (clock w + t)) debug (strftime w)
                            (clock w) te) s0).
  { apply total_bind; [apply total_terminate_stage|].
    intros te. apply total_bind; [apply total_kill_stage|].
    intros _. apply total_report. }
  unfold wp in H. unfold halts in T.
  assert (S0 : forall s' : state,
            (exists evs1 evs2, trace s'.1 = trace s0.1 ++ evs1
                                             ++ [Terminate] ++ evs2) ->
                          sent s'.1 = sent s0.1 ++ [(clock s0.1, SIGTERM)] ->
                          signalled_at (clock w) (sent w) (trace w) s'.1).
  { intros s' (e1 & e2 & E2) E1. split.
    - exists []. congruence.
    - eexists. rewrite E2, B7, <- !app_assoc. split; [reflexivity|].
      rewrite !elem_of_app. right. right. right. left.
      apply elem_of_cons. left. reflexivity. }
  assert (S1 : forall te s2, stage1_post te s0 s2 ->
            te = true /\ signalled_at (clock w) (sent w) (trace w) s2.1).
  { intros te s2 S. unfold stage1_post in S. rewrite B4 in S.
    destruct S as (-> & E1 & _ & e1 & e2 & E2 & _).
    split; [reflexivity|]. apply S0; [|exact E1].
    exists e1, (e2 ++ [Poll (returncode s2.2)]). rewrite E2. reflexivity. }
  destruct (bind (terminate_stage _ _) _ s0) as [d [w' c']|e [w' c']|];
    cbn [with_child]; [| |congruence].
  - destruct H as (s2 & s3 & te & [T1 T2 T3 T4] & R).
    destruct (S1 te s2 T1) as (-> & G).
    destruct R as (_ & _ & _ & _ & R1 & _ & _ & _ & _ & _ & R2 & _ & _
                   & (ev4 & R3 & _) & _).
    cbn [fst snd] in *.
    destruct (ev_sent _ _ T4) as [sg Hsg]. destruct (ev_trace _ _ T4) as [ev3 Hev3].
    split; [exact R1|].
    apply (signalled_at_on _ _ _ s3.1 w' [] ev4);
      [|rewrite app_nil_r; exact R2|exact R3].
    exact (signalled_at_on _ _ _ _ _ _ _ G Hsg Hev3).
  - destruct H as [A
                  |[(_ & _ & (_ & H & _) & Hs)
                   |[(s2 & te & T1 & _ & A)
                    |[(s2 & te & T1 & _ & _ & _ & (_ & (e1 & e2 & H & _) & _) & Hs)
                     |(s2 & s3 & te & [T1 T2 T3 T4] & (Hs & _ & (ev4 & H & _) & _))]]]];
      cbn [fst snd] in *.
    + right. destruct A as (-> & A1 & A2 & A3 & A4). cbn [fst snd] in *.
      split; [congruence|]. split.
      * destruct B8 as (ev0 & B8 & B9). destruct A4 as (ev1 & A4 & A5).
        exists (ev0 ++ ev1). rewrite A4, B8, <- app_assoc. auto with quiet.
      * right. split; [reflexivity|]. unfold pending in A1. cbn [fst] in A1.
        rewrite A3, B1 in A1. exact A1.
    + left. destruct H as (e1 & e2 & H & _).
      apply (S0 (w', c')); [exists e1, e2; exact H|exact Hs].
    + left. destruct (S1 te s2 T1) as (_ & G).
      destruct A as (_ & _ & A2 & _ & ev & A4 & _). cbn [fst] in *.
      apply (signalled_at_on _ _ _ s2.1 w' [] ev G);
        [rewrite app_nil_r; exact A2|exact A4].
    + left. destruct (S1 te s2 T1) as (_ & G).
      exact (signalled_at_on _ _ _ _ _ _ _ G Hs H).
    + left. destruct (S1 te s2 T1) as (_ & G).
      destruct (ev_sent _ _ T4) as [sg Hsg]. destruct (ev_trace _ _ T4) as [ev3 Hev3].
      apply (signalled_at_on _ _ _ s3.1 w' [] ev4);
        [|rewrite app_nil_r; exact Hs|exact H].
      exact (signalled_at_on _ _ _ _ _ _ _ G Hsg Hev3).
Qed.

(** X6 on a child that only SIGKILL stops, with a timeout of 0 s and no
    fuel for the loop. *)
Lemma nonpositive_timeout_signals_at_once_witness :
  returned (run_process 0 ["sleep"; "60"] (Some 0) false None true true
              (boot false (quiet_env dies_of_kill [] []) 7)) "timeout"
  = Some (VBool true) /\
  match run_process 0 ["sleep"; "60"] (Some 0) false None true true
                    (boot false (quiet_env dies_of_kill [] []) 7) with
  | Ok d (w', _) =>
      d !! "timeout" = Some (VBool true) /\
      (exists rest, sent w' = [] ++ (7, SIGTERM) :: rest) /\
      exists evs, trace w' = [] ++ evs /\ Terminate ∈ evs
  | Raise e (w', _) =>
      ((exists rest, sent w' = [] ++ (7, SIGTERM) :: rest) /\
       exists evs, trace w' = [] ++ evs /\ Terminate ∈ evs) \/
      (sent w' = [] /\
       (exists evs, trace w' = [] ++ evs /\ quiet evs) /\
       (launch (quiet_env dies_of_kill [] []) ["sleep"; "60"] = Some e \/
        (e = KeyboardInterrupt /\
         ctrl_c (quiet_env dies_of_kill [] []) (progress w') = true)))
  | OutOfFuel => False
  end.
Proof.
  split; [vm_compute; reflexivity|].
  apply (nonpositive_timeout_signals_at_once 0 ["sleep"; "60"] 0 false None true true
           (boot false (quiet_env dies_of_kill [] []) 7)); [reflexivity|lia].
Defined.

Example nonpositive_timeout_run :
  let r := run_process 0 ["sleep"; "60"] (Some 0) false None true true
                       (boot false (quiet_env dies_of_kill [] []) 7) in
  returned r "timeout" = Some (VBool true) /\
  returned r "exitcode" = Some (VInt (-9)) /\
  sent_after r = [(7, SIGTERM); (507, SIGKILL)] /\
  trace_after r
  = [Popen ["sleep"; "60"] false; Terminate; Sleep 500; Poll None;
     Kill; Sleep 500; Poll (Some (-9))].
Proof. vm_compute. repeat split; reflexivity. Qed.

(** ** The runtime of the record *)

(** X7. The [runtime] of the record a real call returns is not
    negative and covers the wait: when [timeout] is false it is at least
    the time the child was running for, and when [timeout] is true a
    timeout was given and [runtime] is at least that long. *)
Theorem runtime_covers_the_wait (fuel : nat) (command : list string)
    (timeout : option Z) (debug : bool) (input : option bytes) (po pe : bool)
    (w : world) :
  dummy w = false ->
  match run_process fuel command timeout debug input po pe w with
  | Ok d _ =>
      exists R,
        d !! "runtime" = Some (VSeconds R) /\ 0 <= R /\
        (d !! "timeout" = Some (VBool false) ->
         forall X, (forall T, T < X -> status (os w) (sent w) T = None) ->
                   X - clock w <= R) /\
        (d !! "timeout" = Some (VBool true) ->
         exists t, timeout = Some t /\ t <= R)
  | _ => True
  end.
Proof.
  intros Hd.
  pose proof (run_process_stages fuel command timeout debug input po pe w Hd) as H.
  destruct (started_facts command debug input po pe w)
    as (B1 & B2 & B3 & B4 & B5 & B6 & B7).
  set (s0 := started command debug input po pe w) in *.
  destruct (run_process _ _ _ _ _ _ _ _) as [d [w' oc]|e f|]; [|exact I..].
  destruct H as (c' & s1 & s2 & s3 & te & -> & L & F1 & [T1 T2 T3 T4] & R).
  destruct R as (_ & _ & _ & _ & R1 & R2 & _).
  pose proof (ev_clock _ _ F1) as K1. pose proof (ev_clock _ _ T2) as K2.
  pose proof (ev_clock _ _ T4) as K3.
  exists (clock s3.1 - clock w). split; [exact R2|]. split; [lia|].
  destruct L as (L1 & L2 & _ & _ & _ & L).
  unfold stage1_post in T1. rewrite R1. split.
  - intros [= ->] X HX.
    destruct (returncode s1.2) as [code|]; [|destruct T1; discriminate].
    destruct L as [L|(T0 & k & _ & _ & _ & L)]; [congruence|].
    rewrite B1, B3 in L.
    destruct (Z.lt_ge_cases (clock s1.1) X) as [Hlt|Hge]; [|lia].
    rewrite (HX _ Hlt) in L. discriminate.
  - intros [= ->].
    destruct (returncode s1.2) as [code|]; [destruct T1; discriminate|].
    destruct L as (m & L3 & L4 & _). unfold deadline in L3.
    destruct timeout as [t|]; [|discriminate]. injection L3 as <-.
    exists t. split; [reflexivity|lia].
Qed.

(** X7 on a child that ends by itself after 0.7 s: the runtime is 1 s,
    the two sleeps of the loop. *)
Lemma runtime_covers_the_wait_witness :
  returned (run_process 3 ["true"] (Some 5000) false None true true
              (boot false (quiet_env (exits_at 700 0) [] []) 0)) "runtime"
  = Some (VSeconds 1000) /\
  match run_process 3 ["true"] (Some 5000) false None true true
                    (boot false (quiet_env (exits_at 700 0) [] []) 0) with
  | Ok d _ =>
      exists R,
        d !! "runtime" = Some (VSeconds R) /\ 0 <= R /\
        (d !! "timeout" = Some (VBool false) ->
         forall X, (forall T, T < X -> exits_at 700 0 [] T = None) -> X - 0 <= R) /\
        (d !! "timeout" = Some (VBool true) ->
         exists t, Some 5000 = Some t /\ t <= R)
  | _ => True
  end.
Proof.
  split; [vm_compute; reflexivity|].
  apply (runtime_covers_the_wait 3 ["true"] (Some 5000) false None true true
           (boot false (quiet_env (exits_at 700 0) [] []) 0)).
  reflexivity.
Defined.
(** ** No signal to a child that is known to have ended *)

Lemma signals_first_nil : signals_first [].
Proof. intros a ev b H. destruct a; discriminate. Qed.

Lemma signals_first_snoc (evs : list event) (e : event) :
  signals_first evs -> (is_signal e -> unreaped evs) -> signals_first (evs ++ [e]).
Proof.
  intros H He a ev b Heq Hs.
  destruct b as [|x b _] using rev_ind.
  - apply (app_inj_tail evs a e ev) in Heq as [-> ->]. apply He, Hs.
  - rewrite app_comm_cons, app_assoc in Heq.
    apply app_inj_tail in Heq as [-> _]. exact (H a ev b eq_refl Hs).
Qed.

Lemma signals_first_app_quiet (evs more : list event) :
  signals_first evs -> quiet more -> signals_first (evs ++ more).
Proof.
  intros H. induction more as [|x more IH] using rev_ind; intros [Q1 Q2].
  - rewrite app_nil_r. exact H.
  - rewrite app_assoc. rewrite !elem_of_app in Q1, Q2.
    apply signals_first_snoc.
    + apply IH. split; tauto.
    + intros [->| ->]; exfalso; [apply Q1|apply Q2]; right;
        apply elem_of_cons; left; reflexivity.
Qed.

Lemma unreaped_snoc (evs : list event) (e : event) :
  unreaped evs -> (forall x, e <> Poll (Some x)) -> unreaped (evs ++ [e]).
Proof.
  intros H He x Hin. apply elem_of_app in Hin as [Hin|Hin]; [exact (H x Hin)|].
  apply elem_of_cons in Hin as [Hin|Hin]; [exact (He x (eq_sym Hin))|].
  apply elem_of_nil in Hin. exact Hin.
Qed.

Section Careful.
Variable tr0 : list event.

Lemma careful_same (w w' : world) (c c' : child) :
  careful tr0 (w, c) -> trace w' = trace w -> returncode c' = returncode c ->
  careful tr0 (w', c').
Proof.
  intros (evs & H1 & H2 & H3) Ht Hr. exists evs. cbn [fst snd] in *.
  rewrite Ht, Hr. auto.
Qed.

(** One more event that is not a poll; a signal only while the exit
    status is unknown. *)
Lemma careful_event (e : event) (w w' : world) (c c' : child) :
  careful tr0 (w, c) ->
  trace w' = trace w ++ [e] -> returncode c' = returncode c ->
  (is_signal e -> returncode c = None) ->
  (forall x, e <> Poll (Some x)) ->
  careful tr0 (w', c').
Proof.
  intros (evs & H1 & H2 & H3) Ht Hr Hs Hp. exists (evs ++ [e]). cbn [fst snd] in *.
  split; [rewrite Ht, H1, <- app_assoc; reflexivity|]. split.
  - apply signals_first_snoc; [exact H2|]. intros He. apply H3, Hs, He.
  - rewrite Hr. intros Hn. apply unreaped_snoc; auto.
Qed.

Lemma careful_polled (w : world) (c : child) (rc : option Z) :
  careful tr0 (w, c) ->
  (rc = None -> returncode c = None) ->
  careful tr0 (log (Poll rc) w, mk_child rc (stdout c) (stderr c) (stdin c)).
Proof.
  intros (evs & H1 & H2 & H3) Hrc. exists (evs ++ [Poll rc]). cbn [fst snd] in *.
  split; [cbn; rewrite H1, <- app_assoc; reflexivity|]. split.
  - apply signals_first_snoc; [exact H2|]. intros [He|He]; discriminate He.
  - cbn. intros ->. apply unreaped_snoc; [auto|]. discriminate.
Qed.

Lemma keeps_then {A B} (m : M B) (k : B -> M A) (s : state) :
  keeps tr0 m -> careful tr0 s ->
  (forall b s', careful tr0 s' -> returncode s'.2 = returncode s.2 ->
                safe tr0 (k b) s') ->
  safe tr0 (bind m k) s.
Proof.
  intros Hm Hs Hk. unfold safe. apply wp_bind.
  eapply wp_mono; [exact (Hm s Hs)| |].
  - intros b s' [H1 H2]. exact (Hk b s' H1 H2).
  - intros e s' [H1 _]. exact H1.
Qed.

Lemma keeps_bind {A B} (m : M B) (k : B -> M A) :
  keeps tr0 m -> (forall b, keeps tr0 (k b)) -> keeps tr0 (bind m k).
Proof.
  intros Hm Hk s Hs. apply wp_bind.
  eapply wp_mono; [exact (Hm s Hs)| |].
  - intros b s' [H1 H2]. cbv beta.
    eapply wp_mono; [exact (Hk b s' H1)| |];
      intros ? s'' [H3 H4]; split; congruence.
  - intros e s' H. exact H.
Qed.

Lemma keeps_ret {A} (a : A) : keeps tr0 (ret a).
Proof. intros s Hs. apply wp_ret. auto. Qed.

Lemma keeps_raise {A} (e : exn) : keeps tr0 (raise e : M A).
Proof. intros s Hs. apply wp_raise. auto. Qed.

Lemma keeps_when (b : bool) (m : M unit) : keeps tr0 m -> keeps tr0 (when b m).
Proof. destruct b; [auto|intros _; apply keeps_ret]. Qed.

Lemma keeps_read {A} (f : state -> A) : keeps tr0 (fun s => Ok (f s) s).
Proof. intros s Hs. unfold wp. auto. Qed.

(** Ctrl+C at an operation leaves the state as it is. *)
Lemma keeps_interruptible {A} (m : M A) : keeps tr0 m -> keeps tr0 (interruptible m).
Proof.
  intros H s Hs. apply wp_interruptible; [intros _; auto|apply H, Hs].
Qed.

Lemma keeps_default_timer : keeps tr0 default_timer.
Proof. apply keeps_interruptible, keeps_read. Qed.

Lemma keeps_read_max_time (mt : option Z) : keeps tr0 (read_max_time mt).
Proof. destruct mt; [apply keeps_ret|apply keeps_raise]. Qed.

Lemma keeps_print (m : message) : keeps tr0 (print m).
Proof.
  intros [w c] Hs. apply wp_print; [auto|]. split; [|reflexivity].
  apply (careful_event (Print m) w _ c c Hs); try reflexivity.
  - intros [H|H]; discriminate H.
  - discriminate.
Qed.

Lemma keeps_sleep (d : Z) : keeps tr0 (sleep d).
Proof.
  intros [w c] Hs.
  apply wp_sleep; intros _; (split; [|reflexivity]);
    apply (careful_event (Sleep d) w _ c c Hs); try reflexivity;
    try discriminate; intros [H|H]; discriminate H.
Qed.

Lemma keeps_yield : keeps tr0 yield.
Proof.
  intros [w c] Hs. apply wp_yield. split; [|reflexivity].
  apply (careful_same w _ c _ Hs); reflexivity.
Qed.

Lemma keeps_debug_print (mt : option Z) (f : Z -> Z -> message) :
  keeps tr0 (t <- default_timer ;; m <- read_max_time mt ;; print (f t m)).
Proof.
  apply keeps_bind; [apply keeps_default_timer|]. intros t.
  apply keeps_bind; [apply keeps_read_max_time|]. intros m. apply keeps_print.
Qed.

Lemma keeps_drains_unfinished : keeps tr0 drains_unfinished.
Proof.
  unfold drains_unfinished, stdout_has_finished, stderr_has_finished.
  apply keeps_bind.
  { apply keeps_interruptible, keeps_bind; [apply keeps_yield|].
    intros _. apply keeps_read. }
  intros a. destruct (negb a); [apply keeps_ret|].
  apply keeps_bind.
  { apply keeps_interruptible, keeps_bind; [apply keeps_yield|].
    intros _. apply keeps_read. }
  intros b. apply keeps_ret.
Qed.

Lemma safe_poll (s : state) : careful tr0 s -> safe tr0 poll s.
Proof.
  destruct s as [w c]. intros Hs. apply wp_poll; [intros _; exact Hs|].
  intros rc ->.
  apply careful_polled; [exact Hs|]. destruct (returncode c); [discriminate|auto].
Qed.

(** A signal sent while [p.returncode] is [None]. *)
Lemma careful_signalled (sg : signal) (e : event) (w : world) (c : child) :
  careful tr0 (w, c) -> returncode c = None -> (forall x, e <> Poll (Some x)) ->
  careful tr0 (log e (deliver sg w), c).
Proof.
  intros Hs Hrc He.
  apply (careful_event e w _ c c Hs); try reflexivity; auto.
Qed.

(** The wait after a signal, and the poll that ends the stage. *)
Lemma safe_grace {A} (d : Z) (k : M A) (s : state) :
  careful tr0 s ->
  (forall s', careful tr0 s' -> safe tr0 k s') ->
  safe tr0 (sleep 500 ;; u <- drains_unfinished ;; when u (sleep d) ;; poll ;; k) s.
Proof.
  intros Hs Hk.
  apply keeps_then; [apply keeps_sleep|exact Hs|]. intros _ s1 H1 _.
  apply keeps_then; [apply keeps_drains_unfinished|exact H1|]. intros u s2 H2 _.
  apply keeps_then; [apply keeps_when, keeps_sleep|exact H2|]. intros _ s3 H3 _.
  unfold safe. apply wp_bind.
  eapply wp_mono; [apply (safe_poll s3 H3)| |]; cbv beta; auto.
Qed.

Lemma safe_terminate_stage (mt : option Z) (debug : bool) (s : state) :
  careful tr0 s -> safe tr0 (terminate_stage mt debug) s.
Proof.
  intros Hs. unfold safe, terminate_stage.
  apply wp_bind, wp_get_returncode; [intros _; exact Hs|].
  destruct (returncode s.2) as [x|] eqn:Hrc; [apply (wp_ret (A := bool)); exact Hs|].
  apply keeps_then; [apply keeps_when, keeps_debug_print|exact Hs|].
  intros ? [w1 c1] H1 R1. rewrite Hrc in R1. cbn [snd] in R1.
  unfold safe. apply wp_bind, wp_terminate; [intros _; exact H1|].
  apply safe_grace.
  - apply careful_signalled; [exact H1|exact R1|discriminate].
  - intros s' H'. apply (wp_ret (A := bool)). exact H'.
Qed.

Lemma safe_kill_stage (s : state) : careful tr0 s -> safe tr0 kill_stage s.
Proof.
  intros Hs. unfold safe, kill_stage.
  apply wp_bind, wp_get_returncode; [intros _; exact Hs|].
  destruct (returncode s.2) as [x|] eqn:Hrc; [apply (wp_ret (A := unit)); exact Hs|].
  destruct s as [w c]. cbn [snd] in Hrc. apply wp_bind, wp_kill; [intros _; exact Hs|].
  assert (H1 : careful tr0 (log Kill (deliver SIGKILL w), c))
    by (apply careful_signalled; [exact Hs|exact Hrc|discriminate]).
  apply keeps_then; [apply keeps_sleep|exact H1|]. intros _ s1 H2 _.
  apply keeps_then; [apply keeps_drains_unfinished|exact H2|]. intros u s2 H3 _.
  apply keeps_then; [apply keeps_when, keeps_sleep|exact H3|]. intros _ s3 H4 _.
  apply safe_poll, H4.
Qed.

Lemma safe_poll_once (timeout mt : option Z) (debug : bool) (s : state) :
  careful tr0 s -> returncode s.2 = None -> safe tr0 (poll_once timeout mt debug) s.
Proof.
  intros Hs Hrc. unfold poll_once.
  apply keeps_then; [apply keeps_when, keeps_debug_print|exact Hs|].
  intros _ [w1 c1] H1 R1. rewrite Hrc in R1. cbn [snd] in R1.
  assert (H2 : forall d, careful tr0 (advance d (log (Sleep 500) w1), c1)).
  { intros d. apply (careful_event (Sleep 500) w1 _ c1 c1 H1); try reflexivity;
      try discriminate; intros [H|H]; discriminate H. }
  unfold safe. apply wp_bind, wp_except, wp_sleep; intros _.
  - apply wp_bind, wp_kill; [intros _; apply H2|]. apply wp_raise.
    apply careful_signalled; [|exact R1|discriminate].
    apply (careful_event (Sleep 500) w1 _ c1 c1 H1); try reflexivity;
      try discriminate; intros [H|H]; discriminate H.
  - apply safe_poll.
    apply (careful_event (Sleep 500) w1 _ c1 c1 H1); try reflexivity;
      try discriminate; intros [H|H]; discriminate H.
Qed.

Lemma safe_poll_loop (fuel : nat) (timeout mt : option Z) (debug : bool) (s : state) :
  (timeout = None <-> mt = None) ->
  careful tr0 s -> safe tr0 (poll_loop fuel timeout mt debug) s.
Proof.
  intros Hm. revert s. induction fuel as [|fuel IH]; intros s Hs; cbn [poll_loop];
    unfold safe; apply wp_bind;
    (eapply wp_mono; [apply (wp_still_waiting timeout mt s Hm)|
                      |intros e s' (_ & -> & _); exact Hs]);
    intros b s' [-> [[-> H]|[-> [Hrc Hdl]]]]; cbv beta iota;
    try (apply (wp_ret (A := unit)); exact Hs).
  - apply wp_diverge.
  - apply wp_bind.
    eapply wp_mono; [apply (safe_poll_once timeout mt debug s Hs Hrc)| |]; cbv beta.
    + intros _ s1 H1. apply IH, H1.
    + auto.
Qed.

Lemma safe_supervise (fuel : nat) (command : list string) (timeout : option Z)
    (debug : bool) (time_start : value) (start_time : Z) (mt : option Z)
    (s0 : state) :
  (timeout = None <-> mt = None) ->
  Reader._closed (stdout s0.2) = false ->
  Reader._closed (stderr s0.2) = false ->
  careful tr0 s0 ->
  wp (supervise fuel command timeout debug time_start start_time mt)
     (fun _ s' => exists evs, trace s'.1 = tr0 ++ evs /\ signals_first evs)
     (fun _ s' => exists evs, trace s'.1 = tr0 ++ evs /\ signals_first evs) s0.
Proof.
  intros Hm Hc1 Hc2 H0.
  assert (Hout : forall s, careful tr0 s ->
            exists evs, trace s.1 = tr0 ++ evs /\ signals_first evs).
  { intros s (evs & H1 & H2 & _). exists evs. auto. }
  unfold supervise. apply wp_bind.
  eapply wp_mono;
    [apply wp_and;
     [apply (safe_poll_loop fuel timeout mt debug s0 Hm H0)|apply framed_poll_loop]
    | |]; [|intros e s' [H _]; auto].
  intros _ s1 [H1 F1]. cbv beta. apply wp_bind.
  eapply wp_mono;
    [apply wp_and;
     [apply (safe_terminate_stage mt debug s1 H1)|apply framed_terminate_stage]
    | |]; [|intros e s' [H _]; auto].
  intros te s2 [H2 F2]. cbv beta. apply wp_bind.
  eapply wp_mono;
    [apply wp_and; [apply (safe_kill_stage s2 H2)|apply framed_kill_stage]
    | |]; [|intros e s' [H _]; auto].
  intros _ s3 [H3 F3]. cbv beta.
  assert (F03 : evolves s0 s3) by eauto using evolves_trans.
  destruct (evolves_closed _ _ F03) as [C1 C2].
  destruct H3 as (evs & E1 & E2 & _).
  eapply wp_mono; [apply wp_report; congruence| |].
  - intros d s' R.
    destruct R as (_ & _ & _ & _ & _ & _ & _ & _ & _ & _ & _ & _ & _
                   & (ev4 & R & Q) & _).
    exists (evs ++ ev4). rewrite R, E1, <- app_assoc. split; [reflexivity|].
    apply signals_first_app_quiet; assumption.
  - intros e s' (_ & _ & (ev4 & R & Q) & _).
    exists (evs ++ ev4). rewrite R, E1, <- app_assoc. split; [reflexivity|].
    apply signals_first_app_quiet; assumption.
Qed.

End Careful.

(** X8. In no call does [run_process] signal a child that one of its
    polls has seen end: among the events of the call, in real or in
    dummy mode and whatever the outcome, every [p.terminate()] and
    [p.kill()], the kill after Ctrl+C included, comes before any poll
    that returned an exit status. *)
Theorem no_signal_after_exit_seen (fuel : nat) (command : list string)
    (timeout : option Z) (debug : bool) (input : option bytes) (po pe : bool)
    (w : world) :
  match run_process fuel command timeout debug input po pe w with
  | Ok _ (w', _) | Raise _ (w', _) =>
      exists evs,
        trace w' = trace w ++ evs /\
        forall a ev b x,
          evs = a ++ ev :: b -> ev = Terminate \/ ev = Kill -> Poll (Some x) ∉ a
  | OutOfFuel => True
  end.
Proof.
  assert (Hout : forall tr : list event,
            (exists evs, tr = trace w ++ evs /\ signals_first evs) ->
            exists evs,
              tr = trace w ++ evs /\
              forall a ev b x,
                evs = a ++ ev :: b -> ev = Terminate \/ ev = Kill ->
                Poll (Some x) ∉ a).
  { intros tr (evs & H1 & H2). exists evs. split; [exact H1|].
    intros a ev b x Heq Hs. exact (H2 a ev b Heq Hs x). }
  destruct (dummy w) eqn:Hd.
  - unfold run_process. destruct (ctrl_c (os w) (progress w)).
    { apply Hout. exists []. rewrite app_nil_r.
      split; [reflexivity|apply signals_first_nil]. }
    destruct debug; cbn [dummy log]; rewrite Hd; apply Hout.
    + exists [Print (Starting command)]. split; [reflexivity|].
      apply (signals_first_snoc [] _ signals_first_nil).
      intros [H|H]; discriminate H.
    + exists []. rewrite app_nil_r. split; [reflexivity|apply signals_first_nil].
  - destruct (run_process_cases fuel command timeout debug input po pe w Hd)
      as [[_ ->]|(e & w' & N & ->)].
    2:{ apply Hout. destruct (not_started_facts _ _ _ _ _ _ N)
          as (_ & _ & _ & (evs & N1 & N2) & _).
        exists evs. split; [exact N1|].
        apply (signals_first_app_quiet []); [apply signals_first_nil|exact N2]. }
    destruct (started_facts command debug input po pe w)
      as (B1 & B2 & B3 & B4 & B5 & B6 & B7).
    set (s0 := started command debug input po pe w) in *.
    assert (H0 : careful (trace w) s0).
    { eexists. split; [exact B7|]. split.
      - apply (signals_first_app_quiet []); [apply signals_first_nil|].
        destruct debug; split; cbn; not_in_list.
      - intros _ x. destruct debug; cbn; not_in_list. }
    pose proof (safe_supervise (trace w) fuel command timeout debug (strftime w)
                  (clock w) (deadline (clock w) timeout) s0) as H.
    unfold wp in H.
    destruct (supervise _ _ _ _ _ _ _ _) as [d [w' c']|e [w' c']|];
      cbn [with_child]; [| |exact I];
      apply Hout, H; auto; destruct timeout; cbn; split; congruence.
Qed.

Example signals_come_first :
  trace_after (run_process 3 ["sleep"; "60"] (Some 700) false None true true
                 (boot false (quiet_env dies_of_kill [] []) 0))
  = [Popen ["sleep"; "60"] false; Sleep 500; Poll None; Sleep 500; Poll None;
     Terminate; Sleep 500; Poll None; Kill; Sleep 500; Poll (Some (-9))].
Proof. vm_compute. reflexivity. Qed.
(** ** The output in the record *)

(** A reader of a pipe that gives data lines and then ends has, once
    finished, all of them in its buffer. *)
Lemma finished_has_all (pre : list Reader.item) (o : bool) (n : nat) :
  Forall Reader.is_data pre ->
  Reader.has_finished (Reader.steps n (Reader.init pre o)) = true ->
  Reader._buffer (Reader.steps n (Reader.init pre o))
  = concat (map Reader.payload pre).
Proof.
  intros Hd Hf. destruct (le_lt_dec n (length pre)) as [Hle|Hlt].
  - exfalso.
    destruct (steps_data (take n pre) (drop n pre) (Reader.init pre o))
      as (_ & _ & _ & H).
    + apply Forall_take, Hd.
    + reflexivity.
    + cbn. rewrite take_drop. reflexivity.
    + rewrite length_take, Nat.min_l in H by exact Hle.
      unfold Reader.has_finished in Hf. rewrite Hf in H. discriminate H.
  - destruct (steps_data pre [] (Reader.init pre o) Hd eq_refl)
      as (H1 & H2 & H3 & _).
    { cbn. rewrite app_nil_r. reflexivity. }
    rewrite (steps_split n (length pre)) by exact Hlt.
    rewrite (step_eof _ H1 H2), reader_over by discriminate.
    cbn. exact H3.
Qed.

(** What [collect] puts under [stdout] and [stderr]: the buffers of the
    two readers, which have finished. *)
Lemma wp_collect_output (command : list string) (time_start : value) (runtime : Z)
    (te : bool) (w : world) (c : child) :
  Reader._closed (stdout c) = false ->
  Reader._closed (stderr c) = false ->
  wp (collect command time_start runtime te)
     (fun d _ =>
        exists n m,
          Reader.has_finished (Reader.steps n (stdout c)) = true /\
          d !! "stdout" = Some (VStr (Reader._buffer (Reader.steps n (stdout c)))) /\
          Reader.has_finished (Reader.steps m (stderr c)) = true /\
          d !! "stderr" = Some (VStr (Reader._buffer (Reader.steps m (stderr c)))))
     (fun _ _ => True)
     (w, c).
Proof.
  intros Hc1 Hc2. unfold collect.
  apply wp_bind, wp_stdout_get_output; [exact Hc1|auto|auto|].
  intros r1 Hr1 Hf1. unfold yielded at 1 2 3. cbn [fst snd stdout stderr stdin].
  apply wp_bind, wp_stderr_get_output.
  { cbn. rewrite steps_closed. exact Hc2. }
  { auto. }
  { auto. }
  intros r2 Hr2 Hf2. unfold yielded at 1 2 3. cbn [fst snd stdout stderr stdin returncode].
  apply wp_bind. unfold wp at 1. cbn [fst snd clock].
  apply wp_bind, wp_get_returncode; [auto|]. cbn [snd returncode].
  apply wp_bind, wp_get_stdin. cbn [snd stdin].
  assert (H : forall d : dict,
            d !! "stdout" = Some (VStr (Reader._buffer r1)) ->
            d !! "stderr" = Some (VStr (Reader._buffer r2)) ->
            exists n m,
              Reader.has_finished (Reader.steps n (stdout c)) = true /\
              d !! "stdout" = Some (VStr (Reader._buffer (Reader.steps n (stdout c)))) /\
              Reader.has_finished (Reader.steps m (stderr c)) = true /\
              d !! "stderr" = Some (VStr (Reader._buffer (Reader.steps m (stderr c))))).
  { intros d D1 D2. cbn in Hr1, Hr2. rewrite <- reader_steps_add in Hr2.
    eexists _, _. rewrite <- Hr1, <- Hr2. auto. }
  destruct (option_map _ (stdin c)) as [f|].
  - unfold stdin_bytes_sent, stdin_bytes_remaining.
    apply wp_bind, wp_interruptible; [auto|]. apply wp_bind, wp_yield.
    unfold yielded. cbv beta.
    unfold wp at 1. cbn [snd stdin option_map].
    apply wp_bind, wp_interruptible; [auto|]. apply wp_bind, wp_yield.
    unfold yielded. cbv beta.
    unfold wp at 1. cbn [snd stdin option_map].
    apply (wp_ret (A := dict)). apply H; reflexivity.
  - apply (wp_ret (A := dict)). apply H; reflexivity.
Qed.

Lemma wp_report_output (command : list string) (mt : option Z) (debug : bool)
    (time_start : value) (start_time : Z) (te : bool) (s : state) :
  Reader._closed (stdout s.2) = false ->
  Reader._closed (stderr s.2) = false ->
  wp (report command mt debug time_start start_time te)
     (fun d _ =>
        exists n m,
          Reader.has_finished (Reader.steps n (stdout s.2)) = true /\
          d !! "stdout" = Some (VStr (Reader._buffer (Reader.steps n (stdout s.2)))) /\
          Reader.has_finished (Reader.steps m (stderr s.2)) = true /\
          d !! "stderr" = Some (VStr (Reader._buffer (Reader.steps m (stderr s.2)))))
     (fun _ _ => True) s.
Proof.
  intros Hc1 Hc2. destruct s as [w c]. cbn [fst snd] in *.
  unfold report. apply wp_bind, wp_get_returncode; [auto|]. cbn [snd].
  destruct (returncode c) as [code|]; [|apply wp_raise; exact I].
  apply wp_bind, wp_default_timer; [auto|]. cbn [fst].
  apply wp_bind, wp_when.
  - intros ->. apply wp_bind, wp_default_timer; [auto|].
    apply wp_bind, wp_read_max_time; [|auto].
    intros m _. apply wp_print; [auto|]. apply wp_collect_output; assumption.
  - intros _. apply wp_collect_output; assumption.
Qed.

(** A property of the dictionary that [report] establishes from any
    state the run can have reached holds of what [supervise] returns. *)
Lemma wp_supervise_report (fuel : nat) (command : list string) (timeout : option Z)
    (debug : bool) (time_start : value) (start_time : Z) (mt : option Z)
    (s0 : state) (Q : dict -> state -> Prop) :
  (forall s3 te,
     evolves s0 s3 ->
     wp (report command mt debug time_start start_time te) Q (fun _ _ => True) s3) ->
  wp (supervise fuel command timeout debug time_start start_time mt)
     Q (fun _ _ => True) s0.
Proof.
  intros HR. unfold supervise. apply wp_bind.
  eapply wp_mono; [apply framed_poll_loop| |auto].
  intros ? s1 F1. cbv beta in *. apply wp_bind.
  eapply wp_mono; [apply framed_terminate_stage| |auto].
  intros te s2 F2. cbv beta in *. apply wp_bind.
  eapply wp_mono; [apply framed_kill_stage| |auto].
  intros ? s3 F3. cbv beta in *. apply HR. eauto using evolves_trans.
Qed.

(** X9. A record returned by a call on a real process never holds
    part of the output: when the child writes some lines to a pipe and
    closes it, [stdout] (and likewise [stderr]) of the record is all of
    them, in order, also when the child was stopped after a timeout. *)
Theorem record_has_whole_output (fuel : nat) (command : list string)
    (timeout : option Z) (debug : bool) (input : option bytes) (po pe : bool)
    (w : world) :
  dummy w = false ->
  match run_process fuel command timeout debug input po pe w with
  | Ok d _ =>
      (Forall Reader.is_data (out_pipe (os w)) ->
       d !! "stdout" = Some (VStr (concat (map Reader.payload (out_pipe (os w)))))) /\
      (Forall Reader.is_data (err_pipe (os w)) ->
       d !! "stderr" = Some (VStr (concat (map Reader.payload (err_pipe (os w))))))
  | _ => True
  end.
Proof.
  intros Hd.
  destruct (run_process_cases fuel command timeout debug input po pe w Hd)
    as [[_ ->]|(e & w' & _ & ->)]; [|exact I].
  destruct (started_facts command debug input po pe w)
    as (B1 & B2 & B3 & B4 & B5 & B6 & B7).
  assert (B8 : stdout (started command debug input po pe w).2
               = Reader.init (out_pipe (os w)) po)
    by (unfold started, launched; destruct debug; reflexivity).
  assert (B9 : stderr (started command debug input po pe w).2
               = Reader.init (err_pipe (os w)) pe)
    by (unfold started, launched; destruct debug; reflexivity).
  set (s0 := started command debug input po pe w) in *.
  pose proof (wp_supervise_report fuel command timeout debug (strftime w) (clock w)
                (deadline (clock w) timeout) s0
                (fun d _ =>
                   (Forall Reader.is_data (out_pipe (os w)) ->
                    d !! "stdout"
                    = Some (VStr (concat (map Reader.payload (out_pipe (os w)))))) /\
                   (Forall Reader.is_data (err_pipe (os w)) ->
                    d !! "stderr"
                    = Some (VStr (concat (map Reader.payload (err_pipe (os w)))))))) as H.
  unfold wp at 2 in H.
  destruct (supervise _ _ _ _ _ _ _ _) as [d [w' c']|e [w' c']|];
    cbn [with_child]; [|exact I..].
  apply H. clear H. intros s3 te F.
  destruct (evolves_closed _ _ F) as [C1 C2].
  destruct (ev_stdout _ _ F) as [n1 E1]. destruct (ev_stderr _ _ F) as [n2 E2].
  eapply wp_mono; [apply wp_report_output; congruence| |auto].
  intros d' _ (n & m & H1 & H2 & H3 & H4). cbv beta.
  rewrite E1, B8, <- reader_steps_add in H1, H2.
  rewrite E2, B9, <- reader_steps_add in H3, H4.
  split; intros Hdata.
  - rewrite H2. rewrite (finished_has_all _ _ _ Hdata H1). reflexivity.
  - rewrite H4. rewrite (finished_has_all _ _ _ Hdata H3). reflexivity.
Qed.

(** X9 on a child that writes two lines, ignores SIGTERM and is
    killed after a timeout of 0.7 s. *)
Lemma record_has_whole_output_witness :
  is_ok (run_process 3 ["yes"] (Some 700) false None true true
           (boot false
              (quiet_env dies_of_kill
                 [Reader.Line [Byte.x79; Byte.x0a]; Reader.Line [Byte.x79; Byte.x0a]]
                 [])
              0)) = true /\
  match run_process 3 ["yes"] (Some 700) false None true true
          (boot false
             (quiet_env dies_of_kill
                [Reader.Line [Byte.x79; Byte.x0a]; Reader.Line [Byte.x79; Byte.x0a]]
                [])
             0) with
  | Ok d _ =>
      (Forall Reader.is_data
         [Reader.Line [Byte.x79; Byte.x0a]; Reader.Line [Byte.x79; Byte.x0a]] ->
       d !! "stdout" = Some (VStr [Byte.x79; Byte.x0a; Byte.x79; Byte.x0a])) /\
      (Forall Reader.is_data [] -> d !! "stderr" = Some (VStr []))
  | _ => True
  end.
Proof.
  split; [vm_compute; reflexivity|].
  apply (record_has_whole_output 3 ["yes"] (Some 700) false None true true
           (boot false
              (quiet_env dies_of_kill
                 [Reader.Line [Byte.x79; Byte.x0a]; Reader.Line [Byte.x79; Byte.x0a]]
                 [])
              0)).
  reflexivity.
Defined.
(** ** How long a call with a timeout lasts *)

Lemma within_bind {A B} (a b c : Z) (m : M B) (k : B -> M A) :
  a + b <= c -> 0 <= b ->
  within a m -> (forall x, within b (k x)) -> within c (bind m k).
Proof.
  intros Hc Hb Hm Hk s Hl. apply wp_bind.
  eapply wp_mono; [exact (Hm s Hl)| |].
  - intros x s1 [O1 C1]. cbv beta.
    assert (Hl1 : forall k, lag (os s1.1) k = 0%N) by (rewrite O1; exact Hl).
    eapply wp_mono; [exact (Hk x s1 Hl1)| |];
      intros ? s2 [O2 C2]; (split; [congruence|lia]).
  - intros e s1 [O1 C1]. split; [exact O1|lia].
Qed.

Lemma within_ret {A} (a : A) : within 0 (ret a).
Proof. intros s _. apply wp_ret. split; [reflexivity|lia]. Qed.

Lemma within_raise {A} (e : exn) : within 0 (raise e : M A).
Proof. intros s _. apply wp_raise. split; [reflexivity|lia]. Qed.

Lemma within_when (d : Z) (b : bool) (m : M unit) :
  0 <= d -> within d m -> within d (when b m).
Proof.
  intros Hd Hm. destruct b; [exact Hm|].
  intros s _. apply wp_ret. split; [reflexivity|lia].
Qed.

Lemma within_read {A} (f : state -> A) : within 0 (fun s => Ok (f s) s).
Proof. intros s _. unfold wp. split; [reflexivity|lia]. Qed.

(** Ctrl+C at an operation takes no time. *)
Lemma within_interruptible {A} (b : Z) (m : M A) :
  0 <= b -> within b m -> within b (interruptible m).
Proof.
  intros Hb H s Hl. apply wp_interruptible; [|apply H, Hl].
  intros _. split; [reflexivity|lia].
Qed.

Lemma within_look {A} (f : state -> A) :
  within 0 (interruptible (fun s => Ok (f s) s)).
Proof. apply within_interruptible; [lia|apply within_read]. Qed.

Lemma within_read_max_time (mt : option Z) : within 0 (read_max_time mt).
Proof. destruct mt; [apply within_ret|apply within_raise]. Qed.

Lemma within_print (m : message) : within 0 (print m).
Proof.
  intros [w c] _. apply wp_print; [intros _|]; cbn; (split; [reflexivity|lia]).
Qed.

Lemma within_yield : within 0 yield.
Proof. intros [w c] _. apply wp_yield. cbn. split; [reflexivity|lia]. Qed.

Lemma within_poll : within 0 poll.
Proof.
  intros [w c] _. apply wp_poll; [intros _|intros rc _]; cbn;
    (split; [reflexivity|lia]).
Qed.

Lemma within_terminate : within 0 terminate.
Proof.
  intros [w c] _. apply wp_terminate; [intros _|]; cbn; (split; [reflexivity|lia]).
Qed.

Lemma within_kill : within 0 kill.
Proof.
  intros [w c] _. apply wp_kill; [intros _|]; cbn; (split; [reflexivity|lia]).
Qed.

Lemma within_sleep (d : Z) : 0 <= d -> within d (sleep d).
Proof.
  intros Hd [w c] Hl. cbn [fst] in Hl.
  apply wp_sleep; intros _; cbn; rewrite Hl; (split; [reflexivity|lia]).
Qed.

Lemma within_debug_print (mt : option Z) (f : Z -> Z -> message) :
  within 0 (t <- default_timer ;; m <- read_max_time mt ;; print (f t m)).
Proof.
  apply (within_bind 0 0); [lia|lia|apply within_look|]. intros t.
  apply (within_bind 0 0); [lia|lia|apply within_read_max_time|]. intros m.
  apply within_print.
Qed.

Lemma within_after_yield {A} (f : state -> A) :
  within 0 (interruptible (yield ;; (fun s => Ok (f s) s))).
Proof.
  apply within_interruptible; [lia|].
  apply (within_bind 0 0); [lia|lia|apply within_yield|].
  intros _. apply within_read.
Qed.

Lemma within_drains_unfinished : within 0 drains_unfinished.
Proof.
  unfold drains_unfinished, stdout_has_finished, stderr_has_finished.
  apply (within_bind 0 0); [lia|lia|apply within_after_yield|].
  intros a. destruct (negb a); [apply within_ret|].
  apply (within_bind 0 0); [lia|lia|apply within_after_yield|].
  intros b. apply within_ret.
Qed.

(** The wait after a signal and what follows it. *)
Lemma within_grace {A} (d : Z) (k : M A) :
  0 <= d -> within 0 k ->
  within (500 + d)
    (sleep 500 ;; u <- drains_unfinished ;; when u (sleep d) ;; k).
Proof.
  intros Hd Hk.
  apply (within_bind 500 d); [lia|lia|apply within_sleep; lia|]. intros _.
  apply (within_bind 0 d); [lia|lia|apply within_drains_unfinished|]. intros u.
  apply (within_bind d 0); [lia|lia|apply within_when, within_sleep; lia|].
  intros _. exact Hk.
Qed.

Lemma within_terminate_stage (mt : option Z) (debug : bool) :
  within 2500 (terminate_stage mt debug).
Proof.
  unfold terminate_stage.
  apply (within_bind 0 2500); [lia|lia|apply within_look|].
  intros [x|]; [|].
  - intros s _. apply (wp_ret (A := bool)). split; [reflexivity|lia].
  - apply (within_bind 0 2500);
      [lia|lia|apply within_when; [lia|apply within_debug_print]|].
    intros _.
    apply (within_bind 0 2500); [lia|lia|apply within_terminate|]. intros _.
    apply (within_grace 2000); [lia|].
    apply (within_bind 0 0); [lia|lia|apply within_poll|]. intros _.
    apply within_ret.
Qed.

Lemma within_kill_stage : within 5500 kill_stage.
Proof.
  unfold kill_stage.
  apply (within_bind 0 5500); [lia|lia|apply within_look|].
  intros [x|]; [|].
  - intros s _. apply (wp_ret (A := unit)). split; [reflexivity|lia].
  - apply (within_bind 0 5500); [lia|lia|apply within_kill|]. intros _.
    apply (within_grace 5000); [lia|apply within_poll].
Qed.

Lemma within_stdout_get_output : within 0 stdout_get_output.
Proof.
  intros [w c] _. unfold stdout_get_output.
  apply wp_interruptible; [intros _; split; [reflexivity|lia]|].
  apply wp_bind, wp_yield.
  unfold wp, yielded. cbn.
  destruct (Reader.get_output _) as [[e|d] r]; cbn; (split; [reflexivity|lia]).
Qed.

Lemma within_stderr_get_output : within 0 stderr_get_output.
Proof.
  intros [w c] _. unfold stderr_get_output.
  apply wp_interruptible; [intros _; split; [reflexivity|lia]|].
  apply wp_bind, wp_yield.
  unfold wp, yielded. cbn.
  destruct (Reader.get_output _) as [[e|d] r]; cbn; (split; [reflexivity|lia]).
Qed.

Lemma within_collect (command : list string) (time_start : value) (runtime : Z)
    (te : bool) :
  within 0 (collect command time_start runtime te).
Proof.
  unfold collect.
  apply (within_bind 0 0); [lia|lia|apply within_stdout_get_output|]. intros out.
  apply (within_bind 0 0); [lia|lia|apply within_stderr_get_output|]. intros err.
  apply (within_bind 0 0); [lia|lia|apply within_read|]. intros time_end.
  apply (within_bind 0 0); [lia|lia|apply within_look|]. intros rc.
  apply (within_bind 0 0); [lia|lia|apply within_read|]. intros [f|].
  - unfold stdin_bytes_sent, stdin_bytes_remaining.
    apply (within_bind 0 0); [lia|lia|apply within_after_yield|]. intros n.
    apply (within_bind 0 0); [lia|lia|apply within_after_yield|]. intros r.
    apply within_ret.
  - apply within_ret.
Qed.

Lemma within_report (command : list string) (mt : option Z) (debug : bool)
    (time_start : value) (start_time : Z) (te : bool) :
  within 0 (report command mt debug time_start start_time te).
Proof.
  unfold report.
  apply (within_bind 0 0); [lia|lia|apply within_look|].
  intros [code|]; [|apply within_raise].
  apply (within_bind 0 0); [lia|lia|apply within_look|]. intros t.
  apply (within_bind 0 0);
    [lia|lia|apply within_when; [lia|apply within_debug_print]|].
  intros _. apply within_collect.
Qed.

Lemma within_shutdown (command : list string) (mt : option Z) (debug : bool)
    (time_start : value) (start_time : Z) :
  within 8000
    (te <- terminate_stage mt debug ;;
     kill_stage ;;
     report command mt debug time_start start_time te).
Proof.
  apply (within_bind 2500 5500); [lia|lia|apply within_terminate_stage|]. intros te.
  apply (within_bind 5500 0); [lia|lia|apply within_kill_stage|]. intros _.
  apply within_report.
Qed.

Lemma within_poll_once (timeout mt : option Z) (debug : bool) :
  within 500 (poll_once timeout mt debug).
Proof.
  unfold poll_once.
  apply (within_bind 0 500);
    [lia|lia|apply within_when; [lia|apply within_debug_print]|].
  intros _.
  apply (within_bind 500 0); [lia|lia| |intros _; apply within_poll].
  intros [w c] Hl. cbn [fst] in Hl.
  apply wp_except, wp_sleep; intros _.
  - apply wp_bind, wp_kill; [intros _|apply wp_raise]; cbn; rewrite Hl;
      (split; [reflexivity|lia]).
  - cbn. rewrite Hl. split; [reflexivity|lia].
Qed.

(** The polling loop ends less than one sleep after the deadline. *)
Lemma poll_loop_in_time (fuel : nat) (t m : Z) (debug : bool) (s : state) :
  (forall k, lag (os s.1) k = 0%N) ->
  wp (poll_loop fuel (Some t) (Some m) debug)
     (fun _ s' => os s'.1 = os s.1 /\ clock s'.1 <= Z.max (clock s.1) (m + 499))
     (fun _ s' => os s'.1 = os s.1 /\ clock s'.1 <= Z.max (clock s.1) (m + 499)) s.
Proof.
  assert (Hm : Some t = None <-> Some m = None) by (split; discriminate).
  revert s. induction fuel as [|fuel IH]; intros s Hl; cbn [poll_loop];
    apply wp_bind;
    (eapply wp_mono; [apply (wp_still_waiting (Some t) (Some m) s Hm)|
                      |intros e s' (_ & -> & _); split; [reflexivity|lia]]);
    intros b s' [-> [[-> H]|[-> [Hrc Hdl]]]]; cbv beta iota;
    try (apply (wp_ret (A := unit)); split; [reflexivity|lia]).
  - apply wp_diverge.
  - specialize (Hdl m eq_refl). apply wp_bind.
    eapply wp_mono; [apply (within_poll_once (Some t) (Some m) debug s Hl)| |];
      cbv beta.
    + intros ? s1 [O1 C1].
      assert (Hl1 : forall k, lag (os s1.1) k = 0%N) by (rewrite O1; exact Hl).
      eapply wp_mono; [apply (IH s1 Hl1)| |];
        intros ? s2 [O2 C2]; (split; [congruence|lia]).
    + intros e s1 [O1 C1]. split; [exact O1|lia].
Qed.

(** X10. When no sleep oversleeps, a call on a real process with a
    timeout of [t] (not negative) is over less than 8.5 s after the
    deadline, whatever the child does: half a second for the sleep of
    the loop that runs into the deadline, 0.5 s and 2 s after
    [p.terminate()], 0.5 s and 5 s after [p.kill()].  The [runtime] of a
    returned record is below [t + 8.5 s] too, and the model runs out of
    fuel only if the fuel does not cover the sleeps up to the deadline. *)
Theorem timed_call_ends_in_time (fuel : nat) (command : list string) (t : Z)
    (debug : bool) (input : option bytes) (po pe : bool) (w : world) :
  dummy w = false ->
  (forall k, lag (os w) k = 0%N) ->
  0 <= t ->
  match run_process fuel command (Some t) debug input po pe w with
  | Ok d (w', _) =>
      clock w' < clock w + t + 8500 /\
      exists R, d !! "runtime" = Some (VSeconds R) /\ R < t + 8500
  | Raise _ (w', _) => clock w' < clock w + t + 8500
  | OutOfFuel => 500 * Z.of_nat fuel < t + 500
  end.
Proof.
  intros Hd Hl Ht.
  pose proof (run_process_stages fuel command (Some t) debug input po pe w Hd) as HS.
  assert (HF : run_process fuel command (Some t) debug input po pe w = OutOfFuel ->
               500 * Z.of_nat fuel < t + 500).
  { intros Hrun. destruct fuel as [|fuel]; [lia|].
    destruct (Z.le_gt_cases (clock w + t) (clock w + 500 * Z.of_nat fuel))
      as [Hle|Hgt]; [|lia].
    exfalso.
    apply (run_process_halts fuel command (Some t) debug input po pe w
             (clock w + t) Hd); [|exact Hle|exact Hrun].
    intros T HT. left. exists t. auto. }
  assert (HC : match run_process fuel command (Some t) debug input po pe w with
               | Ok _ (w', _) | Raise _ (w', _) => clock w' < clock w + t + 8500
               | OutOfFuel => True
               end).
  { destruct (run_process_cases fuel command (Some t) debug input po pe w Hd)
      as [[_ ->]|(e & w' & N & ->)].
    2:{ destruct (not_started_facts _ _ _ _ _ _ N) as (_ & _ & N1 & _). lia. }
    destruct (started_facts command debug input po pe w)
      as (B1 & B2 & B3 & B4 & B5 & B6 & B7).
    set (s0 := started command debug input po pe w) in *.
    assert (Hl0 : forall k, lag (os s0.1) k = 0%N) by (rewrite B1; exact Hl).
    assert (H : wp (supervise fuel command (Some t) debug (strftime w) (clock w)
                      (deadline (clock w) (Some t)))
                   (fun _ s' => clock s'.1 < clock w + t + 8500)
                   (fun _ s' => clock s'.1 < clock w + t + 8500) s0).
    { unfold supervise, deadline. apply wp_bind.
      eapply wp_mono; [apply (poll_loop_in_time fuel t (clock w + t) debug s0 Hl0)| |];
        cbv beta; [|intros e s1 [O1 C1]; lia].
      intros ? s1 [O1 C1].
      assert (Hl1 : forall k, lag (os s1.1) k = 0%N) by (rewrite O1; exact Hl0).
      eapply wp_mono; [apply (within_shutdown _ _ _ _ _ s1 Hl1)| |];
        intros ? s2 [O2 C2]; lia. }
    unfold wp in H.
    destruct (supervise _ _ _ _ _ _ _ _) as [d [w' c']|e [w' c']|];
      cbn [with_child]; auto. }
  destruct (run_process fuel command (Some t) debug input po pe w)
    as [d [w' oc]|e [w' oc]|]; [|exact HC|apply HF; reflexivity].
  split; [exact HC|].
  destruct HS as (c' & s1 & s2 & s3 & te & _ & _ & _ & _ & R).
  destruct R as (_ & _ & _ & _ & _ & R1 & _ & _ & _ & _ & _ & _ & R2 & _).
  cbn [fst] in R2. exists (clock s3.1 - clock w). split; [exact R1|lia].
Qed.

(** X10 on a child that only SIGKILL stops, with a timeout of 0.7 s:
    the call is over after 2 s. *)
Lemma timed_call_ends_in_time_witness :
  returned (run_process 3 ["sleep"; "60"] (Some 700) false None true true
              (boot false (quiet_env dies_of_kill [] []) 0)) "runtime"
  = Some (VSeconds 2000) /\
  match run_process 3 ["sleep"; "60"] (Some 700) false None true true
                    (boot false (quiet_env dies_of_kill [] []) 0) with
  | Ok d (w', _) =>
      clock w' < 0 + 700 + 8500 /\
      exists R, d !! "runtime" = Some (VSeconds R) /\ R < 700 + 8500
  | Raise _ (w', _) => clock w' < 0 + 700 + 8500
  | OutOfFuel => 500 * Z.of_nat 3 < 700 + 500
  end.
Proof.
  split; [vm_compute; reflexivity|].
  apply (timed_call_ends_in_time 3 ["sleep"; "60"] 700 false None true true
           (boot false (quiet_env dies_of_kill [] []) 0));
    [reflexivity|reflexivity|lia].
Defined.
(** ** Ctrl+C after the polling loop *)

Lemma started_naps (command : list string) (debug : bool) (input : option bytes)
    (po pe : bool) (w : world) :
  naps (started command debug input po pe w).1 = naps w.
Proof. unfold started, launched. destruct debug; reflexivity. Qed.

(** An operation at which no Ctrl+C arrives. *)
Lemma interruptible_go {A} (m : M A) (s : state) :
  ctrl_c (os s.1) (progress s.1) = false -> interruptible m s = m s.
Proof. unfold interruptible. intros ->. reflexivity. Qed.

(** Ctrl+C in the first sleep after [p.terminate()]. *)
Lemma terminate_stage_interrupt (mt : option Z) (debug : bool) (s : state) :
  returncode s.2 = None ->
  (debug = true -> mt <> None) ->
  interrupted (os s.1) (naps s.1) = true ->
  (forall k, ctrl_c (os s.1) k = false) ->
  exists s' evs,
    terminate_stage mt debug s = Raise KeyboardInterrupt s' /\
    trace s'.1 = trace s.1 ++ evs ++ [Terminate; Sleep 500] /\ quiet evs /\
    sent s'.1 = sent s.1 ++ [(clock s.1, SIGTERM)].
Proof.
  destruct s as [w c]. cbn [fst snd]. intros Hrc Hmt Hi Hcc.
  assert (G : get_returncode (w, c) = Ok None (w, c)).
  { unfold get_returncode. rewrite interruptible_go by apply Hcc.
    cbn. rewrite Hrc. reflexivity. }
  assert (Hgo : forall w1,
            os w1 = os w -> naps w1 = naps w -> sent w1 = sent w ->
            clock w1 = clock w ->
            exists s',
              (terminate ;; sleep 500 ;; u <- drains_unfinished ;;
               when u (sleep 2000) ;; poll ;; ret true) (w1, c)
              = Raise KeyboardInterrupt s' /\
              trace s'.1 = trace w1 ++ [Terminate; Sleep 500] /\
              sent s'.1 = sent w ++ [(clock w, SIGTERM)]).
  { intros w1 O1 O2 O3 O4. eexists. split.
    - assert (T : terminate (w1, c) = Ok tt (log Terminate (deliver SIGTERM w1), c)).
      { unfold terminate. rewrite interruptible_go by (cbn; rewrite O1; apply Hcc).
        reflexivity. }
      rewrite (bind_Ok _ _ _ _ _ T). apply bind_Raise.
      unfold sleep. cbn [log deliver os naps]. rewrite O1, O2, Hi. reflexivity.
    - cbn. rewrite <- app_assoc, O3, O4. split; reflexivity. }
  unfold terminate_stage. rewrite (bind_Ok _ _ _ _ _ G).
  destruct debug.
  - destruct mt as [m|]; [|exfalso; exact (Hmt eq_refl eq_refl)].
    assert (P : when true (t <- default_timer ;; m0 <- read_max_time (Some m) ;;
                           print (TimeoutAt (t - m0))) (w, c)
                = Ok tt (log (Print (TimeoutAt (clock w - m))) w, c)).
    { unfold when.
      assert (T : default_timer (w, c) = Ok (clock w) (w, c)).
      { unfold default_timer. rewrite interruptible_go by apply Hcc. reflexivity. }
      rewrite (bind_Ok _ _ _ _ _ T).
      assert (R : read_max_time (Some m) (w, c) = Ok m (w, c)) by reflexivity.
      rewrite (bind_Ok _ _ _ _ _ R).
      unfold print. rewrite interruptible_go by apply Hcc. reflexivity. }
    rewrite (bind_Ok _ _ _ _ _ P).
    destruct (Hgo (log (Print (TimeoutAt (clock w - m))) w))
      as (s' & H1 & H2 & H3); try reflexivity.
    exists s', [Print (TimeoutAt (clock w - m))].
    split; [exact H1|]. split; [rewrite H2; cbn; rewrite <- app_assoc; reflexivity|].
    split; [auto with quiet|exact H3].
  - assert (P : when false (t <- default_timer ;; m0 <- read_max_time mt ;;
                            print (TimeoutAt (t - m0))) (w, c)
                = Ok tt (w, c)) by reflexivity.
    rewrite (bind_Ok _ _ _ _ _ P).
    destruct (Hgo w) as (s' & H1 & H2 & H3); try reflexivity.
    exists s', []. split; [exact H1|]. split; [exact H2|].
    split; [auto with quiet|exact H3].
Qed.

Lemma calm_on (tr0 : list event) (sg0 : list (Z * signal)) (w1 w2 : world) :
  calm tr0 sg0 w1 -> sent w2 = sent w1 ->
  (exists evs, trace w2 = trace w1 ++ evs /\ quiet evs) ->
  calm tr0 sg0 w2.
Proof.
  intros (ev1 & H1 & H2 & H3) Hs (ev2 & H4 & H5).
  exists (ev1 ++ ev2). rewrite H4, H1, <- app_assoc.
  split; [reflexivity|]. split; [auto with quiet|congruence].
Qed.

Lemma calm_tally (tr0 : list event) (sg0 : list (Z * signal)) (w1 : world) :
  calm tr0 sg0 w1 -> tally tr0 sg0 w1.
Proof.
  intros (ev1 & H1 & [H2 _] & H3). exists ev1. split; [exact H1|]. right. right. auto.
Qed.

(** [p.terminate()] after a calm start. *)
Lemma tally_terminated (tr0 : list event) (sg0 : list (Z * signal))
    (w1 w2 : world) (T : Z) :
  calm tr0 sg0 w1 ->
  (exists e1 e2, trace w2 = trace w1 ++ e1 ++ [Terminate] ++ e2) ->
  sent w2 = sent w1 ++ [(T, SIGTERM)] ->
  tally tr0 sg0 w2.
Proof.
  intros (ev1 & H1 & _ & H3) (e1 & e2 & H4) Hs.
  exists (ev1 ++ e1 ++ [Terminate] ++ e2). rewrite H4, H1, <- app_assoc.
  split; [reflexivity|]. right. left. split.
  - rewrite !elem_of_app. right. right. left. apply elem_of_cons. left. reflexivity.
  - exists T. congruence.
Qed.

Lemma tally_on (tr0 : list event) (sg0 : list (Z * signal)) (w1 w2 : world) :
  tally tr0 sg0 w1 -> sent w2 = sent w1 ->
  (exists evs, trace w2 = trace w1 ++ evs /\ quiet evs) ->
  tally tr0 sg0 w2.
Proof.
  intros (ev1 & H1 & H2) Hs (ev2 & H4 & H5 & H6).
  exists (ev1 ++ ev2). rewrite H4, H1, <- app_assoc. split; [reflexivity|].
  destruct H2 as [H2|[(H2 & T & H3)|(H2 & H3)]].
  - left. apply elem_of_app. auto.
  - right. left. split; [apply elem_of_app; auto|]. exists T. congruence.
  - right. right. split; [|congruence].
    intros H. apply elem_of_app in H as [H|H]; auto.
Qed.

Lemma tally_killed (tr0 : list event) (sg0 : list (Z * signal)) (w1 w2 : world) :
  (exists evs, trace w1 = tr0 ++ evs) ->
  (exists e1 e2, trace w2 = trace w1 ++ e1 ++ [Kill] ++ e2) ->
  tally tr0 sg0 w2.
Proof.
  intros (ev1 & H1) (e1 & e2 & H2).
  exists (ev1 ++ e1 ++ [Kill] ++ e2). rewrite H2, H1, <- app_assoc.
  split; [reflexivity|]. left.
  rewrite !elem_of_app. right. right. left. apply elem_of_cons. left. reflexivity.
Qed.

Lemma tally_trace (tr0 : list event) (sg0 : list (Z * signal)) (w1 : world) :
  tally tr0 sg0 w1 -> exists evs, trace w1 = tr0 ++ evs.
Proof. intros (evs & H & _). exists evs. exact H. Qed.

(** What the first stage leaves of a calm state. *)
Lemma tally_stage1 (tr0 : list event) (sg0 : list (Z * signal))
    (s1 s2 : state) (te : bool) :
  calm tr0 sg0 s1.1 -> stage1_post te s1 s2 -> tally tr0 sg0 s2.1.
Proof.
  intros Hc T1. unfold stage1_post in T1.
  destruct (returncode s1.2) as [x|].
  - destruct T1 as [_ ->]. apply calm_tally, Hc.
  - destruct T1 as (_ & E1 & _ & e1 & e2 & E2 & _).
    apply (tally_terminated _ _ s1.1 _ (clock s1.1) Hc); [|exact E1].
    exists e1, (e2 ++ [Poll (returncode s2.2)]). rewrite E2. reflexivity.
Qed.

(** What the second stage leaves. *)
Lemma tally_stage2 (tr0 : list event) (sg0 : list (Z * signal)) (s2 s3 : state) :
  tally tr0 sg0 s2.1 -> stage2_post s2 s3 -> tally tr0 sg0 s3.1.
Proof.
  intros Ht T3. unfold stage2_post in T3.
  destruct (returncode s2.2) as [x|].
  - subst s3. exact Ht.
  - destruct T3 as (_ & _ & e1 & e2 & E2 & _).
    apply (tally_killed _ _ s2.1); [exact (tally_trace _ _ _ Ht)|].
    exists e1, (e2 ++ [Poll (returncode s3.2)]). rewrite E2. reflexivity.
Qed.

(** The tally of a call on a real process left by [KeyboardInterrupt]. *)
Lemma interrupted_tally (fuel : nat) (command : list string)
    (timeout : option Z) (debug : bool) (input : option bytes) (po pe : bool)
    (w w' : world) (oc : option child) :
  dummy w = false ->
  run_process fuel command timeout debug input po pe w
  = Raise KeyboardInterrupt (w', oc) ->
  tally (trace w) (sent w) w'.
Proof.
  intros Hd Hrun.
  destruct (started_facts command debug input po pe w)
    as (B1 & B2 & B3 & B4 & B5 & B6 & B7).
  pose proof (run_process_stages fuel command timeout debug input po pe w Hd) as H.
  rewrite Hrun in H. destruct H as [(_ & N)|(c' & -> & H)].
  { destruct (not_started_facts _ _ _ _ _ _ N) as (N1 & _ & _ & (evs & N2 & N3) & _).
    apply calm_tally. exists evs. auto. }
  set (s0 := started command debug input po pe w) in *.
  assert (C0 : calm (trace w) (sent w) s0.1).
  { eexists. split; [exact B7|]. split; [|exact B3].
    destruct debug; split; not_in_list. }
  destruct H as [(_ & (ev0 & H & _) & _)|[A|(s1 & L & F1 & H)]]; cbn [fst snd] in *.
  - apply (tally_killed _ _ s0.1); [destruct C0 as (e & C0 & _); exists e; exact C0|].
    exists (ev0 ++ [Sleep 500]), []. rewrite H, <- !app_assoc. reflexivity.
  - destruct A as (_ & _ & A2 & _ & A4). apply calm_tally.
    exact (calm_on _ _ _ _ C0 A2 A4).
  - assert (C1 : calm (trace w) (sent w) s1.1).
    { destruct L as (L1 & _ & _ & L2 & _). exact (calm_on _ _ _ _ C0 L1 L2). }
    destruct H as [A
                  |[(_ & _ & (_ & (e1 & e2 & H & _) & _) & HS)
                   |[(s2 & te & T1 & _ & A)
                    |[(s2 & te & T1 & _ & _ & _ & (_ & (e1 & e2 & H & _) & _) & _)
                     |(s2 & s3 & te & [T1 _ T3 _] & (R1 & _ & R2 & _))]]]];
      cbn [fst snd] in *.
    + destruct A as (_ & _ & A2 & _ & A4). apply calm_tally.
      exact (calm_on _ _ _ _ C1 A2 A4).
    + apply (tally_terminated _ _ s1.1 _ (clock s1.1) C1); [|exact HS].
      exists e1, e2. exact H.
    + destruct A as (_ & _ & A2 & _ & A4). cbn [fst] in *.
      exact (tally_on _ _ _ _ (tally_stage1 _ _ _ _ _ C1 T1) A2 A4).
    + apply (tally_killed _ _ s2.1);
        [exact (tally_trace _ _ _ (tally_stage1 _ _ _ _ _ C1 T1))|].
      exists e1, e2. exact H.
    + exact (tally_on _ _ _ _
               (tally_stage2 _ _ _ _ (tally_stage1 _ _ _ _ _ C1 T1) T3) R1 R2).
Qed.

(** X11. Outside the [try] of the polling loop Ctrl+C is not caught,
    so the child is not killed as it is there.  In a call on a real
    process that [KeyboardInterrupt] ends without [p.kill()] having been
    called: when [p.terminate()] was called, SIGTERM is all the child
    was sent; when it was not, the child was sent nothing and is left
    as it is.  The first outcome exists: when [Popen] starts the child,
    with a timeout of zero or less, Ctrl+C in the first sleep and at no
    other point, the call ends with [p.terminate()] and the interrupted
    [time.sleep(0.5)]. *)
Theorem interrupt_in_shutdown_is_not_caught (fuel : nat) (command : list string)
    (timeout : option Z) (debug : bool) (input : option bytes) (po pe : bool)
    (w : world) :
  dummy w = false ->
  (forall w' oc evs,
     run_process fuel command timeout debug input po pe w
     = Raise KeyboardInterrupt (w', oc) ->
     trace w' = trace w ++ evs -> Kill ∉ evs ->
     (Terminate ∈ evs -> exists T, sent w' = sent w ++ [(T, SIGTERM)]) /\
     (Terminate ∉ evs -> sent w' = sent w)) /\
  (forall t,
     timeout = Some t -> t <= 0 -> interrupted (os w) (naps w) = true ->
     launch (os w) command = None -> (forall k, ctrl_c (os w) k = false) ->
     exists w' oc evs,
       run_process fuel command timeout debug input po pe w
       = Raise KeyboardInterrupt (w', oc) /\
       trace w' = trace w ++ evs ++ [Terminate; Sleep 500] /\ quiet evs /\
       sent w' = sent w ++ [(clock w, SIGTERM)]).
Proof.
  intros Hd.
  destruct (started_facts command debug input po pe w)
    as (B1 & B2 & B3 & B4 & B5 & B6 & B7).
  pose proof (started_naps command debug input po pe w) as B8.
  split.
  - intros w' oc evs Hrun Htr Hk.
    destruct (interrupted_tally _ _ _ _ _ _ _ _ _ _ Hd Hrun) as (evs' & H1 & H2).
    rewrite Htr in H1. apply app_inv_head in H1. subst evs'.
    destruct H2 as [H2|[(H2 & H3)|(H2 & H3)]]; [contradiction| |]; split; tauto.
  - intros t -> Ht Hi Hl Hcc.
    rewrite (run_process_real _ _ _ _ _ _ _ _ Hd).
    2:{ unfold starts_up. auto. }
    set (s0 := started command debug input po pe w) in *.
    unfold supervise, deadline.
    pose proof (poll_loop_skip fuel t (clock w + t) debug s0 B4 ltac:(lia)) as Hskip.
    rewrite B1, Hcc in Hskip.
    rewrite (bind_Ok _ _ _ _ _ Hskip).
    destruct (terminate_stage_interrupt (Some (clock w + t)) debug s0 B4)
      as ([w' c'] & evs & H1 & H2 & H3 & H4).
    { discriminate. }
    { rewrite B1, B8. exact Hi. }
    { rewrite B1. exact Hcc. }
    rewrite (bind_Raise _ _ _ _ _ H1). cbn [with_child fst snd] in *.
    exists w', (Some c'),
      ((if debug then [Print (Starting command)] else [])
       ++ [Popen command (match input with None => false | Some _ => true end)]
       ++ evs).
    split; [reflexivity|]. split; [rewrite H2, B7, <- !app_assoc; reflexivity|].
    split; [|rewrite H4, B2, B3; reflexivity].
    destruct debug; cbn; auto with quiet.
Qed.

(** X11 on a child that nothing stops, with a timeout of 0 s and Ctrl+C
    in the first sleep. *)
Lemma interrupt_in_shutdown_is_not_caught_witness :
  exists w' oc evs,
    run_process 0 ["sleep"; "60"] (Some 0) false None true true
                (boot false (ctrl_c_env 0) 3)
    = Raise KeyboardInterrupt (w', oc) /\
    trace w' = [] ++ evs ++ [Terminate; Sleep 500] /\ quiet evs /\
    sent w' = [] ++ [(3, SIGTERM)].
Proof.
  apply (proj2 (interrupt_in_shutdown_is_not_caught 0 ["sleep"; "60"] (Some 0) false
                  None true true (boot false (ctrl_c_env 0) 3) eq_refl) 0);
    [reflexivity|lia|reflexivity|reflexivity|reflexivity].
Defined.

Example interrupt_in_shutdown_run :
  let r := run_process 0 ["sleep"; "60"] (Some 0) false None true true
                       (boot false (ctrl_c_env 0) 3) in
  raised r = Some KeyboardInterrupt /\
  sent_after r = [(3, SIGTERM)] /\
  trace_after r = [Popen ["sleep"; "60"] false; Terminate; Sleep 500].
Proof. vm_compute. repeat split; reflexivity. Qed.

(** Ctrl+C at [p.poll()] after the wait that follows [p.terminate()]:
    the child, which nothing stops, has been sent SIGTERM and no more. *)
Example interrupt_after_terminate_run :
  let r := run_process 0 ["sleep"; "60"] (Some 0) false None true true
                       (boot false (ctrl_c_at 3) 3) in
  raised r = Some KeyboardInterrupt /\
  sent_after r = [(3, SIGTERM)] /\
  trace_after r = [Popen ["sleep"; "60"] false; Terminate; Sleep 500].
Proof. vm_compute. repeat split; reflexivity. Qed.

(** ** The signals of a call *)

Lemma shutdown_sent (s1 s2 s3 : state) (te : bool) :
  shutdown s1 s2 s3 te -> escalation (sent s1.1) (sent s3.1).
Proof.
  intros [T1 F2 T3 F3]. unfold stage1_post in T1. unfold stage2_post in T3.
  destruct (returncode s1.2) as [x|] eqn:Hrc1.
  - destruct T1 as [_ ->]. rewrite Hrc1 in T3. subst s3. left. reflexivity.
  - destruct T1 as [_ (E1 & _)].
    destruct (returncode s2.2) as [y|].
    + subst s3. right. left. exists (clock s1.1). exact E1.
    + destruct T3 as (E2 & _). right. right. exists (clock s1.1), (clock s2.1).
      split; [apply (ev_clock _ _ F2)|].
      rewrite E2, E1, <- app_assoc. reflexivity.
Qed.

(** X12. The signals of a call.  Whatever the outcome, [run_process]
    has sent the child nothing, or SIGTERM once, or SIGTERM once and
    SIGKILL once after it; SIGKILL with no SIGTERM before it is sent
    only when the call is left by [KeyboardInterrupt].  The dummy mode
    sends nothing: a dummy call ends at once, without a child and with
    the signals as they were. *)
Theorem signals_of_a_call (fuel : nat) (command : list string)
    (timeout : option Z) (debug : bool) (input : option bytes) (po pe : bool)
    (w : world) :
  match run_process fuel command timeout debug input po pe w with
  | Ok _ (w', _) => escalation (sent w) (sent w')
  | Raise e (w', _) =>
      escalation (sent w) (sent w') \/
      (e = KeyboardInterrupt /\ exists T, sent w' = sent w ++ [(T, SIGKILL)])
  | OutOfFuel => True
  end /\
  (dummy w = true ->
   match run_process fuel command timeout debug input po pe w with
   | Ok _ (w', oc) | Raise _ (w', oc) => sent w' = sent w /\ oc = None
   | OutOfFuel => False
   end).
Proof.
  split.
  2:{ intros Hd. unfold run_process.
      destruct (ctrl_c (os w) (progress w)); [split; reflexivity|].
      destruct debug; cbn [dummy log]; rewrite Hd; split; reflexivity. }
  destruct (dummy w) eqn:Hd.
  - unfold run_process.
    destruct (ctrl_c (os w) (progress w)); [left; left; reflexivity|].
    destruct debug; cbn [dummy log]; rewrite Hd; left; reflexivity.
  - pose proof (run_process_stages fuel command timeout debug input po pe w Hd) as H.
    destruct (started_facts command debug input po pe w)
      as (B1 & B2 & B3 & B4 & B5 & B6 & B7).
    set (s0 := started command debug input po pe w) in *.
    destruct (run_process _ _ _ _ _ _ _ _) as [d [w' oc]|e [w' oc]|]; [| |exact I].
    + destruct H as (c' & s1 & s2 & s3 & te & _ & L & _ & S & R).
      destruct L as (L1 & _).
      destruct R as (_ & _ & _ & _ & _ & _ & _ & _ & _ & _ & R & _).
      cbn [fst] in R. rewrite R, <- B3, <- L1. exact (shutdown_sent _ _ _ _ S).
    + destruct H as [(_ & N)|(c' & _ & [H|[A|(s1 & L & _ & H)]])].
      * left. left. apply (not_started_facts _ _ _ _ _ _ N).
      * right. destruct H as (-> & _ & (T & H) & _). cbn [fst] in H.
        split; [reflexivity|]. exists T. rewrite H, B3. reflexivity.
      * left. left. destruct A as (_ & _ & A & _). cbn [fst] in A. congruence.
      * left. destruct L as (L1 & _). rewrite <- B3, <- L1.
        destruct H as [A
                      |[(_ & _ & _ & H)
                       |[(s2 & te & T1 & F2 & A)
                        |[(s2 & te & T1 & F2 & Hn & _ & _ & H)
                         |(s2 & s3 & te & S & (H & _))]]]]; cbn [fst] in *.
        -- left. destruct A as (_ & _ & A & _). exact A.
        -- right. left. exists (clock s1.1). exact H.
        -- destruct A as (_ & _ & A & _). cbn [fst] in A. rewrite A.
           unfold stage1_post in T1.
           destruct (returncode s1.2) as [x|] eqn:Hrc1.
           { destruct T1 as [_ ->]. left. reflexivity. }
           destruct T1 as [_ (E1 & _)]. right. left.
           exists (clock s1.1). exact E1.
        -- unfold stage1_post in T1.
           destruct (returncode s1.2) as [x|] eqn:Hrc1.
           { destruct T1 as [_ ->]. congruence. }
           destruct T1 as [_ (E1 & _)]. right. right.
           exists (clock s1.1), (clock s2.1).
           split; [apply (ev_clock _ _ F2)|].
           rewrite H, E1, <- app_assoc. reflexivity.
        -- rewrite H. exact (shutdown_sent _ _ _ _ S).
Qed.

(** X12 on a dummy call and on a child that only SIGKILL stops. *)
Lemma signals_of_a_call_witness :
  match run_process 3 ["sleep"; "60"] (Some 700) false None true true
                    (boot true (quiet_env dies_of_kill [] []) 0) with
  | Ok _ (w', oc) | Raise _ (w', oc) => sent w' = [] /\ oc = None
  | OutOfFuel => False
  end /\
  escalation []
    (sent_after (run_process 3 ["sleep"; "60"] (Some 700) false None true true
                   (boot false (quiet_env dies_of_kill [] []) 0))).
Proof.
  split.
  - apply (signals_of_a_call 3 ["sleep"; "60"] (Some 700) false None true true
             (boot true (quiet_env dies_of_kill [] []) 0)).
    reflexivity.
  - pose proof (signals_of_a_call 3 ["sleep"; "60"] (Some 700) false None true true
                  (boot false (quiet_env dies_of_kill [] []) 0)) as [H _].
    assert (Hok : is_ok
                    (run_process 3 ["sleep"; "60"] (Some 700) false None true true
                       (boot false (quiet_env dies_of_kill [] []) 0)) = true)
      by (vm_compute; reflexivity).
    unfold sent_after.
    destruct (run_process 3 ["sleep"; "60"] (Some 700) false None true true
                (boot false (quiet_env dies_of_kill [] []) 0))
      as [d [w' oc]|e s|]; [exact H|discriminate Hok..].
Defined.

Example signals_of_a_killed_child :
  sent_after (run_process 3 ["sleep"; "60"] (Some 700) false None true true
                (boot false (quiet_env dies_of_kill [] []) 0))
  = [(1000, SIGTERM); (1500, SIGKILL)].
Proof. vm_compute. reflexivity. Qed.

(** X13. Without a timeout [run_process] never signals the child of
    its own accord: whatever the outcome of the call, error outcomes
    included, nothing was sent, but for the SIGKILL of a call that Ctrl+C
    ends in a sleep of the polling loop. *)
Theorem no_timeout_no_signal (fuel : nat) (command : list string)
    (debug : bool) (input : option bytes) (po pe : bool) (w : world) :
  match run_process fuel command None debug input po pe w with
  | Ok _ (w', _) => sent w' = sent w
  | Raise e (w', _) =>
      sent w' = sent w \/
      (e = KeyboardInterrupt /\ exists T, sent w' = sent w ++ [(T, SIGKILL)])
  | OutOfFuel => True
  end.
Proof.
  destruct (dummy w) eqn:Hd.
  - unfold run_process.
    destruct (ctrl_c (os w) (progress w)); [left; reflexivity|].
    destruct debug; cbn [dummy log]; rewrite Hd; reflexivity.
  - pose proof (run_process_stages fuel command None debug input po pe w Hd) as H.
    destruct (started_facts command debug input po pe w)
      as (B1 & B2 & B3 & B4 & B5 & B6 & B7).
    set (s0 := started command debug input po pe w) in *.
    assert (HL : forall s1, loop_over None s0 s1 ->
              sent s1.1 = sent w /\ exists x, returncode s1.2 = Some x).
    { intros s1 (L1 & _ & _ & _ & _ & L). split; [congruence|].
      destruct (returncode s1.2) as [x|]; [exists x; reflexivity|].
      destruct L as (m & L & _). discriminate L. }
    assert (HS : forall s1 s2 s3 te,
              loop_over None s0 s1 -> shutdown s1 s2 s3 te -> sent s3.1 = sent w).
    { intros s1 s2 s3 te L [T1 _ T3 _]. destruct (HL s1 L) as (E & x & Hx).
      unfold stage1_post in T1. unfold stage2_post in T3. rewrite Hx in T1.
      destruct T1 as [_ ->]. rewrite Hx in T3. subst s3. exact E. }
    destruct (run_process _ _ _ _ _ _ _ _) as [d [w' oc]|e [w' oc]|]; [| |exact I].
    + destruct H as (c' & s1 & s2 & s3 & te & _ & L & _ & S & R).
      destruct R as (_ & _ & _ & _ & _ & _ & _ & _ & _ & _ & R & _).
      cbn [fst] in R. rewrite R. exact (HS _ _ _ _ L S).
    + destruct H as [(_ & N)|(c' & _ & [H|[A|(s1 & L & _ & H)]])].
      * left. apply (not_started_facts _ _ _ _ _ _ N).
      * right. destruct H as (-> & _ & (T & H) & _). cbn [fst] in H.
        split; [reflexivity|]. exists T. rewrite H, B3. reflexivity.
      * left. destruct A as (_ & _ & A & _). cbn [fst] in A. congruence.
      * left. destruct (HL s1 L) as (E & x & Hx).
        destruct H as [A
                      |[(Hn & _)
                       |[(s2 & te & T1 & _ & A)
                        |[(s2 & te & T1 & _ & Hn & _)
                         |(s2 & s3 & te & S & (H & _))]]]].
        -- destruct A as (_ & _ & A & _). cbn [fst] in A. congruence.
        -- congruence.
        -- unfold stage1_post in T1. rewrite Hx in T1. destruct T1 as [_ ->].
           destruct A as (_ & _ & A & _). cbn [fst] in A. congruence.
        -- unfold stage1_post in T1. rewrite Hx in T1. destruct T1 as [_ ->].
           congruence.
        -- cbn [fst] in H. rewrite H. exact (HS _ _ _ _ L S).
Qed.
